(** * A local proxy between two chat APIs: the protocol translator

    This development embeds the translator of [proxy.mjs] (the request
    translator with its role merge and generation config, the tool-schema
    normaliser, the batch and stream response translators and the endpoint
    racer) and states its properties.

    Conventions of the embedding.
    - A value that [JSON.parse] returns is a [json]; [undefined] (a missing
      property, or the result of [?.] on [null]) is [None] of [option json].
    - Numbers are integers ([Z]), as token counts and HTTP codes are; a
      sum is rounded as a sum of doubles is, which leaves it exact below
      2^53.  Fractional numbers are left out.
    - An object is the list of its own properties in insertion order, as
      [Object.entries] enumerates them ([JSON.parse] never binds one key
      twice; reading a key returns its first binding).  JavaScript lists
      keys that are array indices before the others; here they stay where
      they were inserted, which changes the order in which such an object
      lists its fields and nothing else.  [JSON.parse] binds a key
      [__proto__] as an own property like any other; an assignment
      [obj["__proto__"] = v] binds nothing.
    - Strings are [string]; a character is one code unit.
    - A thrown [TypeError] is the [Throw] result.  Turning a value into
      a string ([String(v)], [a + b], [join]) throws on an object with an
      own property [toString], which a parsed value never holds as a
      function: [printable] says where it returns.
    - Built-ins whose exact output no property depends on
      ([JSON.stringify], [JSON.parse], [String] on values that are not
      strings, [String.prototype.trim], the clock and the random source
      behind generated ids) are section variables. *)

From Stdlib Require Import List String Ascii ZArith Bool Lia Arith PeanoNat.
From Stdlib Require Import DecimalString.
Import ListNotations.

Local Open Scope string_scope.
Local Open Scope list_scope.

(* ================================================================== *)
(** * JavaScript values                                                *)
(* ================================================================== *)

Module JS.

#[warnings="-register-all"]
Inductive json : Type :=
| JNull
| JBool (b : bool)
| JNum (n : Z)
| JStr (s : string)
| JArr (elems : list json)
| JObj (fields : list (string * json)).

(** [if (v)], [!v], [v || d], [v && w]. *)
Definition truthy (v : json) : bool :=
  match v with
  | JNull => false
  | JBool b => b
  | JNum n => negb (n =? 0)%Z
  | JStr s => negb (s =? EmptyString)
  | JArr _ | JObj _ => true
  end.

Definition truthy_opt (v : option json) : bool :=
  match v with Some j => truthy j | None => false end.

(** [a || b] on possibly undefined values. *)
Definition js_or (a b : option json) : option json :=
  if truthy_opt a then a else b.

(** [a || d] where [d] is a literal. *)
Definition or_default (a : option json) (d : json) : json :=
  match a with
  | Some j => if truthy j then j else d
  | None => d
  end.

(** ** Numbers

    A number of the program is a double; the numbers here are the
    integers among them.  Every integer of magnitude below 2^53 is a
    double ([Number.isSafeInteger]), and a sum of two doubles is the
    double nearest to the exact sum, ties going to the one with an even
    significand: exact while the sum stays below 2^53, rounded beyond
    (1e20 + 1024 is 1e20).  Sums of a magnitude that overflows to
    [Infinity] (2^1024) are left out. *)
Definition safe_integer (n : Z) : bool := (Z.abs n <? 2 ^ 53)%Z.

Definition nearest_double (n : Z) : Z :=
  if safe_integer n then n
  else
    let a := Z.abs n in
    let ulp := (2 ^ (Z.log2 a - 52))%Z in
    let q := (a / ulp)%Z in
    let r := (a mod ulp)%Z in
    let q' := if (2 * r <? ulp)%Z then q
              else if (ulp <? 2 * r)%Z then (q + 1)%Z
              else if Z.even q then q else (q + 1)%Z in
    (Z.sgn n * (q' * ulp))%Z.

(** [x + y] on numbers. *)
Definition js_add (x y : Z) : Z := nearest_double (x + y).

(** [typeof v === "object"]: objects, arrays and [null]. *)
Definition typeof_object (v : json) : bool :=
  match v with JNull | JArr _ | JObj _ => true | _ => false end.

Fixpoint lookup (k : string) (fs : list (string * json)) : option json :=
  match fs with
  | [] => None
  | (k', v) :: rest => if k' =? k then Some v else lookup k rest
  end.

(** [v.k] for the fixed property names the proxy reads.  None of them is a
    member of a prototype or the [length] of a string or an array, so only
    an object can answer.  [v] is not [undefined] here; on [null] the
    caller either guards with [?.] (then the answer is [undefined], as
    below) or throws. *)
Definition get (k : string) (v : json) : option json :=
  match v with JObj fs => lookup k fs | _ => None end.

(** [v?.k]. *)
Definition get_opt (k : string) (v : option json) : option json :=
  match v with Some j => get k j | None => None end.

(** [obj[k] = v]: overwrite in place, else append. *)
Fixpoint assign (k : string) (v : json) (fs : list (string * json))
  : list (string * json) :=
  match fs with
  | [] => [(k, v)]
  | (k', v') :: rest =>
      if k' =? k then (k', v) :: rest else (k', v') :: assign k v rest
  end.

(** [x === "lit"]. *)
Definition is_str (lit : string) (v : option json) : bool :=
  match v with Some (JStr s) => s =? lit | _ => false end.

(** [hay.includes(needle)]. *)
Fixpoint includes (needle hay : string) : bool :=
  prefix needle hay ||
  match hay with
  | EmptyString => false
  | String _ rest => includes needle rest
  end.

(** [s.slice(0, n)]. *)
Definition slice0 (n : nat) (s : string) : string := substring 0 n s.

Definition newline : string := String (ascii_of_nat 10) EmptyString.

(** The keys of an array seen as an object: ["0"], ["1"], ... *)
Definition index_key (i : nat) : string := NilZero.string_of_uint (Nat.to_uint i).

Fixpoint indexed_from (i : nat) (l : list json) : list (string * json) :=
  match l with
  | [] => []
  | x :: rest => (index_key i, x) :: indexed_from (S i) rest
  end.

(** [Object.entries(v)] and the spread [{...v}] of a value that is not
    [null]: own enumerable properties. *)
Definition entries (v : json) : list (string * json) :=
  match v with
  | JObj fs => fs
  | JArr l => indexed_from 0 l
  | _ => []
  end.

(** Where [String(v)] returns.  An object is printed by its [toString];
    one that holds a property of this name holds a parsed value there,
    which cannot be called, and [valueOf], its own or the inherited one,
    gives no primitive either: the call throws.  An array prints its
    elements, [null] as nothing. *)
Fixpoint printable (v : json) : bool :=
  match v with
  | JArr l => forallb printable l
  | JObj fs => match lookup "toString" fs with Some _ => false | None => true end
  | _ => true
  end.

(** [String(v)] of a [printable] value: a string is itself; [js_String]
    prints the other values.  The callers that can meet another value
    test it first. *)
Definition to_string (js_String : json -> string) (v : json) : string :=
  match v with JStr s => s | _ => js_String v end.

(** Results of code that may throw. *)
Inductive result (A : Type) : Type :=
| Ok (a : A)
| Throw.
Arguments Ok {A} a.
Arguments Throw {A}.

Definition bind {A B} (r : result A) (f : A -> result B) : result B :=
  match r with Ok a => f a | Throw => Throw end.

Notation "x <- c ;; k" := (bind c (fun x => k))
  (at level 61, c at next level, right associativity).

(** [l.map(f)] when [f] may throw. *)
Fixpoint mapM {A B} (f : A -> result B) (l : list A) : result (list B) :=
  match l with
  | [] => Ok []
  | x :: rest =>
      y <- f x ;;
      ys <- mapM f rest ;;
      Ok (y :: ys)
  end.

(** Nesting depth, the measure of the recursive schema passes. *)
Fixpoint depth (j : json) : nat :=
  match j with
  | JArr l => S (fold_right (fun x m => Nat.max (depth x) m) 0 l)
  | JObj fs => S (fold_right (fun kv m => Nat.max (depth (snd kv)) m) 0 fs)
  | _ => 0
  end.

End JS.
Export JS.

(* ================================================================== *)
(** * Model mapping                                                    *)
(* ================================================================== *)

Module Model.

Definition MODEL_MAP : list (string * string) :=
  [ ("claude-sonnet-4-5-20250514", "claude-sonnet-4-5");
    ("claude-sonnet-4-5", "claude-sonnet-4-5");
    ("claude-opus-4-5-20250414", "claude-opus-4-6-thinking");
    ("claude-opus-4-5", "claude-opus-4-6-thinking");
    ("claude-sonnet-4-20250514", "claude-sonnet-4-5");
    ("claude-sonnet-4-5-thinking", "claude-sonnet-4-5-thinking");
    ("claude-opus-4-5-thinking", "claude-opus-4-6-thinking");
    ("claude-opus-4-6-thinking", "claude-opus-4-6-thinking");
    ("claude-opus-4-6", "claude-opus-4-6-thinking");
    ("claude-haiku-3-5-20241022", "claude-sonnet-4-5");
    ("claude-3-5-haiku-20241022", "claude-sonnet-4-5") ].

Fixpoint own (k : string) (table : list (string * string)) : option string :=
  match table with
  | [] => None
  | (k', v) :: rest => if k' =? k then Some v else own k rest
  end.

(** [MODEL_MAP] is an object literal, so [MODEL_MAP[k]] also answers for
    the members it inherits from [Object.prototype]; each of them is a
    function or an object, hence truthy. *)
Definition OBJECT_PROTOTYPE : list string :=
  [ "constructor"; "toString"; "toLocaleString"; "valueOf";
    "hasOwnProperty"; "isPrototypeOf"; "propertyIsEnumerable";
    "__proto__"; "__defineGetter__"; "__defineSetter__";
    "__lookupGetter__"; "__lookupSetter__" ].

Definition inherited (k : string) : bool :=
  existsb (String.eqb k) OBJECT_PROTOTYPE.

(** What [mapModel] returns: a model id, or the inherited member found
    under the client's name. *)
Inductive mapped : Type :=
| Target (id : string)
| Member (name : string).

Definition mapModel (anthropicModel : string) : mapped :=
  match own anthropicModel MODEL_MAP with
  | Some id => (* every id of the table is a non-empty string *) Target id
  | None =>
      if inherited anthropicModel then Member anthropicModel
      else if includes "opus" anthropicModel then Target "claude-opus-4-6-thinking"
      else if includes "sonnet" anthropicModel then Target "claude-sonnet-4-5-thinking"
      else Target "claude-opus-4-6-thinking"
  end.

Definition isThinkingModel (modelId : string) : bool :=
  includes "thinking" modelId.

(** [isThinkingModel(mapModel(m))]: an inherited member has no
    [includes], the call throws. *)
Definition thinkingTarget (m : mapped) : result bool :=
  match m with
  | Target id => Ok (isThinkingModel id)
  | Member _ => Throw
  end.

End Model.

(* ================================================================== *)
(** * Request translator                                               *)
(* ================================================================== *)

Module Request.
Import Model.

Inductive role : Type := user | model.

Definition role_eqb (a b : role) : bool :=
  match a, b with
  | user, user | model, model => true
  | _, _ => false
  end.

(** The wire name of a role. *)
Definition role_name (r : role) : string :=
  match r with user => "user" | model => "model" end.

Inductive part : Type :=
| TextPart (text : string)
| InlineData (mimeType data : json)
| FunctionCall (name : option json) (args : json) (id : option json)
| FunctionResponse (name : json) (id : option json) (output : string).

Record turn : Type := mkTurn { turn_role : role; parts : list part }.

Section Messages.

(** [JSON.stringify], and [String] on values that are not strings. *)
Variable JSON_stringify : json -> string.
Variable js_String : json -> string.

(** [texts.join(sep)] where it returns: [null] and [undefined] elements
    print as nothing, the others as [String] prints them. *)
Definition join (sep : string) (texts : list (option json)) : string :=
  concat sep
    (map (fun t => match t with
                   | None | Some JNull => EmptyString
                   | Some j => to_string js_String j
                   end) texts).

Definition nonempty_or (s d : string) : string :=
  if s =? EmptyString then d else s.

(** [extractText(content)] where it returns; [extractReturns] below
    says where. *)
Definition extractText (content : option json) : string :=
  match content with
  | None | Some JNull => "(no output)"
  | Some (JStr s) => nonempty_or s "(empty)"
  | Some (JArr blocks) =>
      let texts :=
        map (get "text") (filter (fun b => is_str "text" (get "type" b)) blocks) in
      nonempty_or (join newline texts) "(empty)"
  | Some other => JSON_stringify other
  end.

(** One [functionResponse] part per tool result. *)
Definition toolPart (tr : json) : part :=
  FunctionResponse (or_default (get "tool_use_id" tr) (JStr "unknown"))
                   (get "tool_use_id" tr)
                   (extractText (get "content" tr)).

(** The text of a block that passed [b?.type === "text" && b.text]. *)
Definition textOf (b : json) : part :=
  TextPart (match get "text" b with
            | Some t => to_string js_String t
            | None => "undefined"
            end).

(** The body of [switch (block.type)]: the parts one block pushes. *)
Definition convertBlock (block : json) : list part :=
  if negb (truthy block) then []
  else
    let ty := get "type" block in
    if is_str "text" ty then
      match get "text" block with
      | None | Some JNull => []
      | Some t =>
          if is_str EmptyString (Some t) then []
          else [TextPart (to_string js_String t)]
      end
    else if is_str "thinking" ty then []
    else if is_str "image" ty then
      [InlineData (or_default (get_opt "media_type" (get "source" block)) (JStr "image/png"))
                  (or_default (get_opt "data" (get "source" block)) (JStr EmptyString))]
    else if is_str "tool_use" ty then
      [FunctionCall (get "name" block) (or_default (get "input" block) (JObj []))
                    (get "id" block)]
    else
      match js_or (get "text" block) (get "content" block) with
      | Some txt =>
          if truthy txt
          then [TextPart (match txt with JStr s => s | _ => JSON_stringify txt end)]
          else []
      | None => []
      end.

(** [parts.filter(...)]: a text part is kept when its text is not empty. *)
Definition validPart (p : part) : bool :=
  match p with
  | TextPart t => negb (t =? EmptyString)
  | _ => true
  end.

Definition regularParts (content : option json) : list part :=
  let parts :=
    match content with
    | Some (JStr s) => if truthy (JStr s) then [TextPart s] else []
    | Some (JArr blocks) => flat_map convertBlock blocks
    | _ => []
    end in
  let sanitizedParts := filter validPart parts in
  match sanitizedParts with
  | [] => [TextPart "..."]
  | _ => sanitizedParts
  end.

(** One iteration of the loop over [anthropicReq.messages]: the entries it
    pushes on [rawContents]. *)
Definition convertMessage (msg : json) : list turn :=
  if negb (truthy msg) then []
  else
    let role := if is_str "assistant" (get "role" msg) then model else user in
    let regular := [mkTurn role (regularParts (get "content" msg))] in
    match get "content" msg with
    | Some (JArr blocks) =>
        let toolResults :=
          filter (fun b => is_str "tool_result" (get "type" b)) blocks in
        match toolResults with
        | [] => regular
        | _ =>
            let textBlocks :=
              filter (fun b => is_str "text" (get "type" b) && truthy_opt (get "text" b))
                     blocks in
            mkTurn user (map toolPart toolResults) ::
            match textBlocks with
            | [] => []
            | _ => [mkTurn user (map textOf textBlocks)]
            end
        end
    | _ => regular
    end.

Definition rawContents (messages : list json) : list turn :=
  flat_map convertMessage messages.

(** [contents[contents.length - 1]]. *)
Definition lastTurn (contents : list turn) : option turn :=
  match rev contents with [] => None | t :: _ => Some t end.

(** One iteration of the role-alternation loop. *)
Definition mergeStep (contents : list turn) (entry : turn) : list turn :=
  match lastTurn contents with
  | Some prev =>
      if role_eqb (turn_role prev) (turn_role entry)
      then removelast contents ++
           [mkTurn (turn_role prev) (parts prev ++ parts entry)]
      else contents ++ [entry]
  | None => contents ++ [entry]
  end.

Definition mergeRoles (raw : list turn) : list turn :=
  fold_left mergeStep raw [].

(** The [contents] of the provider request. *)
Definition contents (messages : list json) : list turn :=
  mergeRoles (rawContents messages).

End Messages.

(** ** Where the loop over the messages returns

    The loop prints with [String(b.text)] and [texts.join], which throw
    on a text that is not [printable]; nothing else in it throws on a
    parsed value. *)

(** [texts.join] returns. *)
Definition joins (texts : list (option json)) : bool :=
  forallb (fun t => match t with Some j => printable j | None => true end) texts.

(** [extractText(content)] returns. *)
Definition extractReturns (content : option json) : bool :=
  match content with
  | Some (JArr blocks) =>
      joins (map (get "text") (filter (fun b => is_str "text" (get "type" b)) blocks))
  | _ => true
  end.

(** [String(b.text)] returns. *)
Definition textPrints (b : json) : bool :=
  match get "text" b with Some t => printable t | None => true end.

(** The body of [switch (block.type)] returns: only the case ["text"]
    prints a value of the client. *)
Definition blockReturns (block : json) : bool :=
  if negb (truthy block) then true
  else if is_str "text" (get "type" block) then textPrints block
  else true.

(** One iteration of the loop over the messages returns. *)
Definition messageReturns (msg : json) : bool :=
  if negb (truthy msg) then true
  else
    match get "content" msg with
    | Some (JArr blocks) =>
        let toolResults :=
          filter (fun b => is_str "tool_result" (get "type" b)) blocks in
        match toolResults with
        | [] => forallb blockReturns blocks
        | _ =>
            forallb (fun tr => extractReturns (get "content" tr)) toolResults &&
            forallb textPrints
              (filter (fun b => is_str "text" (get "type" b) && truthy_opt (get "text" b))
                      blocks)
        end
    | _ => true
    end.

Section Translated.

Variable JSON_stringify : json -> string.
Variable js_String : json -> string.

(** The loop over the messages and the role merge: the [contents], or
    the [TypeError] of a text that cannot be printed. *)
Definition translateMessages (messages : list json) : result (list turn) :=
  if forallb messageReturns messages
  then Ok (contents JSON_stringify js_String messages)
  else Throw.

End Translated.

(** ** Generation config *)

Record thinkingParam : Type := { budget_tokens : option Z }.

(** The client request, for the bodies in which [model] is a string,
    [messages] is an array (an absent one is the empty array), [tools] is
    an array when present, and [max_tokens] and [budget_tokens] are
    integers when present; what the translator does on the other parsed
    bodies (a missing [model], [messages] that cannot be iterated) is
    not described. *)
Record anthropicReq : Type := {
  req_model : string;
  messages : list json;
  system : option json;
  max_tokens : option Z;
  thinking : option thinkingParam;
  temperature : option json;
  tools : option (list json)
}.

Record thinkingConfig : Type := {
  includeThoughts : bool;
  thinkingBudget : Z
}.

Record generationConfig : Type := {
  maxOutputTokens : Z;
  thinkingCfg : option thinkingConfig;
  cfg_temperature : option json
}.

(** [n || d] on a number that may be missing. *)
Definition num_or (n : option Z) (d : Z) : Z :=
  match n with
  | Some v => if (v =? 0)%Z then d else v
  | None => d
  end.

Definition rawMaxTokens (req : anthropicReq) : Z :=
  num_or (max_tokens req) 16384.

(** [anthropicReq.thinking?.budget_tokens]. *)
Definition clientBudget (req : anthropicReq) : option Z :=
  match thinking req with
  | Some t => budget_tokens t
  | None => None
  end.

(** [Math.floor(rawMaxTokens * 0.25)] clamped: a quarter of an integer is
    exact, and flooring it is division by four rounding down. *)
Definition dynamicBudget (req : anthropicReq) : Z :=
  Z.min 10240 (Z.max 1024 (rawMaxTokens req / 4)).

Definition buildGenerationConfig (googleModel : string) (req : anthropicReq)
  : generationConfig :=
  if isThinkingModel googleModel then
    let budget := num_or (clientBudget req) (dynamicBudget req) in
    {| maxOutputTokens := Z.max (rawMaxTokens req) (js_add budget 1024);
       thinkingCfg := Some {| includeThoughts := true; thinkingBudget := budget |};
       cfg_temperature := temperature req |}
  else
    {| maxOutputTokens := rawMaxTokens req;
       thinkingCfg := None;
       cfg_temperature := temperature req |}.

End Request.

(* ================================================================== *)
(** * Schema normaliser                                                *)
(* ================================================================== *)

Module Schema.

Definition fields : Type := list (string * json).

(** [Object.fromEntries]. *)
Definition fromEntries (es : fields) : fields :=
  fold_left (fun obj kv => assign (fst kv) (snd kv) obj) es [].

Definition is_null (v : json) : bool :=
  match v with JNull => true | _ => false end.

(** The loop of [stripDollarSchema] over the entries of an object, with
    [strip] for its recursive calls.  The assignment [clean[key] = ...]
    binds no property when [key] is [__proto__]: it sets the prototype of
    [clean] when the value is an object or [null], and does nothing
    otherwise.  The own properties of [clean], which are all that
    [Object.entries], the spread and the printed schema show, are then as
    without that entry.  The reads by name of the second pass
    ([working.anyOf], [working.oneOf], [working.description], [v.enum],
    [v.properties]) would also see what [clean] inherits from such a
    prototype; this is not followed: what the later passes return is
    described for the schemas that hold no object under a key
    [__proto__], and is built from own properties for the others too. *)
Fixpoint stripEntries (strip : json -> json) (es clean : fields) : fields :=
  match es with
  | [] => clean
  | (key, value) :: rest =>
      if prefix "$" key then stripEntries strip rest clean
      else if key =? "__proto__" then stripEntries strip rest clean
      else if typeof_object value && negb (is_null value)
           then stripEntries strip rest (assign key (strip value) clean)
           else stripEntries strip rest (assign key value clean)
  end.

Fixpoint stripDollarSchema (schema : json) : json :=
  match schema with
  | JArr l => JArr (map stripDollarSchema l)
  | JObj fs => JObj (stripEntries stripDollarSchema fs [])
  | _ => schema
  end.

Definition ALLOWED_SCHEMA_FIELDS : list string :=
  [ "type"; "description"; "properties"; "required"; "items"; "enum"; "nullable" ].

Definition allowed (key : string) : bool :=
  existsb (String.eqb key) ALLOWED_SCHEMA_FIELDS.

(** [v && typeof v === "object"]: what counts as a candidate of a union. *)
Definition isVariant (v : json) : bool := truthy v && typeof_object v.

(** [v.enum || v.properties]: the "most specific" test. *)
Definition isSpecific (v : json) : bool :=
  truthy_opt (js_or (get "enum" v) (get "properties" v)).

(** [{ ...variant, ...(working.description ? { description } : {}) }]. *)
Definition withDescription (variant : json) (working : fields) : fields :=
  match lookup "description" working with
  | Some d => if truthy d then assign "description" d (entries variant)
              else entries variant
  | None => entries variant
  end.

(** [working.anyOf || working.oneOf]. *)
Definition unionOf (working : fields) : option json :=
  js_or (lookup "anyOf" working) (lookup "oneOf" working).

(** The union pass of [sanitizeSchema]; a truthy union that is not an
    array has no [filter] and the call throws. *)
Definition flattenUnion (schema : fields) : result fields :=
  if truthy_opt (unionOf schema) then
    match unionOf schema with
    | Some (JArr candidates) =>
        let variants := filter isVariant candidates in
        match variants with
        | [] => Ok schema
        | [v] => Ok (withDescription v schema)
        | v :: _ =>
            match find isSpecific variants with
            | Some specific => Ok (withDescription specific schema)
            | None => Ok (withDescription v schema)
            end
        end
    | _ => Throw
    end
  else Ok schema.

Section OpenRecursion.

(** The recursive calls of [sanitizeSchema]. *)
Variable rec : json -> result json.

(** One iteration of the allow-list loop; [Object.entries(null)] throws. *)
Definition cleanEntry (clean : result fields) (kv : string * json) : result fields :=
  clean <- clean ;;
  let (key, value) := kv in
  if negb (allowed key) then Ok clean
  else if (key =? "properties") && typeof_object value then
    if is_null value then Throw
    else
      es <- mapM (fun e => v <- rec (snd e) ;; Ok (fst e, v)) (entries value) ;;
      Ok (assign "properties" (JObj (fromEntries es)) clean)
  else if key =? "items" then
    v <- rec value ;;
    Ok (assign "items" v clean)
  else Ok (assign key value clean).

(** The allow-list pass over the entries of [working]. *)
Definition allowListed (working : fields) : result json :=
  clean <- fold_left cleanEntry working (Ok []) ;;
  Ok (JObj clean).

Definition sanitizeBody (schema : json) : result json :=
  if negb (truthy schema) || negb (typeof_object schema) then Ok schema
  else
    match schema with
    | JArr l => l' <- mapM rec l ;; Ok (JArr l')
    | JObj fs => working <- flattenUnion fs ;; allowListed working
    | _ => Ok schema
    end.

End OpenRecursion.

(** [sanitizeSchema] calls itself on values nested strictly deeper in its
    argument, so [depth schema + 1] unfoldings reach every call; what the
    function below answers with no unfolding left is never looked at. *)
Fixpoint sanitizeUpTo (n : nat) (schema : json) : result json :=
  match n with
  | O => Ok schema
  | S n' => sanitizeBody (sanitizeUpTo n') schema
  end.

Definition sanitizeSchema (schema : json) : result json :=
  sanitizeUpTo (S (depth schema)) schema.

(** The type [ensureSchemaType] gives a node that has none. *)
Definition inferType (s : fields) : string :=
  if truthy_opt (lookup "properties" s) then "object"
  else if truthy_opt (lookup "items" s) then "array"
  else if truthy_opt (lookup "enum" s) then "string"
  else "object".

Section OpenRecursionEnsure.

(** The recursive calls of [ensureSchemaType]. *)
Variable rec : json -> json.

(** [if (!s.type) s.type = ...]. *)
Definition withType (s : fields) : fields :=
  if negb (truthy_opt (lookup "type" s))
  then assign "type" (JStr (inferType s)) s
  else s.

(** [if (s.properties && typeof s.properties === "object") s.properties = ...]. *)
Definition withProperties (s : fields) : fields :=
  match lookup "properties" s with
  | Some p =>
      if truthy p && typeof_object p
      then assign "properties"
             (JObj (fromEntries (map (fun e => (fst e, rec (snd e))) (entries p)))) s
      else s
  | None => s
  end.

(** [if (s.items) s.items = ensureSchemaType(s.items)]. *)
Definition withItems (s : fields) : fields :=
  match lookup "items" s with
  | Some i => if truthy i then assign "items" (rec i) s else s
  | None => s
  end.

Definition ensureBody (schema : json) : json :=
  if negb (truthy schema) || negb (typeof_object schema) then schema
  else
    match schema with
    | JArr l => JArr (map rec l)
    | JObj fs => JObj (withItems (withProperties (withType fs)))
    | _ => schema
    end.

End OpenRecursionEnsure.

Fixpoint ensureUpTo (n : nat) (schema : json) : json :=
  match n with
  | O => schema
  | S n' => ensureBody (ensureUpTo n') schema
  end.

Definition ensureSchemaType (schema : json) : json :=
  ensureUpTo (S (depth schema)) schema.

(** [ensureSchemaType(sanitizeSchema(stripDollarSchema(tool.input_schema || {})))]. *)
Definition normalize (input_schema : option json) : result json :=
  s <- sanitizeSchema (stripDollarSchema (or_default input_schema (JObj []))) ;;
  Ok (ensureSchemaType s).

End Schema.


(* ================================================================== *)
(** * The provider request                                             *)
(* ================================================================== *)

Module Translator.
Import Model Request Schema.

(** The field a tool schema is attached under. *)
Inductive schemaField : Type := parameters | parametersJsonSchema.

Record functionDeclaration : Type := {
  fd_name : option json;
  fd_description : json;
  fd_field : schemaField;
  fd_schema : json
}.

Record googleRequest : Type := {
  project : option json;
  body_model : string;
  body_contents : list turn;
  systemInstruction : list (option json);
  body_generationConfig : generationConfig;
  functionDeclarations : option (list functionDeclaration);
  requestId : string
}.

(** The text of each part of the system turn; reading [block.type] off a
    [null] block throws. *)
Definition systemParts (system : option json) : result (list (option json)) :=
  match system with
  | Some (JStr s) => if truthy (JStr s) then Ok [Some (JStr s)] else Ok []
  | Some (JArr blocks) =>
      parts <- mapM (fun block =>
                       match block with
                       | JNull => Throw
                       | _ => Ok (if is_str "text" (get "type" block)
                                  then [get "text" block] else [])
                       end) blocks ;;
      Ok (List.concat parts)
  | _ => Ok []
  end.

(** One entry of [functionDeclarations]; reading [tool.input_schema] off a
    [null] tool throws. *)
Definition declareTool (googleModel : string) (tool : json)
  : result functionDeclaration :=
  match tool with
  | JNull => Throw
  | _ =>
      cleaned <- normalize (get "input_schema" tool) ;;
      Ok {| fd_name := get "name" tool;
            fd_description := or_default (get "description" tool) (JStr EmptyString);
            fd_field := if prefix "claude-" googleModel
                        then parameters else parametersJsonSchema;
            fd_schema := cleaned |}
  end.

Section Convert.

Variable JSON_stringify : json -> string.
Variable js_String : json -> string.
(** [creds.project_id] and the random [requestId]. *)
Variable project_id : option json.
Variable request_id : string.

Definition convertAnthropicToGoogle (anthropicReq : anthropicReq) : result googleRequest :=
  let googleModel := mapModel (req_model anthropicReq) in
  contents <- translateMessages JSON_stringify js_String (messages anthropicReq) ;;
  systemParts <- systemParts (system anthropicReq) ;;
  match googleModel with
  | Member _ => Throw
  | Target googleModel =>
      let generationConfig := buildGenerationConfig googleModel anthropicReq in
      declarations <- match tools anthropicReq with
                      | Some (tool :: more) =>
                          ds <- mapM (declareTool googleModel) (tool :: more) ;;
                          Ok (Some ds)
                      | _ => Ok None
                      end ;;
      Ok {| project := project_id;
            body_model := googleModel;
            body_contents := contents;
            systemInstruction := systemParts;
            body_generationConfig := generationConfig;
            functionDeclarations := declarations;
            requestId := request_id |}
  end.

End Convert.
End Translator.

(* ================================================================== *)
(** * Backend envelopes                                                *)
(* ================================================================== *)

Module Backend.

(** [s.split(sep)] for a one-character separator. *)
Fixpoint split (sep : ascii) (s : string) : list string :=
  match s with
  | EmptyString => [EmptyString]
  | String c rest =>
      if Ascii.eqb c sep then EmptyString :: split sep rest
      else match split sep rest with
           | seg :: segs => String c seg :: segs
           | [] => [String c EmptyString]
           end
  end.

Definition lines_of (s : string) : list string := split (ascii_of_nat 10) s.

(** [s.slice(5)]. *)
Definition slice5 (s : string) : string := substring 5 (String.length s - 5) s.

Section Decode.

(** [String.prototype.trim], and [JSON.parse] with [None] for a
    [SyntaxError]. *)
Variable trim : string -> string.
Variable JSON_parse : string -> option json.

(** The payload of one line, when it is a data line that parses. *)
Definition decodeLine (line : string) : option json :=
  if negb (prefix "data:" line) then None
  else
    let jsonStr := trim (slice5 line) in
    if jsonStr =? EmptyString then None else JSON_parse jsonStr.

End Decode.

(** [v?.[0]]. *)
Definition first (v : option json) : option json :=
  match v with
  | Some (JArr (x :: _)) => Some x
  | Some (JStr (String c _)) => Some (JStr (String c EmptyString))
  | Some (JObj fs) => lookup "0" fs
  | _ => None
  end.

(** [resp.candidates?.[0]?.content?.parts], the two tests of the source
    folded in one read. *)
Definition partsOf (resp : json) : option json :=
  get_opt "parts" (get_opt "content" (first (get "candidates" resp))).

(** What [for (const part of v)] visits; a truthy value that is neither an
    array nor a string is not iterable. *)
Definition iterate (v : json) : result (list json) :=
  match v with
  | JArr l => Ok l
  | JStr s => Ok (map (fun c => JStr (String c EmptyString)) (list_ascii_of_string s))
  | _ => Throw
  end.

Section Arithmetic.

Variable js_String : json -> string.

Definition to_number (v : json) : option Z :=
  match v with
  | JNum n => Some n
  | JBool b => Some (if b then 1 else 0)%Z
  | JNull => Some 0%Z
  | _ => None
  end.

(** What [a + b] returns: numbers add, anything else concatenates. *)
Definition sum (a b : json) : json :=
  match to_number a, to_number b with
  | Some x, Some y => JNum (js_add x y)
  | _, _ => JStr (to_string js_String a ++ to_string js_String b)
  end.

(** [a + b]: both operands are turned into primitives first, which throws
    on one that is not [printable]. *)
Definition js_plus (a b : json) : result json :=
  if printable a && printable b then Ok (sum a b) else Throw.

(** The two counters read off a truthy [usageMetadata]. *)
Definition promptTokens (um : json) : json :=
  or_default (get "promptTokenCount" um) (JNum 0).

Definition producedTokens (um : json) : result json :=
  js_plus (or_default (get "candidatesTokenCount" um) (JNum 0))
          (or_default (get "thoughtsTokenCount" um) (JNum 0)).

End Arithmetic.

Inductive stopReason : Type := end_turn | tool_use.

End Backend.

(* ================================================================== *)
(** * Stream translator                                                *)
(* ================================================================== *)

Module Stream.
Import Backend.

Inductive block : Type :=
| TextBlock
| ToolUseBlock (id : string) (name : option json).

Inductive delta : Type :=
| text_delta (text : json)
| input_json_delta (partial_json : string).

Inductive event : Type :=
| message_start (id : string) (model : option json)
| content_block_start (index : nat) (content_block : block)
| content_block_delta (index : nat) (d : delta)
| content_block_stop (index : nat)
| message_delta (stop_reason : stopReason) (output_tokens : json)
| message_stop.

(** The locals of [streamGoogleToAnthropic], the events written on [res]
    so far and the number of tool ids drawn. *)
Record state : Type := mkState {
  buffer : string;
  contentIndex : nat;
  started : bool;
  inputTokens : json;
  outputTokens : json;
  written : list event;
  drawn : nat
}.

Definition write (e : event) (st : state) : state :=
  mkState (buffer st) (contentIndex st) (started st) (inputTokens st)
          (outputTokens st) (written st ++ [e]) (drawn st).

Definition setBlock (index : nat) (open : bool) (st : state) : state :=
  mkState (buffer st) index open (inputTokens st) (outputTokens st)
          (written st) (drawn st).

Definition setUsage (i o : json) (st : state) : state :=
  mkState (buffer st) (contentIndex st) (started st) i o (written st) (drawn st).

Definition setBuffer (b : string) (st : state) : state :=
  mkState b (contentIndex st) (started st) (inputTokens st) (outputTokens st)
          (written st) (drawn st).

Definition draw (st : state) : state :=
  mkState (buffer st) (contentIndex st) (started st) (inputTokens st)
          (outputTokens st) (written st) (S (drawn st)).

(** How a piece of the loop ends: normally, or by a [TypeError] that the
    [catch] around the read loop receives; the state reached is kept in
    both cases. *)
Inductive flow : Type :=
| Next (st : state)
| Raised (st : state).

Definition reached (f : flow) : state :=
  match f with Next st | Raised st => st end.

Fixpoint forEach {A} (body : state -> A -> flow) (l : list A) (st : state) : flow :=
  match l with
  | [] => Next st
  | x :: rest =>
      match body st x with
      | Next st' => forEach body rest st'
      | Raised st' => Raised st'
      end
  end.

Section Translate.

Variable trim : string -> string.
Variable JSON_parse : string -> option json.
Variable JSON_stringify : json -> string.
Variable js_String : json -> string.
(** The id [toolu_<clock>_<random>] of the n-th tool block. *)
Variable toolId : nat -> string.
(** The id [msg_<clock>] of the message. *)
Variable msgId : string.

(** The visible-text branch: open a text block if none is open, then one
    delta. *)
Definition textStep (text : json) (st : state) : state :=
  let st := if started st then st
            else setBlock (contentIndex st) true
                   (write (content_block_start (contentIndex st) TextBlock) st) in
  write (content_block_delta (contentIndex st) (text_delta text)) st.

(** The function-call branch. *)
Definition toolStep (functionCall : json) (st : state) : state :=
  let st := if started st
            then setBlock (S (contentIndex st)) false
                   (write (content_block_stop (contentIndex st)) st)
            else st in
  let id := toolId (drawn st) in
  let st := draw st in
  let st := write (content_block_start (contentIndex st)
                     (ToolUseBlock id (get "name" functionCall))) st in
  let st := write (content_block_delta (contentIndex st)
                     (input_json_delta
                        (JSON_stringify (or_default (get "args" functionCall) (JObj []))))) st in
  let st := write (content_block_stop (contentIndex st)) st in
  setBlock (S (contentIndex st)) (started st) st.

(** The body of [for (const part of candidate.content.parts)]. *)
Definition processPart (st : state) (part : json) : flow :=
  match part with
  | JNull => Raised st
  | _ =>
      if truthy_opt (get "thoughtSignature" part) && negb (truthy_opt (get "text" part))
      then Next st
      else
        let afterText :=
          match get "text" part with
          | Some text =>
              if match get "thought" part with Some (JBool true) => true | _ => false end
              then None
              else Some (textStep text st)
          | None => Some st
          end in
        match afterText with
        | None => Next st
        | Some st1 =>
            match get "functionCall" part with
            | Some fc => Next (if truthy fc then toolStep fc st1 else st1)
            | None => Next st1
            end
        end
  end.

(** [if (candidate?.content?.parts) { for (const part of ...) ... }]. *)
Definition processParts (st : state) (resp : json) : flow :=
  match partsOf resp with
  | Some ps =>
      if truthy ps then
        match iterate ps with
        | Ok l => forEach processPart l st
        | Throw => Raised st
        end
      else Next st
  | None => Next st
  end.

(** [if (resp.usageMetadata) { ... }]: the counters are overwritten, the
    input counter first; a sum that throws leaves the output counter as
    it was. *)
Definition recordUsage (resp : json) (st : state) : flow :=
  match get "usageMetadata" resp with
  | Some um =>
      if truthy um then
        match producedTokens js_String um with
        | Ok produced => Next (setUsage (promptTokens um) produced st)
        | Throw => Raised (setUsage (promptTokens um) (outputTokens st) st)
        end
      else Next st
  | None => Next st
  end.

(** What follows a successful [JSON.parse] in the body of
    [for (const line of lines)]; reading [chunk.response] off [null]
    throws. *)
Definition processChunk (st : state) (chunk : json) : flow :=
  match chunk with
  | JNull => Raised st
  | _ =>
      match get "response" chunk with
      | Some resp =>
          if negb (truthy resp) then Next st
          else
            match processParts st resp with
            | Next st' => recordUsage resp st'
            | Raised st' => Raised st'
            end
      | None => Next st
      end
  end.

Definition processLine (st : state) (line : string) : flow :=
  match decodeLine trim JSON_parse line with
  | Some chunk => processChunk st chunk
  | None => Next st
  end.

(** One turn of [while (true)] after a read that returned [value]. *)
Definition processRead (st : state) (value : string) : flow :=
  let lines := lines_of (buffer st ++ value) in
  let st := setBuffer (last lines EmptyString) st in
  forEach processLine (removelast lines) st.

(** The closing sequence after the loop. *)
Definition hasToolUse (st : state) : bool :=
  Nat.ltb (if started st then 1 else 0) (contentIndex st).

Definition close (st : state) : state :=
  let st := if started st then write (content_block_stop (contentIndex st)) st else st in
  let st := write (message_delta (if hasToolUse st then tool_use else end_turn)
                                 (outputTokens st)) st in
  write message_stop st.

Definition initial (anthropicModel : option json) : state :=
  write (message_start msgId anthropicModel)
        (mkState EmptyString 0 false (JNum 0) (JNum 0) [] 0).

(** The events written for a response body that was read as [reads], the
    decoded value of each read before the stream ended or a read failed
    (both leave the loop the same way). *)
Definition streamGoogleToAnthropic (reads : list string) (anthropicModel : option json)
  : list event :=
  written (close (reached (forEach processRead reads (initial anthropicModel)))).

(** The same for chunks that are already parsed. *)
Definition translateChunks (chunks : list json) (anthropicModel : option json)
  : list event :=
  written (close (reached (forEach processChunk chunks (initial anthropicModel)))).

End Translate.
End Stream.

(* ================================================================== *)
(** * Batch translator                                                 *)
(* ================================================================== *)

Module Batch.
Import Backend.

Inductive contentBlock : Type :=
| Text (text : json)
| ToolUse (id : string) (name : option json) (input : json).

Definition isText (b : contentBlock) : bool :=
  match b with Text _ => true | ToolUse _ _ _ => false end.

Definition isToolUse (b : contentBlock) : bool :=
  match b with ToolUse _ _ _ => true | Text _ => false end.

Record usage : Type := { input_tokens : json; output_tokens : json }.

Record message : Type := {
  msg_id : string;
  msg_model : option json;
  content : list contentBlock;
  stop_reason : stopReason;
  msg_usage : usage
}.

(** The locals of the loop over the events. *)
Record acc : Type := mkAcc {
  blocks : list contentBlock;
  inputTokens : json;
  outputTokens : json;
  stopReason_ : stopReason
}.

Section Translate.

Variable trim : string -> string.
Variable JSON_parse : string -> option json.
Variable js_String : json -> string.
Variable toolId : nat -> string.
Variable msgId : string.

(** [existing.text += fragment] on the first text block. *)
Fixpoint appendText (fragment : json) (content : list contentBlock)
  : result (list contentBlock) :=
  match content with
  | [] => Ok []
  | Text t :: rest => t' <- js_plus js_String t fragment ;; Ok (Text t' :: rest)
  | b :: rest => rest' <- appendText fragment rest ;; Ok (b :: rest')
  end.

(** The body of [for (const part of candidate.content.parts)]; reading
    [part.text] off [null] throws. *)
Definition collectPart (content : result (list contentBlock)) (part : json)
  : result (list contentBlock) :=
  content <- content ;;
  match part with
  | JNull => Throw
  | _ =>
      content <-
        match get "text" part with
        | Some text =>
            if negb (truthy_opt (get "thoughtSignature" part)) then
              if existsb isText content then appendText text content
              else Ok (content ++ [Text text])
            else Ok content
        | None => Ok content
        end ;;
      match get "functionCall" part with
      | Some fc =>
          if truthy fc then
            Ok (content ++
                [ToolUse (toolId (List.length (filter isToolUse content)))
                         (get "name" fc)
                         (or_default (get "args" fc) (JObj []))])
          else Ok content
      | None => Ok content
      end
  end.

(** [if (candidate?.content?.parts) { ... }] in the body of the loop over
    the events. *)
Definition collectParts (a : acc) (resp : json) : result acc :=
  match partsOf resp with
  | Some ps =>
      if truthy ps then
        l <- iterate ps ;;
        content <- fold_left collectPart l (Ok (blocks a)) ;;
        (* [finishReason === "STOP"] sets [end_turn] again *)
        Ok (mkAcc content (inputTokens a) (outputTokens a)
                  (if is_str "STOP"
                        (get_opt "finishReason" (first (get "candidates" resp)))
                   then end_turn else stopReason_ a))
      else Ok a
  | None => Ok a
  end.

(** [if (resp.usageMetadata) { ... }]. *)
Definition recordUsage (resp : json) (a : acc) : result acc :=
  match get "usageMetadata" resp with
  | Some um =>
      if truthy um then
        produced <- producedTokens js_String um ;;
        Ok (mkAcc (blocks a) (promptTokens um) produced (stopReason_ a))
      else Ok a
  | None => Ok a
  end.

(** The body of [for (const event of events)]; reading [event.response]
    off [null] throws. *)
Definition collectEvent (a : result acc) (event : json) : result acc :=
  a <- a ;;
  match event with
  | JNull => Throw
  | _ =>
      match get "response" event with
      | Some resp =>
          if negb (truthy resp) then Ok a
          else a <- collectParts a resp ;; recordUsage resp a
      | None => Ok a
      end
  end.

(** The events of an SSE text: its data lines that parse. *)
Fixpoint parseEvents (lines : list string) : list json :=
  match lines with
  | [] => []
  | line :: rest =>
      match decodeLine trim JSON_parse line with
      | Some e => e :: parseEvents rest
      | None => parseEvents rest
      end
  end.

(** The message built from parsed events. *)
Definition convertEvents (events : list json) (anthropicModel : option json)
  : result message :=
  a <- fold_left collectEvent events (Ok (mkAcc [] (JNum 0) (JNum 0) end_turn)) ;;
  let stopReason :=
    if existsb isToolUse (blocks a) then tool_use else stopReason_ a in
  let content :=
    match blocks a with
    | [] => [Text (JStr EmptyString)]
    | _ => blocks a
    end in
  Ok {| msg_id := msgId;
        msg_model := anthropicModel;
        content := content;
        stop_reason := stopReason;
        msg_usage := {| input_tokens := inputTokens a;
                        output_tokens := outputTokens a |} |}.

Definition convertGoogleSSEToAnthropicStream (googleSSE : string)
  (anthropicModel : option json) : result message :=
  convertEvents (parseEvents (lines_of googleSSE)) anthropicModel.

End Translate.
End Batch.

(* ================================================================== *)
(** * Endpoint racer                                                   *)
(* ================================================================== *)

Module Racer.

Definition PROD_EP : string := "https://cloudcode-pa.googleapis.com".
Definition SANDBOX_EP : string := "https://daily-cloudcode-pa.sandbox.googleapis.com".
Definition ENDPOINTS : list string := [PROD_EP; SANDBOX_EP].

(** What an endpoint answered. *)
Record response : Type := { status : Z; body : string }.

(** What [fetch] did: it resolved with a response, or rejected (no
    connection). *)
Inductive fetched : Type :=
| Answered (r : response)
| Unreachable.

(** [r.ok]. *)
Definition ok (r : response) : bool :=
  ((200 <=? status r) && (status r <=? 299))%Z.

(** What [fetchOne] throws, or the rejection of [fetch] itself, which has
    neither [status] nor [errText]. *)
Inductive reason : Type :=
| HttpFailure (status : Z) (errText : string) (ep : string)
| FetchRejected.

(** An entry of [Promise.allSettled]. *)
Inductive settled : Type :=
| fulfilled (value : response)
| rejected (why : reason).

Section Race.

(** The backend: what a request to each endpoint meets. *)
Variable backend : string -> fetched.

Definition fetchOne (ep : string) : settled :=
  match backend ep with
  | Answered r =>
      if ok r then fulfilled r
      else rejected (HttpFailure (status r) (body r) ep)
  | Unreachable => rejected FetchRejected
  end.

Definition isFulfilled (s : settled) : bool :=
  match s with fulfilled _ => true | rejected _ => false end.

(** What the handler does once every fetch has settled. *)
Inductive outcome : Type :=
| Proceed (googleResp : response)
| Reply (code : Z) (error_type : string) (message : string)
| Crashed.

Definition OVERLOADED_429 : string :=
  "Overloaded — Claude rate limited on Antigravity. Try again shortly.".
Definition OVERLOADED_503 : string :=
  "Service temporarily unavailable. Try again.".

(** [firstErr?.status]. *)
Definition statusOf (r : reason) : option Z :=
  match r with HttpFailure s _ _ => Some s | FetchRejected => None end.

(** [firstErr?.errText?.slice(0, 300) || "All endpoints failed"]. *)
Definition errMsg (r : reason) : string :=
  match r with
  | HttpFailure _ errText _ =>
      if slice0 300 errText =? EmptyString then "All endpoints failed"
      else slice0 300 errText
  | FetchRejected => "All endpoints failed"
  end.

Definition statusIs (n : Z) (r : reason) : bool :=
  match statusOf r with Some s => (s =? n)%Z | None => false end.

Definition settle (results : list settled) : outcome :=
  match find isFulfilled results with
  | Some (fulfilled value) => Proceed value
  | _ =>
      match results with
      | rejected firstErr :: _ =>
          if statusIs 429 firstErr || statusIs 503 firstErr then
            Reply 529 "overloaded_error"
                  (if statusIs 429 firstErr then OVERLOADED_429 else OVERLOADED_503)
          else
            Reply (if statusIs 400 firstErr then 400 else 500) "api_error"
                  (errMsg firstErr)
      | _ => Crashed
      end
  end.

(** [Promise.allSettled(endpoints.map(fetchOne))] and what follows. *)
Definition race (endpoints : list string) : outcome :=
  settle (map fetchOne endpoints).

End Race.
End Racer.

(* ================================================================== *)
(** * Stated properties                                                *)
(* ================================================================== *)

Module Properties.
Import Model Request Schema Backend.

(** ** Turn lists *)

(** No two neighbours of a turn list have the same role. *)
Definition adjacent_distinct (l : list turn) : Prop :=
  forall pre a b post, l = pre ++ a :: b :: post -> turn_role a <> turn_role b.

(** ** Generation config, as the specification words it

    The budget is the client's whenever the client gave one, and the
    output limit is the client's whenever the client gave one. *)
Definition stated_maxTokens (req : anthropicReq) : Z :=
  match max_tokens req with Some n => n | None => 16384%Z end.

Definition stated_budget (req : anthropicReq) : Z :=
  match clientBudget req with
  | Some b => b
  | None => Z.min 10240 (Z.max 1024 (stated_maxTokens req / 4))
  end.

Definition config_as_stated (req : anthropicReq) : Prop :=
  forall googleModel,
    mapModel (req_model req) = Target googleModel ->
    isThinkingModel googleModel = true ->
    let cfg := buildGenerationConfig googleModel req in
    thinkingCfg cfg =
      Some {| includeThoughts := true; thinkingBudget := stated_budget req |} /\
    maxOutputTokens cfg = Z.max (stated_maxTokens req) (stated_budget req + 1024).

(** ** Normalised schemas, as the specification words them

    The fields a node may carry. *)
Definition STATED_FIELDS : list string :=
  [ "type"; "description"; "properties"; "required"; "items"; "enum"; "nullable" ].

(** A value that is not empty: not [null], not the empty string, not a
    list or an object without elements; numbers and booleans count as
    not empty. *)
Definition nonempty_value (v : json) : bool :=
  match v with
  | JNull => false
  | JStr s => negb (s =? EmptyString)
  | JArr l => match l with [] => false | _ => true end
  | JObj fs => match fs with [] => false | _ => true end
  | _ => true
  end.

(** Every node carries only the listed fields and a type that is not
    empty, where the nodes are what stands as a schema: the schema
    itself, the values of an object under [properties], the value under
    [items], and the elements of a list standing there. *)
Fixpoint nodes_as_stated (j : json) : bool :=
  match j with
  | JObj fs =>
      forallb (fun kv => existsb (String.eqb (fst kv)) STATED_FIELDS) fs &&
      match lookup "type" fs with Some t => nonempty_value t | None => false end &&
      forallb (fun kv =>
                 if fst kv =? "properties" then
                   match snd kv with
                   | JObj ps => forallb (fun e => nodes_as_stated (snd e)) ps
                   | _ => true
                   end
                 else if fst kv =? "items" then nodes_as_stated (snd kv)
                 else true) fs
  | JArr l => forallb nodes_as_stated l
  | _ => false
  end.

(** The node has the field. *)
Definition has (k : string) (fs : fields) : bool :=
  match lookup k fs with Some _ => true | None => false end.

(** The type of a node without [type]. *)
Definition stated_type (fs : fields) : string :=
  if has "properties" fs then "object"
  else if has "items" fs then "array"
  else if has "enum" fs then "string"
  else "object".

Definition emitted_as_stated : Prop :=
  forall input_schema out, normalize input_schema = Ok out -> nodes_as_stated out = true.

Definition inferred_as_stated : Prop :=
  forall fs,
    has "type" fs = false ->
    get "type" (ensureSchemaType (JObj fs)) = Some (JStr (stated_type fs)).

(** ** Union flattening, as the specification words it

    The candidate with the description of the node reattached. *)
Definition replacement (v : json) (description : option json) : fields :=
  match description with
  | Some d => assign "description" d (entries v)
  | None => entries v
  end.

(** A node with a union of a single candidate is normalised as the
    candidate with the description of the node. *)
Definition union_as_stated : Prop :=
  forall fs v vs,
    lookup "anyOf" fs = Some (JArr [v]) \/ lookup "oneOf" fs = Some (JArr [v]) ->
    v = JObj vs ->
    normalize (Some (JObj fs))
    = normalize (Some (JObj (replacement v (lookup "description" fs)))).

(** What the allow-list pass stores under a key it keeps: an object or a
    list under [properties] with each value sanitised, the value under
    [items] sanitised, any other value as it came. *)
Definition stored (rec : json -> result json) (key : string) (value : json)
  : result json :=
  if (key =? "properties") && typeof_object value then
    if is_null value then Throw
    else
      es <- mapM (fun e => v <- rec (snd e) ;; Ok (fst e, v)) (entries value) ;;
      Ok (JObj (fromEntries es))
  else if key =? "items" then rec value
  else Ok value.

(** ** Normalised schemas

    A node is an object standing where a schema is expected: the schema
    itself, a value of [properties], [items], or an element of an array
    standing there.  Any other value standing there was passed through as
    it came and has no fields.  The type of a node is truthy: present,
    and none of [null], [false], [0] and the empty string. *)
Inductive Normalized : json -> Prop :=
| Normalized_leaf v :
    (forall l, v <> JArr l) -> (forall fs, v <> JObj fs) -> Normalized v
| Normalized_array l :
    (forall x, In x l -> Normalized x) -> Normalized (JArr l)
| Normalized_node fs :
    (forall k v, In (k, v) fs -> In k STATED_FIELDS) ->
    truthy_opt (lookup "type" fs) = true ->
    (forall p k v, In ("properties", p) fs -> In (k, v) (entries p) -> Normalized v) ->
    (forall v, In ("items", v) fs -> Normalized v) ->
    Normalized (JObj fs).

(** What [sanitizeSchema] returns, before types are inferred: the same
    without the [type], and each key bound once. *)
Inductive Sanitized : json -> Prop :=
| Sanitized_leaf v :
    (forall l, v <> JArr l) -> (forall fs, v <> JObj fs) -> Sanitized v
| Sanitized_array l :
    (forall x, In x l -> Sanitized x) -> Sanitized (JArr l)
| Sanitized_node fs :
    NoDup (map fst fs) ->
    (forall k v, In (k, v) fs -> allowed k = true) ->
    (forall p k v, In ("properties", p) fs -> In (k, v) (entries p) -> Sanitized v) ->
    (forall v, In ("items", v) fs -> Sanitized v) ->
    Sanitized (JObj fs).

(** A schema nothing in the normaliser throws on: it holds no [null],
    and what it holds under [anyOf] or [oneOf] is an array. *)
Definition is_array (v : json) : bool :=
  match v with JArr _ => true | _ => false end.

Definition entry_accepted (accepted : json -> bool) (kv : string * json) : bool :=
  accepted (snd kv) &&
  (if (fst kv =? "anyOf") || (fst kv =? "oneOf") then is_array (snd kv) else true).

Fixpoint accepted (j : json) : bool :=
  match j with
  | JNull => false
  | JArr l => forallb accepted l
  | JObj fs => forallb (entry_accepted accepted) fs
  | _ => true
  end.

(** ** Block structure of a client event sequence *)

Record cursor : Type := mkCursor { next : nat; open : bool }.

(** An observer of block events: a block opens at the next free index
    only while none is open, deltas and the stop carry the index of the
    open block, and a stop frees the following index. *)
Definition observe (c : cursor) (e : Stream.event) : option cursor :=
  match e with
  | Stream.content_block_start i _ =>
      if negb (open c) && (i =? next c)%nat then Some (mkCursor (next c) true) else None
  | Stream.content_block_delta i _ =>
      if open c && (i =? next c)%nat then Some c else None
  | Stream.content_block_stop i =>
      if open c && (i =? next c)%nat then Some (mkCursor (S (next c)) false) else None
  | _ => None
  end.

Fixpoint run (c : cursor) (events : list Stream.event) : option cursor :=
  match events with
  | [] => Some c
  | e :: rest =>
      match observe c e with
      | Some c' => run c' rest
      | None => None
      end
  end.

(** [n] blocks with the indices [0 .. n-1], each closed before the next
    opens, and none left open. *)
Definition well_bracketed (events : list Stream.event) (n : nat) : Prop :=
  run (mkCursor 0 false) events = Some (mkCursor n false).

(** The invariant of the stream translator: the block events written so
    far are well formed, and the cursor of their observer is the pair
    [contentIndex], [started]. *)
Definition tracks (msgId : string) (anthropicModel : option json) (st : Stream.state)
  : Prop :=
  exists body,
    Stream.written st = Stream.message_start msgId anthropicModel :: body /\
    run (mkCursor 0 false) body =
      Some (mkCursor (Stream.contentIndex st) (Stream.started st)).

(** A tool-use block was opened. *)
Definition is_tool_start (e : Stream.event) : bool :=
  match e with
  | Stream.content_block_start _ (Stream.ToolUseBlock _ _) => true
  | _ => false
  end.

Definition tool_block_produced (events : list Stream.event) : bool :=
  existsb is_tool_start events.

(** [contentIndex] has left zero exactly when a tool-use block was
    written. *)
Definition counts_tools (st : Stream.state) : Prop :=
  tool_block_produced (Stream.written st) = true <-> 0 < Stream.contentIndex st.

(** ** Racer, as the specification words it *)

Definition excerpt (m text : string) : Prop :=
  exists i n, m = substring i n text.

Definition all_failed (backend : string -> Racer.fetched) (endpoints : list string) : Prop :=
  forall e, In e endpoints -> Racer.isFulfilled (Racer.fetchOne backend e) = false.

(** The first-listed success wins. *)
Definition first_success_wins (backend : string -> Racer.fetched)
  (endpoints : list string) : Prop :=
  forall pre ep post value,
    endpoints = pre ++ ep :: post ->
    all_failed backend pre ->
    Racer.fetchOne backend ep = Racer.fulfilled value ->
    Racer.race backend endpoints = Racer.Proceed value.

(** With no success, a primary 429 or 503 is the overloaded condition. *)
Definition overloaded_classified (backend : string -> Racer.fetched)
  (endpoints : list string) : Prop :=
  forall primary rest r,
    endpoints = primary :: rest ->
    all_failed backend endpoints ->
    backend primary = Racer.Answered r ->
    (Racer.status r = 429 \/ Racer.status r = 503)%Z ->
    exists msg, Racer.race backend endpoints = Racer.Reply 529 "overloaded_error" msg.

(** With no success, any other primary status is a generic error whose
    message is a piece of the body of at most 300 characters. *)
Definition generic_carries_excerpt (backend : string -> Racer.fetched)
  (endpoints : list string) : Prop :=
  forall primary rest r,
    endpoints = primary :: rest ->
    all_failed backend endpoints ->
    backend primary = Racer.Answered r ->
    (Racer.status r <> 429 /\ Racer.status r <> 503)%Z ->
    exists code m,
      Racer.race backend endpoints = Racer.Reply code "api_error" m /\
      excerpt m (Racer.body r) /\ String.length m <= 300.

Definition racer_as_stated (backend : string -> Racer.fetched)
  (endpoints : list string) : Prop :=
  first_success_wins backend endpoints /\
  overloaded_classified backend endpoints /\
  generic_carries_excerpt backend endpoints.

(** The message the generic error carries. *)
Definition generic_message (text : string) : string :=
  if text =? EmptyString then "All endpoints failed" else slice0 300 text.

End Properties.

(* ================================================================== *)
(** * Access token                                                     *)
(* ================================================================== *)

Module Token.

Section Clock.

(** [Number(v)] of a string, an array or an object; [None] is [NaN]. *)
Variable js_Number : json -> option Z.

(** The number an arithmetic operator or a comparison reads in [v];
    [None] is [NaN]. *)
Definition number (v : json) : option Z :=
  match v with
  | JNum n => Some n
  | JBool b => Some (if b then 1 else 0)%Z
  | JNull => Some 0%Z
  | _ => js_Number v
  end.

(** [later + (data.expires_in || 3600) * 1000 - 300000], with [later]
    for [Date.now()]; a [NaN] is kept as [null], which [|| 0] reads the
    same way. *)
Definition expiry (later : Z) (data : json) : json :=
  match number (or_default (get "expires_in" data) (JNum 3600)) with
  | Some seconds => JNum (later + seconds * 1000 - 300000)
  | None => JNull
  end.

(** [refreshToken], on the object [creds] read from the credentials file
    and the answer of the token endpoint ([None]: the request or the
    parsing of its answer failed); [Ok] gives [creds] after the two
    assignments, which is also what is written back to the file. *)
Definition refreshToken (later : Z) (answer : option json) (creds : list (string * json))
  : result (list (string * json)) :=
  match answer with
  | None | Some JNull => Throw
  | Some data =>
      match get "access_token" data with
      | Some token =>
          if negb (truthy token) then Throw
          else Ok (assign "expires_at" (expiry later data)
                          (assign "access_token" token creds))
      | None => Throw
      end
  end.

(** [Date.now() >= (creds.expires_at || 0)]. *)
Definition expired (now : Z) (creds : list (string * json)) : bool :=
  match number (or_default (lookup "expires_at" creds) (JNum 0)) with
  | Some at_ => (at_ <=? now)%Z
  | None => false
  end.

(** [getToken]: [creds] afterwards and the token returned; [now] is the
    clock when the expiry is tested, [later] when the endpoint has
    answered. *)
Definition getToken (now later : Z) (answer : option json) (creds : list (string * json))
  : result (list (string * json) * option json) :=
  if expired now creds then
    creds <- refreshToken later answer creds ;;
    Ok (creds, lookup "access_token" creds)
  else Ok (creds, lookup "access_token" creds).

End Clock.
End Token.

(* ================================================================== *)
(** * Further stated properties                                        *)
(* ================================================================== *)

Module Shapes.
Import Model Request Schema Backend.

(** ** Messages and turns *)

(** A content block [{type: "thinking", ...}]. *)
Definition isThinkingBlock (b : json) : bool := is_str "thinking" (get "type" b).

Definition isFunctionResponse (p : part) : bool :=
  match p with FunctionResponse _ _ _ => true | _ => false end.

(** The turn holds the answer to a tool call. *)
Definition carriesToolResult (t : turn) : bool :=
  existsb isFunctionResponse (parts t).

(** ** Models *)

(** The model ids the proxy sends to the backend. *)
Definition TARGETS : list string :=
  [ "claude-sonnet-4-5"; "claude-opus-4-6-thinking"; "claude-sonnet-4-5-thinking" ].

(** ** Schemas *)

(** No key of the value, at any depth, starts with a dollar sign. *)
Fixpoint dollar_free (j : json) : bool :=
  match j with
  | JArr l => forallb dollar_free l
  | JObj fs =>
      forallb (fun kv => negb (prefix "$" (fst kv)) && dollar_free (snd kv)) fs
  | _ => true
  end.

(** No key of the value, at any depth, is [__proto__]. *)
Fixpoint proto_free (j : json) : bool :=
  match j with
  | JArr l => forallb proto_free l
  | JObj fs =>
      forallb (fun kv => negb (fst kv =? "__proto__") && proto_free (snd kv)) fs
  | _ => true
  end.

(** No key occurs twice in the list. *)
Fixpoint distinct (keys : list string) : bool :=
  match keys with
  | [] => true
  | k :: rest => negb (existsb (String.eqb k) rest) && distinct rest
  end.

(** Every object of the value, at any depth, has each key once, as an
    object of the program has. *)
Fixpoint keys_distinct (j : json) : bool :=
  match j with
  | JArr l => forallb keys_distinct l
  | JObj fs => distinct (map fst fs) && forallb (fun kv => keys_distinct (snd kv)) fs
  | _ => true
  end.

(** A key of which the first pass of the normaliser keeps the entry. *)
Definition kept_key (k : string) : bool :=
  negb (prefix "$" k) && negb (k =? "__proto__").

(** A value whose objects, at any depth, hold each key once, no key with
    a dollar sign and no key [__proto__]: what the first pass of the
    normaliser returns. *)
Definition cleanValue (j : json) : bool :=
  dollar_free j && keys_distinct j && proto_free j.

(** What the second pass returns ([typed = false]) and what the third
    returns ([typed = true]) on such a value.  At a node each key is
    allowed and bound once, [properties] is an object with each name
    once or a value that is not an object, the schemas under
    [properties] and [items] are of the same kind, and the other values
    are left alone by the first pass; after the third pass the node has
    a type. *)
Inductive Settled (typed : bool) : json -> Prop :=
| Settled_leaf v :
    (forall l, v <> JArr l) -> (forall fs, v <> JObj fs) -> Settled typed v
| Settled_array l :
    (forall x, In x l -> Settled typed x) -> Settled typed (JArr l)
| Settled_node fs :
    NoDup (map fst fs) ->
    (forall k v, In (k, v) fs -> allowed k = true) ->
    (forall k v, In (k, v) fs -> k <> "properties" -> k <> "items" ->
                 stripDollarSchema v = v) ->
    (typed = true -> truthy_opt (lookup "type" fs) = true) ->
    (forall p, In ("properties", p) fs -> typeof_object p = true ->
               exists ps, p = JObj ps /\ NoDup (map fst ps) /\
                          forall k v, In (k, v) ps -> kept_key k = true) ->
    (forall p k v, In ("properties", p) fs -> In (k, v) (entries p) -> Settled typed v) ->
    (forall v, In ("items", v) fs -> Settled typed v) ->
    Settled typed (JObj fs).

(** ** Requests the translator returns on *)

(** A tool that is not [null] and whose schema, if any, holds no [null]
    and no union that is not a list. *)
Definition toolAccepted (tool : json) : bool :=
  negb (is_null tool) &&
  match get "input_schema" tool with
  | Some schema => Properties.accepted schema
  | None => true
  end.

(** A system prompt whose blocks, if it is a list, are not [null]. *)
Definition systemAccepted (system : option json) : bool :=
  match system with
  | Some (JArr blocks) => forallb (fun block => negb (is_null block)) blocks
  | _ => true
  end.

(** ** The response body of the backend *)

(** The body of which [reads] are the successive pieces. *)
Definition wholeBody (reads : list string) : string :=
  fold_right String.append EmptyString reads.

(** The same end of the loop, with another unfinished line kept. *)
Definition rebuffer (b : string) (f : Stream.flow) : Stream.flow :=
  match f with
  | Stream.Next st => Stream.Next (Stream.setBuffer b st)
  | Stream.Raised st => Stream.Raised (Stream.setBuffer b st)
  end.

(** The chunks of a body read as [reads]: the data lines that parse,
    among the lines that a line break ends. *)
Definition chunksOf (trim : string -> string) (JSON_parse : string -> option json)
  (reads : list string) : list json :=
  Batch.parseEvents trim JSON_parse (removelast (lines_of (wholeBody reads))).

(** The parts the loops visit in a chunk. *)
Definition partsSeen (chunk : json) : list json :=
  match get "response" chunk with
  | Some resp =>
      if truthy resp then
        match partsOf resp with
        | Some ps =>
            if truthy ps
            then match iterate ps with Ok l => l | Throw => [] end
            else []
        | None => []
        end
      else []
  | None => []
  end.

(** The two counters of a truthy [usageMetadata] can be added. *)
Definition usageAdds (resp : json) : bool :=
  match get "usageMetadata" resp with
  | Some um =>
      if truthy um
      then printable (or_default (get "candidatesTokenCount" um) (JNum 0)) &&
           printable (or_default (get "thoughtsTokenCount" um) (JNum 0))
      else true
  | None => true
  end.

(** Nothing throws on the chunk: the chunk is not [null], its parts can
    be iterated, none of them is [null], and the counters of its usage
    can be added. *)
Definition readable (chunk : json) : bool :=
  negb (is_null chunk) &&
  match get "response" chunk with
  | Some resp =>
      if truthy resp then
        match partsOf resp with
        | Some ps =>
            if truthy ps
            then match iterate ps with
                 | Ok l => forallb (fun part => negb (is_null part)) l
                 | Throw => false
                 end
            else true
        | None => true
        end && usageAdds resp
      else true
  | None => true
  end.

(** The parts the stream loop leaves with [continue]: a signature
    without text, and text flagged as a thought. *)
Definition skipped (part : json) : bool :=
  (truthy_opt (get "thoughtSignature" part) && negb (truthy_opt (get "text" part))) ||
  match get "text" part with
  | Some _ => match get "thought" part with Some (JBool true) => true | _ => false end
  | None => false
  end.

(** [part.functionCall], when truthy. *)
Definition callOf (part : json) : list json :=
  match get "functionCall" part with
  | Some fc => if truthy fc then [fc] else []
  | None => []
  end.

(** The text and the call of a part that the stream loop goes through. *)
Definition streamedText (part : json) : list json :=
  if skipped part then []
  else match get "text" part with Some text => [text] | None => [] end.

Definition streamedCall (part : json) : list json :=
  if skipped part then [] else callOf part.

(** The calls with the ids drawn for them, from the [n]-th on. *)
Fixpoint numbered (toolId : nat -> string) (n : nat) (calls : list json)
  : list (string * option json) :=
  match calls with
  | [] => []
  | fc :: rest => (toolId n, get "name" fc) :: numbered toolId (S n) rest
  end.

(** [JSON.stringify(functionCall.args || {})]. *)
Definition inputOf (JSON_stringify : json -> string) (fc : json) : string :=
  JSON_stringify (or_default (get "args" fc) (JObj [])).

(** What a client reads in the events: the text of the text deltas, the
    id and name of the tool-use blocks, the input of the input deltas. *)
Definition textsOf (events : list Stream.event) : list json :=
  flat_map (fun e => match e with
                     | Stream.content_block_delta _ (Stream.text_delta text) => [text]
                     | _ => []
                     end) events.

Definition toolStarts (events : list Stream.event) : list (string * option json) :=
  flat_map (fun e => match e with
                     | Stream.content_block_start _ (Stream.ToolUseBlock id name) =>
                         [(id, name)]
                     | _ => []
                     end) events.

Definition toolInputs (events : list Stream.event) : list string :=
  flat_map (fun e => match e with
                     | Stream.content_block_delta _ (Stream.input_json_delta s) => [s]
                     | _ => []
                     end) events.

(** From [st] to [st'] the translator has sent the texts [ts] and the
    calls [cs], and nothing else that a client reads. *)
Definition sends (JSON_stringify : json -> string) (toolId : nat -> string)
  (st st' : Stream.state) (ts cs : list json) : Prop :=
  textsOf (Stream.written st') = textsOf (Stream.written st) ++ ts /\
  toolStarts (Stream.written st')
    = toolStarts (Stream.written st) ++ numbered toolId (Stream.drawn st) cs /\
  toolInputs (Stream.written st')
    = toolInputs (Stream.written st) ++ map (inputOf JSON_stringify) cs /\
  Stream.drawn st' = Stream.drawn st + List.length cs.

(** The blocks opened in the events, in order, and the stop reasons
    given. *)
Definition blocksOf (events : list Stream.event) : list Stream.block :=
  flat_map (fun e => match e with
                     | Stream.content_block_start _ b => [b]
                     | _ => []
                     end) events.

Definition isTool (b : Stream.block) : bool :=
  match b with Stream.ToolUseBlock _ _ => true | Stream.TextBlock => false end.

Definition stopsOf (events : list Stream.event) : list stopReason :=
  flat_map (fun e => match e with
                     | Stream.message_delta stop _ => [stop]
                     | _ => []
                     end) events.

(** Whether a tool-use block is among the blocks, told from their kinds
    ([true] for a tool-use block), unless the blocks are exactly one
    tool-use block and then one text block. *)
Definition toolUseSeen (kinds : list bool) : bool :=
  match kinds with
  | [true; false] => false
  | _ => existsb (fun b => b) kinds
  end.

(** The blocks closed so far are as many as [contentIndex] and the last
    of them, if any, is a tool-use block; a text block follows them
    exactly when it is open. *)
Definition shaped (st : Stream.state) : Prop :=
  exists closed,
    map isTool (blocksOf (Stream.written st))
    = closed ++ (if Stream.started st then [false] else []) /\
    List.length closed = Stream.contentIndex st /\
    (closed = [] \/ exists before, closed = before ++ [true]).

(** ** What the batch translator collects *)

(** The text of a part that the batch loop takes: any text without a
    thought signature. *)
Definition batchText (part : json) : list json :=
  match get "text" part with
  | Some text => if negb (truthy_opt (get "thoughtSignature" part)) then [text] else []
  | None => []
  end.

(** The tool-use blocks of the calls, with the ids drawn from the [n]-th
    on. *)
Fixpoint numberedUses (toolId : nat -> string) (n : nat) (calls : list json)
  : list Batch.contentBlock :=
  match calls with
  | [] => []
  | fc :: rest =>
      Batch.ToolUse (toolId n) (get "name" fc) (or_default (get "args" fc) (JObj []))
      :: numberedUses toolId (S n) rest
  end.

Definition blockTexts (content : list Batch.contentBlock) : list json :=
  flat_map (fun b => match b with Batch.Text t => [t] | _ => [] end) content.

(** The texts added up with [+=] in one text, if there is any. *)
Definition addedUp (js_String : json -> string) (texts : list json) : list json :=
  match texts with
  | [] => []
  | t :: rest => [fold_left (sum js_String) rest t]
  end.

(** The blocks hold the calls [cs], numbered from zero, and the texts
    [ts] added up. *)
Definition holds (js_String : json -> string) (toolId : nat -> string)
  (content : list Batch.contentBlock) (ts cs : list json) : Prop :=
  filter Batch.isToolUse content = numberedUses toolId 0 cs /\
  blockTexts content = addedUp js_String ts.

(** Nothing throws on the event in the batch loop: it is [readable], and
    the texts taken from it can be added to the text block. *)
Definition collectable (event : json) : bool :=
  readable event && forallb printable (flat_map batchText (partsSeen event)).

End Shapes.

(* ================================================================== *)
(** * Model mapping: facts                                             *)
(* ================================================================== *)

Module ModelFacts.
Import Model.

(** Outside the names [Object.prototype] answers for, the mapping follows
    table, then "opus", then "sonnet", then the default, and is a model
    id. *)
Lemma mapModel_plain_name (name : string) :
  inherited name = false ->
  mapModel name =
    Target (match own name MODEL_MAP with
            | Some id => id
            | None =>
                if includes "opus" name then "claude-opus-4-6-thinking"
                else if includes "sonnet" name then "claude-sonnet-4-5-thinking"
                else "claude-opus-4-6-thinking"
            end).
Proof.
  intros Hplain. unfold mapModel. rewrite Hplain.
  destruct (own name MODEL_MAP); [reflexivity|].
  destruct (includes "opus" name); [reflexivity|].
  destruct (includes "sonnet" name); reflexivity.
Qed.

Example mapModel_table : mapModel "claude-3-5-haiku-20241022" = Target "claude-sonnet-4-5".
Proof. reflexivity. Qed.

Example mapModel_opus_first :
  mapModel "my-opus-or-sonnet" = Target "claude-opus-4-6-thinking".
Proof. reflexivity. Qed.

Example mapModel_sonnet : mapModel "sonnet-next" = Target "claude-sonnet-4-5-thinking".
Proof. reflexivity. Qed.

Example mapModel_default : mapModel "gpt-x" = Target "claude-opus-4-6-thinking".
Proof. reflexivity. Qed.

(** C9, at the model name "constructor": the table lookup
    [MODEL_MAP[anthropicModel]] finds the member the table inherits from
    [Object.prototype], a function and so truthy, and [mapModel] returns
    it; no fallback is reached, the result is no target, and
    [isThinkingModel] throws on it. *)
Theorem mapModel_returns_inherited_member :
  mapModel "constructor" = Member "constructor" /\
  (forall id, mapModel "constructor" <> Target id) /\
  thinkingTarget (mapModel "constructor") = Throw.
Proof.
  split; [reflexivity|]. split; [|reflexivity].
  intros id H. vm_compute in H. discriminate H.
Qed.

End ModelFacts.

(* ================================================================== *)
(** * Request translator: facts                                        *)
(* ================================================================== *)

Module RequestFacts.
Import Model Request Properties.

Section Merge.

Variable JSON_stringify : json -> string.
Variable js_String : json -> string.

Lemma role_eqb_eq (a b : role) : role_eqb a b = true <-> a = b.
Proof. destruct a, b; simpl; split; congruence. Qed.

Lemma lastTurn_snoc (l : list turn) (t : turn) : lastTurn (l ++ [t]) = Some t.
Proof. unfold lastTurn. rewrite rev_unit. reflexivity. Qed.

(** The step on a list that has a last turn. *)
Lemma mergeStep_snoc (emitted : list turn) (prev entry : turn) :
  mergeStep (emitted ++ [prev]) entry =
    if role_eqb (turn_role prev) (turn_role entry)
    then emitted ++ [mkTurn (turn_role prev) (parts prev ++ parts entry)]
    else emitted ++ [prev; entry].
Proof.
  unfold mergeStep. rewrite lastTurn_snoc, removelast_last.
  destruct (role_eqb _ _); [reflexivity|].
  rewrite <- app_assoc. reflexivity.
Qed.

Lemma mergeStep_nil (entry : turn) : mergeStep [] entry = [entry].
Proof. reflexivity. Qed.

Lemma adjacent_distinct_nil : adjacent_distinct [].
Proof. intros pre a b post H. destruct pre; discriminate H. Qed.

Lemma adjacent_distinct_one (t : turn) : adjacent_distinct [t].
Proof.
  intros pre a b post H. destruct pre as [|x [|y pre]]; discriminate H.
Qed.

(** Splitting [l ++ [x]] around two neighbours: they lie in [l], or the
    second one is [x]. *)
Lemma snoc_split {A} (l : list A) (x : A) pre a b post :
  l ++ [x] = pre ++ a :: b :: post ->
  (exists post', post = post' ++ [x] /\ l = pre ++ a :: b :: post') \/
  (post = [] /\ b = x /\ l = pre ++ [a]).
Proof.
  revert pre. induction l as [|y l IH]; intros pre H.
  - destruct pre as [|p [|q pre]]; discriminate H.
  - destruct pre as [|p pre]; simpl in H.
    + injection H as -> H. destruct l as [|z l]; simpl in H.
      * injection H as -> <-. right. auto.
      * injection H as -> H. left.
        assert (Hp : exists post', post = post' ++ [x] /\ l = post').
        { clear -H. revert post H. induction l as [|w l IHl]; intros post H.
          - simpl in H. subst post. exists []. auto.
          - destruct post as [|v post]; [destruct l; discriminate H|].
            simpl in H. injection H as -> H.
            destruct (IHl _ H) as (post' & -> & ->).
            exists (v :: post'). auto. }
        destruct Hp as (post' & -> & ->). exists post'. auto.
    + injection H as -> H. destruct (IH _ H) as [(post' & -> & ->)|(-> & -> & ->)].
      * left. exists post'. auto.
      * right. auto.
Qed.

Lemma adjacent_distinct_snoc (l : list turn) (prev t : turn) :
  adjacent_distinct (l ++ [prev]) ->
  turn_role prev <> turn_role t ->
  adjacent_distinct ((l ++ [prev]) ++ [t]).
Proof.
  intros Hl Hne pre a b post H.
  apply snoc_split in H. destruct H as [(post' & -> & H)|(-> & -> & H)].
  - exact (Hl _ _ _ _ H).
  - apply app_inj_tail in H. destruct H as [_ <-]. exact Hne.
Qed.

(** Replacing the last turn by one of the same role keeps the property. *)
Lemma adjacent_distinct_relast (l : list turn) (prev t : turn) :
  adjacent_distinct (l ++ [prev]) ->
  turn_role t = turn_role prev ->
  adjacent_distinct (l ++ [t]).
Proof.
  intros Hl Hr pre a b post H.
  apply snoc_split in H. destruct H as [(post' & -> & H)|(-> & -> & H)].
  - apply (Hl pre a b (post' ++ [prev])). rewrite H.
    rewrite <- app_assoc. reflexivity.
  - rewrite Hr. apply (Hl pre a prev []). rewrite H, <- app_assoc. reflexivity.
Qed.

Lemma mergeStep_adjacent (contents : list turn) (entry : turn) :
  adjacent_distinct contents -> adjacent_distinct (mergeStep contents entry).
Proof.
  intros H. destruct contents as [|t0 rest0] using rev_ind.
  - apply adjacent_distinct_one.
  - clear IHrest0. rename rest0 into l, t0 into prev.
    rewrite mergeStep_snoc.
    destruct (role_eqb (turn_role prev) (turn_role entry)) eqn:E.
    + apply adjacent_distinct_relast with (prev := prev); auto.
    + change (l ++ [prev; entry]) with (l ++ [prev] ++ [entry]).
      rewrite app_assoc. apply adjacent_distinct_snoc; auto.
      intros Heq. apply role_eqb_eq in Heq. congruence.
Qed.

Lemma fold_mergeStep_adjacent (raw acc : list turn) :
  adjacent_distinct acc -> adjacent_distinct (fold_left mergeStep raw acc).
Proof.
  revert acc. induction raw as [|e raw IH]; intros acc H; simpl; auto.
  apply IH, mergeStep_adjacent, H.
Qed.

(** Merging moves parts, it neither drops nor reorders them. *)
Lemma mergeStep_parts (contents : list turn) (entry : turn) :
  flat_map parts (mergeStep contents entry) = flat_map parts contents ++ parts entry.
Proof.
  destruct contents as [|prev l _] using rev_ind.
  - simpl. rewrite app_nil_r. reflexivity.
  - rewrite mergeStep_snoc. destruct (role_eqb _ _);
      rewrite !flat_map_app; simpl; rewrite ?app_nil_r, <- ?app_assoc; reflexivity.
Qed.

Lemma mergeRoles_parts (raw : list turn) :
  flat_map parts (mergeRoles raw) = flat_map parts raw.
Proof.
  unfold mergeRoles.
  assert (G : forall acc, flat_map parts (fold_left mergeStep raw acc)
                          = flat_map parts acc ++ flat_map parts raw).
  { induction raw as [|e raw IH]; intros acc; simpl.
    - rewrite app_nil_r. reflexivity.
    - rewrite IH, mergeStep_parts, <- app_assoc. reflexivity. }
  apply G.
Qed.

(** C2: for every client message list, no two neighbours of the provider
    turn list have the same role; a produced turn whose role is that of
    the turn emitted last has its parts appended to that turn, any other
    starts a new turn; and the merge keeps every part, in order. *)
Theorem contents_roles_alternate (messages : list json) :
  adjacent_distinct (contents JSON_stringify js_String messages) /\
  (forall emitted prev entry,
      mergeStep (emitted ++ [prev]) entry =
        if role_eqb (turn_role prev) (turn_role entry)
        then emitted ++ [mkTurn (turn_role prev) (parts prev ++ parts entry)]
        else emitted ++ [prev; entry]) /\
  flat_map parts (contents JSON_stringify js_String messages) =
    flat_map parts (rawContents JSON_stringify js_String messages).
Proof.
  split; [|split].
  - apply fold_mergeStep_adjacent, adjacent_distinct_nil.
  - apply mergeStep_snoc.
  - apply mergeRoles_parts.
Qed.

End Merge.

(** Two user messages in a row, the second with a tool result and a text
    block, then an assistant message holding only a thinking block. *)
Example contents_run :
  contents (fun _ => "json") (fun _ => "str")
    [ JObj [("role", JStr "user"); ("content", JStr "hi")];
      JObj [("role", JStr "user");
            ("content", JArr [ JObj [("type", JStr "tool_result");
                                     ("tool_use_id", JStr "t1");
                                     ("content", JStr "42")];
                               JObj [("type", JStr "text"); ("text", JStr "ok")] ])];
      JObj [("role", JStr "assistant");
            ("content", JArr [ JObj [("type", JStr "thinking")] ])] ]
  = [ mkTurn user [ TextPart "hi";
                    FunctionResponse (JStr "t1") (Some (JStr "t1")) "42";
                    TextPart "ok" ];
      mkTurn model [ TextPart "..." ] ].
Proof. reflexivity. Qed.

End RequestFacts.

(* ================================================================== *)
(** * Generation config: facts                                         *)
(* ================================================================== *)

Module ConfigFacts.
Import Model Request Properties.

Local Open Scope Z_scope.

Lemma dynamicBudget_range (req : anthropicReq) :
  1024 <= dynamicBudget req <= 10240.
Proof. unfold dynamicBudget. lia. Qed.

Lemma num_or_given (n d : Z) : n <> 0 -> num_or (Some n) d = n.
Proof. intros H. unfold num_or. destruct (Z.eqb_spec n 0); congruence. Qed.

(** The specification's wording of C4 fails at a budget of zero, which the
    code replaces by the computed budget, and at a [max_tokens] of zero,
    which the code replaces by 16384. *)
Lemma config_as_stated_fails :
  ~ config_as_stated
      {| req_model := "claude-opus-4-6"; messages := []; system := None;
         max_tokens := Some 4096;
         thinking := Some {| budget_tokens := Some 0 |};
         temperature := None; tools := None |} /\
  ~ config_as_stated
      {| req_model := "claude-opus-4-6"; messages := []; system := None;
         max_tokens := Some 0;
         thinking := None;
         temperature := None; tools := None |}.
Proof.
  split; intros H;
    destruct (H "claude-opus-4-6-thinking" eq_refl eq_refl) as [Hcfg _];
    vm_compute in Hcfg; discriminate Hcfg.
Qed.

(** Beyond the safe integers the sum [thinkingBudget + 1024] is rounded:
    at a client budget of 1e20 it is 1e20 again, and the output limit is
    the budget itself, not above it. *)
Lemma budget_beyond_safe_integers :
  let req := {| req_model := "claude-opus-4-6"; messages := []; system := None;
                max_tokens := Some 4096;
                thinking := Some {| budget_tokens := Some (10 ^ 20) |};
                temperature := None; tools := None |} in
  let cfg := buildGenerationConfig "claude-opus-4-6-thinking" req in
  thinkingCfg cfg = Some {| includeThoughts := true; thinkingBudget := 10 ^ 20 |} /\
  maxOutputTokens cfg = 10 ^ 20.
Proof. split; vm_compute; reflexivity. Qed.

Lemma js_add_safe (x y : Z) : safe_integer (x + y) = true -> js_add x y = x + y.
Proof. intros H. unfold js_add, nearest_double. rewrite H. reflexivity. Qed.

Lemma safe_integer_range (n : Z) :
  safe_integer n = true <-> - 2 ^ 53 < n < 2 ^ 53.
Proof.
  unfold safe_integer. rewrite Z.ltb_lt.
  change (2 ^ 53) with 9007199254740992. lia.
Qed.

(** C4, amended: for a request mapped to a thinking-capable target whose
    token counts are safe integers (of magnitude below 2^53, where the
    sums of doubles are exact), the client's budget plus 1024 being one
    too, the output limit starts as the client's [max_tokens] when given
    and not zero, else 16384; the thinking budget is the client's when
    given and not zero, else min(10240, max(1024, floor(limit / 4))); the
    final limit is max(limit, budget + 1024); so the budget is strictly
    below the final limit, and a computed budget lies in [1024, 10240]. *)
Theorem thinking_budget_below_output (req : anthropicReq) (googleModel : string) :
  mapModel (req_model req) = Target googleModel ->
  isThinkingModel googleModel = true ->
  (forall n, max_tokens req = Some n -> safe_integer n = true) ->
  (forall b, clientBudget req = Some b ->
             safe_integer b = true /\ safe_integer (b + 1024) = true) ->
  let cfg := buildGenerationConfig googleModel req in
  let original :=
    match max_tokens req with
    | Some n => if n =? 0 then 16384 else n
    | None => 16384
    end in
  let auto := Z.min 10240 (Z.max 1024 (original / 4)) in
  exists budget,
    thinkingCfg cfg = Some {| includeThoughts := true; thinkingBudget := budget |} /\
    (forall b, clientBudget req = Some b -> b <> 0 -> budget = b) /\
    (clientBudget req = None \/ clientBudget req = Some 0 -> budget = auto) /\
    maxOutputTokens cfg = Z.max original (budget + 1024) /\
    budget < maxOutputTokens cfg /\
    1024 <= auto <= 10240.
Proof.
  intros _ Hthinking _ Hsafe cfg original auto.
  assert (Horig : rawMaxTokens req = original) by reflexivity.
  assert (Hauto : dynamicBudget req = auto) by reflexivity.
  assert (Hrange : 1024 <= auto <= 10240) by (subst auto; lia).
  assert (Hsum : js_add (num_or (clientBudget req) (dynamicBudget req)) 1024
                 = num_or (clientBudget req) (dynamicBudget req) + 1024).
  { apply js_add_safe. rewrite Hauto. unfold num_or.
    destruct (clientBudget req) as [b|] eqn:Hb.
    - destruct (Hsafe b eq_refl) as [_ Hb1024].
      destruct (b =? 0); [|exact Hb1024].
      apply safe_integer_range. change (2 ^ 53) with 9007199254740992. lia.
    - apply safe_integer_range. change (2 ^ 53) with 9007199254740992. lia. }
  exists (num_or (clientBudget req) (dynamicBudget req)).
  subst cfg. unfold buildGenerationConfig. rewrite Hthinking. cbn [thinkingCfg maxOutputTokens].
  rewrite Hsum, Horig, Hauto.
  repeat split.
  - intros b Hb Hnz. rewrite Hb. apply num_or_given, Hnz.
  - intros [Hb | Hb]; rewrite Hb; reflexivity.
  - lia.
  - apply Hrange.
  - apply Hrange.
Qed.

(** A client budget of 5000 with [max_tokens] 2000 on the thinking
    sonnet: the budget is kept and the limit raised to 6024. *)
Lemma thinking_budget_below_output_witness :
  mapModel "claude-sonnet-4-5-thinking" = Target "claude-sonnet-4-5-thinking" /\
  isThinkingModel "claude-sonnet-4-5-thinking" = true /\
  safe_integer 2000 = true /\ safe_integer 5000 = true /\
  safe_integer (5000 + 1024) = true /\
  exists budget,
    thinkingCfg (buildGenerationConfig "claude-sonnet-4-5-thinking"
                   {| req_model := "claude-sonnet-4-5-thinking"; messages := [];
                      system := None; max_tokens := Some 2000;
                      thinking := Some {| budget_tokens := Some 5000 |};
                      temperature := None; tools := None |})
      = Some {| includeThoughts := true; thinkingBudget := budget |} /\
    budget = 5000 /\
    budget < maxOutputTokens (buildGenerationConfig "claude-sonnet-4-5-thinking"
                       {| req_model := "claude-sonnet-4-5-thinking"; messages := [];
                          system := None; max_tokens := Some 2000;
                          thinking := Some {| budget_tokens := Some 5000 |};
                          temperature := None; tools := None |}) /\
    maxOutputTokens (buildGenerationConfig "claude-sonnet-4-5-thinking"
                       {| req_model := "claude-sonnet-4-5-thinking"; messages := [];
                          system := None; max_tokens := Some 2000;
                          thinking := Some {| budget_tokens := Some 5000 |};
                          temperature := None; tools := None |}) = 6024.
Proof.
  split; [reflexivity|]. split; [reflexivity|].
  split; [reflexivity|]. split; [reflexivity|]. split; [reflexivity|].
  destruct (thinking_budget_below_output
              {| req_model := "claude-sonnet-4-5-thinking"; messages := [];
                 system := None; max_tokens := Some 2000;
                 thinking := Some {| budget_tokens := Some 5000 |};
                 temperature := None; tools := None |}
              "claude-sonnet-4-5-thinking" eq_refl eq_refl)
    as (budget & Hcfg & Hgiven & _ & Hmax & Hbelow & _).
  - intros n [= <-]. reflexivity.
  - intros b [= <-]. split; reflexivity.
  - exists budget. split; [exact Hcfg|].
    assert (Hb : budget = 5000) by (apply Hgiven; [reflexivity | lia]).
    split; [exact Hb|]. split; [exact Hbelow|]. rewrite Hmax, Hb. reflexivity.
Defined.

(** C10: for a request mapped to a thinking-capable target, a client
    budget of zero is ignored: the budget is
    min(10240, max(1024, floor(limit / 4))), and the whole generation
    config is the one of the same request without a budget. *)
Theorem zero_budget_is_absent_budget (req req' : anthropicReq) (googleModel : string) :
  mapModel (req_model req) = Target googleModel ->
  isThinkingModel googleModel = true ->
  clientBudget req = Some 0 ->
  clientBudget req' = None ->
  max_tokens req' = max_tokens req ->
  temperature req' = temperature req ->
  thinkingCfg (buildGenerationConfig googleModel req) =
    Some {| includeThoughts := true;
            thinkingBudget := Z.min 10240 (Z.max 1024 (rawMaxTokens req / 4)) |} /\
  buildGenerationConfig googleModel req = buildGenerationConfig googleModel req'.
Proof.
  intros _ Hthinking Hzero Habsent Hmax Htemp.
  unfold buildGenerationConfig, dynamicBudget, rawMaxTokens.
  rewrite Hthinking, Hzero, Habsent, Hmax, Htemp. split; reflexivity.
Qed.

(** [max_tokens] 20000 and a budget of 0 on the opus target: the budget
    is 5000, as without [thinking]. *)
Lemma zero_budget_is_absent_budget_witness :
  thinkingCfg (buildGenerationConfig "claude-opus-4-6-thinking"
                 {| req_model := "claude-opus-4-6"; messages := []; system := None;
                    max_tokens := Some 20000;
                    thinking := Some {| budget_tokens := Some 0 |};
                    temperature := None; tools := None |})
    = Some {| includeThoughts := true; thinkingBudget := 5000 |} /\
  buildGenerationConfig "claude-opus-4-6-thinking"
    {| req_model := "claude-opus-4-6"; messages := []; system := None;
       max_tokens := Some 20000;
       thinking := Some {| budget_tokens := Some 0 |};
       temperature := None; tools := None |}
  = buildGenerationConfig "claude-opus-4-6-thinking"
    {| req_model := "claude-opus-4-6"; messages := []; system := None;
       max_tokens := Some 20000;
       thinking := None;
       temperature := None; tools := None |}.
Proof.
  apply (zero_budget_is_absent_budget
    {| req_model := "claude-opus-4-6"; messages := []; system := None;
       max_tokens := Some 20000;
       thinking := Some {| budget_tokens := Some 0 |};
       temperature := None; tools := None |}
    {| req_model := "claude-opus-4-6"; messages := []; system := None;
       max_tokens := Some 20000;
       thinking := None;
       temperature := None; tools := None |}
    "claude-opus-4-6-thinking");
  reflexivity.
Defined.

End ConfigFacts.

(* ================================================================== *)
(** * Endpoint racer: facts                                            *)
(* ================================================================== *)

Module RacerFacts.
Import Racer Properties.

Lemma substring_length_le (s : string) (i n : nat) :
  String.length (substring i n s) <= n.
Proof.
  revert i n. induction s as [|c s IH]; intros i n.
  - destruct i, n; simpl; lia.
  - destruct i as [|i].
    + destruct n as [|n]; simpl; [lia|]. specialize (IH 0 n). lia.
    + simpl. apply IH.
Qed.

Lemma substring_empty (i n : nat) : substring i n EmptyString = EmptyString.
Proof. destruct i, n; reflexivity. Qed.

Lemma slice0_empty_iff (n : nat) (s : string) :
  (slice0 (S n) s =? EmptyString) = (s =? EmptyString).
Proof. destruct s; reflexivity. Qed.

Lemma generic_message_length (text : string) :
  String.length (generic_message text) <= 300.
Proof.
  unfold generic_message. destruct (text =? EmptyString).
  - simpl. lia.
  - apply substring_length_le.
Qed.

Section Settle.

Variable backend : string -> fetched.

Lemma find_all_failed (endpoints : list string) :
  all_failed backend endpoints ->
  find isFulfilled (map (fetchOne backend) endpoints) = None.
Proof.
  induction endpoints as [|e rest IH]; intros H; simpl; [reflexivity|].
  rewrite (H e (or_introl eq_refl)). apply IH.
  intros e' He'. apply H. right. exact He'.
Qed.

Lemma find_first_success (pre post : list string) (ep : string) (value : response) :
  all_failed backend pre ->
  fetchOne backend ep = fulfilled value ->
  find isFulfilled (map (fetchOne backend) (pre ++ ep :: post)) = Some (fulfilled value).
Proof.
  intros Hpre Hep. induction pre as [|e pre IH]; simpl.
  - rewrite Hep. reflexivity.
  - rewrite (Hpre e (or_introl eq_refl)). apply IH.
    intros e' He'. apply Hpre. right. exact He'.
Qed.

(** The entry of a primary endpoint that answered and did not succeed. *)
Lemma primary_rejected (primary : string) (r : response) :
  backend primary = Answered r ->
  isFulfilled (fetchOne backend primary) = false ->
  fetchOne backend primary = rejected (HttpFailure (status r) (body r) primary).
Proof.
  unfold fetchOne. intros ->. destruct (ok r); [discriminate|reflexivity].
Qed.

Lemma race_first_success (endpoints : list string) :
  first_success_wins backend endpoints.
Proof.
  intros pre ep post value -> Hpre Hep. unfold race, settle.
  rewrite (find_first_success pre post ep value Hpre Hep). reflexivity.
Qed.

Lemma race_overloaded (endpoints : list string) :
  overloaded_classified backend endpoints.
Proof.
  intros primary rest r -> Hall Hans Hstatus. unfold race, settle.
  rewrite (find_all_failed _ Hall). simpl map.
  rewrite (primary_rejected primary r Hans (Hall primary (or_introl eq_refl))).
  unfold statusIs, statusOf.
  destruct Hstatus as [-> | ->]; simpl; eexists; reflexivity.
Qed.

Lemma race_generic (primary : string) (rest : list string) (r : response) :
  all_failed backend (primary :: rest) ->
  backend primary = Answered r ->
  (status r <> 429 /\ status r <> 503)%Z ->
  race backend (primary :: rest) =
    Reply (if (status r =? 400)%Z then 400 else 500) "api_error"
          (generic_message (body r)).
Proof.
  intros Hall Hans [H429 H503]. unfold race, settle.
  rewrite (find_all_failed _ Hall). simpl map.
  rewrite (primary_rejected primary r Hans (Hall primary (or_introl eq_refl))).
  unfold statusIs, statusOf.
  destruct (Z.eqb_spec (status r) 429) as [E|_]; [contradiction|].
  destruct (Z.eqb_spec (status r) 503) as [E|_]; [contradiction|].
  simpl orb. cbv iota. f_equal.
  unfold errMsg, generic_message. rewrite slice0_empty_iff. reflexivity.
Qed.

End Settle.

(** The specification's wording of C1 fails when the primary endpoint
    answers 500 with an empty body: the message is the fixed text, which
    is no piece of the body. *)
Lemma racer_as_stated_fails :
  ~ racer_as_stated (fun _ => Answered {| status := 500; body := EmptyString |})
                    ENDPOINTS.
Proof.
  intros (_ & _ & H).
  destruct (H PROD_EP [SANDBOX_EP] {| status := 500; body := EmptyString |} eq_refl)
    as (code & m & Hrace & (i & n & Hm) & _).
  - intros e _. reflexivity.
  - reflexivity.
  - split; intros E; discriminate E.
  - cbn [body] in Hm. rewrite substring_empty in Hm. subst m.
    vm_compute in Hrace. discriminate Hrace.
Qed.

(** C1, amended: once every candidate has settled, the racer resolves to
    the first-listed success if any candidate succeeded; otherwise to the
    primary candidate's failure: the overloaded condition when its status
    is 429 or 503, and for any other non-2xx status a generic upstream
    error that carries the first 300 characters of the response body, or
    the fixed text "All endpoints failed" when the body is empty; the
    message never exceeds 300 characters. *)
Theorem race_first_success_else_primary_failure
  (backend : string -> fetched) (endpoints : list string) :
  first_success_wins backend endpoints /\
  overloaded_classified backend endpoints /\
  (forall primary rest r,
      endpoints = primary :: rest ->
      all_failed backend endpoints ->
      backend primary = Answered r ->
      (status r <> 429 /\ status r <> 503)%Z ->
      exists code,
        race backend endpoints =
          Reply code "api_error"
                (if body r =? EmptyString then "All endpoints failed"
                 else slice0 300 (body r)) /\
        String.length (if body r =? EmptyString then "All endpoints failed"
                       else slice0 300 (body r)) <= 300).
Proof.
  split; [apply race_first_success|]. split; [apply race_overloaded|].
  intros primary rest r -> Hall Hans Hstatus.
  eexists. split.
  - apply (race_generic backend primary rest r Hall Hans Hstatus).
  - apply generic_message_length.
Qed.

(** The primary answers 429 and the sandbox 200: the sandbox response is
    the one the handler goes on with. *)
Lemma race_first_success_else_primary_failure_witness :
  race (fun ep => if ep =? PROD_EP
                  then Answered {| status := 429; body := "slow down" |}
                  else Answered {| status := 200; body := "data: {}" |})
       ENDPOINTS
  = Proceed {| status := 200; body := "data: {}" |}.
Proof.
  apply (proj1 (race_first_success_else_primary_failure
                  (fun ep => if ep =? PROD_EP
                             then Answered {| status := 429; body := "slow down" |}
                             else Answered {| status := 200; body := "data: {}" |})
                  ENDPOINTS)
               [PROD_EP] SANDBOX_EP [] {| status := 200; body := "data: {}" |}).
  - reflexivity.
  - intros e [<- | []]. reflexivity.
  - reflexivity.
Defined.

(** All candidates answer 503: the overloaded reply, code 529. *)
Example race_all_503 :
  race (fun _ => Answered {| status := 503; body := "unavailable" |}) ENDPOINTS
  = Reply 529 "overloaded_error" OVERLOADED_503.
Proof. reflexivity. Qed.

(** No candidate could be reached: the generic reply with the fixed text. *)
Example race_unreachable :
  race (fun _ => Unreachable) ENDPOINTS = Reply 500 "api_error" "All endpoints failed".
Proof. reflexivity. Qed.

End RacerFacts.

(* ================================================================== *)
(** * Schema normaliser: facts                                         *)
(* ================================================================== *)

Module SchemaFacts.
Import Schema Properties.

(** ** Objects as association lists *)

Lemma lookup_In (k : string) (fs : fields) (v : json) :
  lookup k fs = Some v -> In (k, v) fs.
Proof.
  induction fs as [|[k' v'] fs IH]; simpl; [discriminate|].
  destruct (String.eqb_spec k' k) as [->|_].
  - intros [= ->]. left. reflexivity.
  - intros H. right. apply IH, H.
Qed.

Lemma In_lookup_nodup (k : string) (fs : fields) (v : json) :
  NoDup (map fst fs) -> In (k, v) fs -> lookup k fs = Some v.
Proof.
  induction fs as [|[k' v'] fs IH]; simpl; intros Hnd Hin; [contradiction|].
  inversion Hnd as [|? ? Hnotin Hnd']; subst.
  destruct Hin as [[= -> ->] | Hin].
  - rewrite String.eqb_refl. reflexivity.
  - destruct (String.eqb_spec k' k) as [->|_].
    + exfalso. apply Hnotin. apply (in_map fst) in Hin. exact Hin.
    + apply IH; assumption.
Qed.

Lemma lookup_assign_same (k : string) (v : json) (fs : fields) :
  lookup k (assign k v fs) = Some v.
Proof.
  induction fs as [|[k' v'] fs IH]; simpl.
  - rewrite String.eqb_refl. reflexivity.
  - destruct (String.eqb_spec k' k) as [->|Hne]; simpl.
    + rewrite String.eqb_refl. reflexivity.
    + destruct (String.eqb_spec k' k); [contradiction|]. exact IH.
Qed.

Lemma lookup_assign_other (k k0 : string) (v : json) (fs : fields) :
  k0 <> k -> lookup k0 (assign k v fs) = lookup k0 fs.
Proof.
  intros Hne. induction fs as [|[k' v'] fs IH]; simpl.
  - destruct (String.eqb_spec k k0); [congruence|reflexivity].
  - destruct (String.eqb_spec k' k) as [->|Hk]; simpl.
    + destruct (String.eqb_spec k k0); [congruence|reflexivity].
    + destruct (String.eqb_spec k' k0); [reflexivity|exact IH].
Qed.

Lemma In_assign (k k0 : string) (v x : json) (fs : fields) :
  In (k0, x) (assign k v fs) -> (k0 = k /\ x = v) \/ In (k0, x) fs.
Proof.
  induction fs as [|[k' v'] fs IH]; simpl.
  - intros [[= <- <-] | []]. left. auto.
  - destruct (String.eqb_spec k' k) as [->|Hk]; simpl.
    + intros [[= <- <-] | H]; [left; auto | right; right; exact H].
    + intros [H | H]; [right; left; exact H|].
      destruct (IH H) as [G | G]; [left; exact G | right; right; exact G].
Qed.

Lemma keys_assign (k : string) (v : json) (fs : fields) (k0 : string) :
  In k0 (map fst (assign k v fs)) -> k0 = k \/ In k0 (map fst fs).
Proof.
  induction fs as [|[k' v'] fs IH]; simpl.
  - intros [<- | []]. left. reflexivity.
  - destruct (String.eqb_spec k' k) as [->|Hk]; simpl.
    + intros [<- | H]; [left; reflexivity | right; right; exact H].
    + intros [<- | H]; [right; left; reflexivity|].
      destruct (IH H) as [G | G]; [left; exact G | right; right; exact G].
Qed.

Lemma NoDup_assign (k : string) (v : json) (fs : fields) :
  NoDup (map fst fs) -> NoDup (map fst (assign k v fs)).
Proof.
  induction fs as [|[k' v'] fs IH]; simpl; intros Hnd.
  - constructor; [intros []|constructor].
  - inversion Hnd as [|? ? Hnotin Hnd']; subst.
    destruct (String.eqb_spec k' k) as [->|Hk]; simpl.
    + constructor; assumption.
    + constructor; [|apply IH, Hnd'].
      intros Hin. apply keys_assign in Hin. destruct Hin as [-> | Hin]; auto.
Qed.

(** With each key bound once, the binding of an assigned key is the
    assigned value. *)
Lemma In_assign_same (k : string) (v x : json) (fs : fields) :
  NoDup (map fst fs) -> In (k, x) (assign k v fs) -> x = v.
Proof.
  intros Hnd Hin.
  pose proof (In_lookup_nodup k _ x (NoDup_assign k v fs Hnd) Hin) as H.
  rewrite lookup_assign_same in H. congruence.
Qed.

Lemma fromEntries_from (es acc : fields) :
  NoDup (map fst acc) ->
  NoDup (map fst (fold_left (fun obj kv => assign (fst kv) (snd kv) obj) es acc)) /\
  forall k v,
    In (k, v) (fold_left (fun obj kv => assign (fst kv) (snd kv) obj) es acc) ->
    In (k, v) es \/ In (k, v) acc.
Proof.
  revert acc. induction es as [|[k0 v0] es IH]; intros acc Hnd; simpl.
  - split; [exact Hnd | auto].
  - destruct (IH (assign k0 v0 acc) (NoDup_assign _ _ _ Hnd)) as [Hnd' Hin].
    split; [exact Hnd'|]. intros k v H.
    destruct (Hin k v H) as [G | G]; [left; right; exact G|].
    apply In_assign in G. destruct G as [[-> ->] | G]; [left; left; reflexivity | right; exact G].
Qed.

Lemma fromEntries_In (es : fields) (k : string) (v : json) :
  In (k, v) (fromEntries es) -> In (k, v) es.
Proof.
  intros H. destruct (fromEntries_from es [] (NoDup_nil _)) as [_ G].
  destruct (G k v H) as [?|[]]. assumption.
Qed.

(** ** Depth of nested values *)

Lemma depth_elem (x : json) (l : list json) : In x l -> depth x < depth (JArr l).
Proof.
  simpl. induction l as [|y l IH]; simpl; intros H; [contradiction|].
  destruct H as [-> | H]; [lia|]. specialize (IH H). lia.
Qed.

Lemma depth_field (k : string) (v : json) (fs : fields) :
  In (k, v) fs -> depth v < depth (JObj fs).
Proof.
  simpl. induction fs as [|[k' v'] fs IH]; simpl; intros H; [contradiction|].
  destruct H as [[= -> ->] | H]; [lia|]. specialize (IH H). lia.
Qed.

Lemma indexed_from_In (i : nat) (l : list json) (k : string) (v : json) :
  In (k, v) (indexed_from i l) -> In v l.
Proof.
  revert i. induction l as [|x l IH]; simpl; intros i H; [contradiction|].
  destruct H as [[= _ ->] | H]; [left; reflexivity | right; exact (IH _ H)].
Qed.

Lemma depth_entry (k : string) (v p : json) : In (k, v) (entries p) -> depth v < depth p.
Proof.
  destruct p; simpl entries; try contradiction.
  - intros H. apply depth_elem. exact (indexed_from_In _ _ _ _ H).
  - apply depth_field.
Qed.

Lemma entries_scalar (p : json) :
  (forall l, p <> JArr l) -> (forall fs, p <> JObj fs) -> entries p = [].
Proof. intros Ha Ho. destruct p; try reflexivity; [destruct (Ha _ eq_refl) | destruct (Ho _ eq_refl)]. Qed.

(** ** The union pass hands on values of the schema only *)

Lemma withDescription_depth (variant : json) (working : fields) (k : string) (v : json) :
  In (k, v) (withDescription variant working) ->
  depth v < depth variant \/ depth v < depth (JObj working).
Proof.
  unfold withDescription.
  destruct (lookup "description" working) as [d|] eqn:Hd.
  - destruct (truthy d).
    + intros H. apply In_assign in H. destruct H as [[_ ->] | H].
      * right. apply (depth_field "description"). apply lookup_In, Hd.
      * left. exact (depth_entry _ _ _ H).
    + intros H. left. exact (depth_entry _ _ _ H).
  - intros H. left. exact (depth_entry _ _ _ H).
Qed.

Lemma unionOf_In (fs : fields) (u : json) :
  unionOf fs = Some u -> exists k, In (k, u) fs.
Proof.
  unfold unionOf, js_or. destruct (truthy_opt (lookup "anyOf" fs)); intros H.
  - exists "anyOf". apply lookup_In, H.
  - exists "oneOf". apply lookup_In, H.
Qed.

Lemma flattenUnion_depth (fs working : fields) (k : string) (v : json) :
  flattenUnion fs = Ok working -> In (k, v) working -> depth v < depth (JObj fs).
Proof.
  unfold flattenUnion. destruct (truthy_opt (unionOf fs)).
  2:{ intros [= <-]. apply depth_field. }
  destruct (unionOf fs) as [[| | | |candidates|]|] eqn:Hu; try discriminate.
  destruct (unionOf_In _ _ Hu) as [ku Hin].
  pose proof (depth_field _ _ _ Hin) as Hcand.
  assert (Hvariant : forall x, In x (filter isVariant candidates) ->
                               In (k, v) (withDescription x fs) ->
                               depth v < depth (JObj fs)).
  { intros x Hx H. apply filter_In in Hx. destruct Hx as [Hx _].
    pose proof (depth_elem _ _ Hx).
    destruct (withDescription_depth _ _ _ _ H); lia. }
  destruct (filter isVariant candidates) as [|v1 [|v2 more]] eqn:Hvs.
  - intros [= <-]. apply depth_field.
  - intros [= <-]. apply Hvariant. left. reflexivity.
  - destruct (find isSpecific (v1 :: v2 :: more)) as [specific|] eqn:Hfind.
    + intros [= <-]. apply Hvariant. exact (proj1 (find_some _ _ Hfind)).
    + intros [= <-]. apply Hvariant. left. reflexivity.
Qed.

(** ** The recursion of [sanitizeSchema] is well founded *)

Lemma mapM_ext {A B} (f g : A -> result B) (l : list A) :
  (forall x, In x l -> f x = g x) -> mapM f l = mapM g l.
Proof.
  induction l as [|x l IH]; intros H; simpl; [reflexivity|].
  rewrite (H x (or_introl eq_refl)), IH; [reflexivity|].
  intros y Hy. apply H. right. exact Hy.
Qed.

Lemma cleanEntry_ext (rec1 rec2 : json -> result json) (clean : result fields)
  (key : string) (value : json) :
  (forall x, depth x <= depth value -> rec1 x = rec2 x) ->
  cleanEntry rec1 clean (key, value) = cleanEntry rec2 clean (key, value).
Proof.
  intros H. unfold cleanEntry. destruct clean as [clean|]; simpl; [|reflexivity].
  destruct (allowed key); simpl; [|reflexivity].
  destruct ((key =? "properties") && typeof_object value).
  - destruct (is_null value); [reflexivity|].
    rewrite (mapM_ext _ (fun e => bind (rec2 (snd e)) (fun v => Ok (fst e, v)))); [reflexivity|].
    intros [k v] Hin. simpl. rewrite H; [reflexivity|].
    pose proof (depth_entry _ _ _ Hin). lia.
  - destruct (key =? "items"); [|reflexivity]. rewrite H; [reflexivity|lia].
Qed.

Lemma fold_cleanEntry_ext (rec1 rec2 : json -> result json) (n : nat) (working : fields) :
  (forall x, depth x < n -> rec1 x = rec2 x) ->
  (forall k v, In (k, v) working -> depth v < n) ->
  forall clean,
    fold_left (cleanEntry rec1) working clean = fold_left (cleanEntry rec2) working clean.
Proof.
  intros Hrec. induction working as [|[k v] working IH]; intros Hdepth clean; simpl.
  - reflexivity.
  - rewrite (cleanEntry_ext rec1 rec2).
    + apply IH. intros k' v' H. apply (Hdepth k'). right. exact H.
    + intros x Hx. apply Hrec. specialize (Hdepth k v (or_introl eq_refl)). lia.
Qed.

Lemma sanitizeBody_ext (rec1 rec2 : json -> result json) (schema : json) :
  (forall x, depth x < depth schema -> rec1 x = rec2 x) ->
  sanitizeBody rec1 schema = sanitizeBody rec2 schema.
Proof.
  intros H. unfold sanitizeBody.
  destruct (negb (truthy schema) || negb (typeof_object schema)); [reflexivity|].
  destruct schema as [| | | |l|fs]; try reflexivity.
  - rewrite (mapM_ext rec1 rec2); [reflexivity|].
    intros x Hx. apply H, depth_elem, Hx.
  - destruct (flattenUnion fs) as [working|] eqn:Hw; simpl; [|reflexivity].
    unfold allowListed.
    rewrite (fold_cleanEntry_ext rec1 rec2 (depth (JObj fs)) working H); [reflexivity|].
    intros k v Hin. exact (flattenUnion_depth _ _ _ _ Hw Hin).
Qed.

Lemma sanitizeUpTo_stable (n m : nat) (schema : json) :
  depth schema < n -> depth schema < m ->
  sanitizeUpTo n schema = sanitizeUpTo m schema.
Proof.
  revert m schema. induction n as [|n IH]; intros m schema Hn Hm; [lia|].
  destruct m as [|m]; [lia|]. simpl.
  apply sanitizeBody_ext. intros x Hx. apply IH; lia.
Qed.

(** [sanitizeSchema] satisfies the equation the source defines it by. *)
Lemma sanitizeSchema_unfold (schema : json) :
  sanitizeSchema schema = sanitizeBody sanitizeSchema schema.
Proof.
  unfold sanitizeSchema at 1. simpl.
  apply sanitizeBody_ext. intros x Hx.
  unfold sanitizeSchema. apply sanitizeUpTo_stable; lia.
Qed.

(** ** The recursion of [ensureSchemaType] is well founded *)

Lemma lookup_withType (k : string) (s : fields) :
  k <> "type" -> lookup k (withType s) = lookup k s.
Proof.
  intros H. unfold withType. destruct (negb _); [|reflexivity].
  apply lookup_assign_other, H.
Qed.

Lemma lookup_withProperties (rec : json -> json) (k : string) (s : fields) :
  k <> "properties" -> lookup k (withProperties rec s) = lookup k s.
Proof.
  intros H. unfold withProperties. destruct (lookup "properties" s); [|reflexivity].
  destruct (_ && _); [|reflexivity]. apply lookup_assign_other, H.
Qed.

Lemma withProperties_ext (rec1 rec2 : json -> json) (n : nat) (s : fields) :
  (forall x, depth x < n -> rec1 x = rec2 x) ->
  (forall p, lookup "properties" s = Some p -> depth p < n) ->
  withProperties rec1 s = withProperties rec2 s.
Proof.
  intros H Hp. unfold withProperties.
  destruct (lookup "properties" s) as [p|]; [|reflexivity].
  destruct (_ && _); [|reflexivity].
  do 3 f_equal. apply map_ext_in. intros [k v] Hin. simpl. rewrite H; [reflexivity|].
  pose proof (depth_entry _ _ _ Hin). specialize (Hp p eq_refl). lia.
Qed.

Lemma withItems_ext (rec1 rec2 : json -> json) (n : nat) (s : fields) :
  (forall x, depth x < n -> rec1 x = rec2 x) ->
  (forall i, lookup "items" s = Some i -> depth i < n) ->
  withItems rec1 s = withItems rec2 s.
Proof.
  intros H Hi. unfold withItems.
  destruct (lookup "items" s) as [i|]; [|reflexivity].
  destruct (truthy i); [|reflexivity]. rewrite H; [reflexivity|]. apply Hi. reflexivity.
Qed.

Lemma ensureBody_ext (rec1 rec2 : json -> json) (schema : json) :
  (forall x, depth x < depth schema -> rec1 x = rec2 x) ->
  ensureBody rec1 schema = ensureBody rec2 schema.
Proof.
  intros H. unfold ensureBody.
  destruct (negb (truthy schema) || negb (typeof_object schema)); [reflexivity|].
  destruct schema as [| | | |l|fs]; try reflexivity.
  - f_equal. apply map_ext_in. intros x Hx. apply H, depth_elem, Hx.
  - f_equal.
    rewrite (withProperties_ext rec1 rec2 (depth (JObj fs)) _ H).
    + apply (withItems_ext rec1 rec2 (depth (JObj fs)) _ H).
      intros i Hi. rewrite lookup_withProperties, lookup_withType in Hi by discriminate.
      apply (depth_field "items"), lookup_In, Hi.
    + intros p Hp. rewrite lookup_withType in Hp by discriminate.
      apply (depth_field "properties"), lookup_In, Hp.
Qed.

Lemma ensureUpTo_stable (n m : nat) (schema : json) :
  depth schema < n -> depth schema < m ->
  ensureUpTo n schema = ensureUpTo m schema.
Proof.
  revert m schema. induction n as [|n IH]; intros m schema Hn Hm; [lia|].
  destruct m as [|m]; [lia|]. simpl.
  apply ensureBody_ext. intros x Hx. apply IH; lia.
Qed.

(** [ensureSchemaType] satisfies the equation the source defines it by. *)
Lemma ensureSchemaType_unfold (schema : json) :
  ensureSchemaType schema = ensureBody ensureSchemaType schema.
Proof.
  unfold ensureSchemaType at 1. simpl.
  apply ensureBody_ext. intros x Hx.
  unfold ensureSchemaType. apply ensureUpTo_stable; lia.
Qed.

(** ** What the allow-list pass returns *)

Lemma mapM_Ok_inv {A B} (f : A -> result B) (l : list A) (l' : list B) :
  mapM f l = Ok l' -> forall y, In y l' -> exists x, In x l /\ f x = Ok y.
Proof.
  revert l'. induction l as [|x l IH]; simpl; intros l' H y Hy.
  - injection H as <-. contradiction.
  - destruct (f x) as [b|] eqn:Hfx; simpl in H; [|discriminate].
    destruct (mapM f l) as [bs|] eqn:Hm; simpl in H; [|discriminate].
    injection H as <-. destruct Hy as [<- | Hy].
    + exists x. auto.
    + destruct (IH bs eq_refl y Hy) as (x' & Hx' & Hf). exists x'. auto.
Qed.

Lemma fold_cleanEntry_Throw (rec : json -> result json) (working : fields) :
  fold_left (cleanEntry rec) working Throw = Throw.
Proof. induction working as [|kv working IH]; simpl; [reflexivity|exact IH]. Qed.

Lemma Sanitized_empty : Sanitized (JObj []).
Proof.
  apply Sanitized_node; simpl; try contradiction. constructor.
Qed.

Section Sanitize.

Variable rec : json -> result json.
Variable d : nat.
Hypothesis rec_sanitized :
  forall x out, depth x < d -> rec x = Ok out -> Sanitized out.

Lemma cleanEntry_sanitized (clean clean' : fields) (key : string) (value : json) :
  depth value < d ->
  Sanitized (JObj clean) ->
  cleanEntry rec (Ok clean) (key, value) = Ok clean' ->
  Sanitized (JObj clean').
Proof.
  intros Hdepth Hclean.
  inversion Hclean as [v Ha Ho | | fs Hnd Hkeys Hprops Hitems];
    [destruct (Ho _ eq_refl) | subst fs].
  unfold cleanEntry. simpl bind.
  destruct (allowed key) eqn:Hallowed; simpl negb; cbv iota.
  2:{ intros [= <-]. exact Hclean. }
  destruct ((key =? "properties") && typeof_object value) eqn:Hp.
  - destruct (is_null value); [discriminate|].
    destruct (mapM _ (entries value)) as [es|] eqn:Hes; simpl; [|discriminate].
    intros [= <-]. apply Sanitized_node.
    + apply NoDup_assign, Hnd.
    + intros k v H. apply In_assign in H. destruct H as [[-> _] | H]; [reflexivity|].
      exact (Hkeys _ _ H).
    + intros p k v H Hkv. apply In_assign in H. destruct H as [[_ ->] | H].
      * simpl in Hkv. apply fromEntries_In in Hkv.
        destruct (mapM_Ok_inv _ _ _ Hes _ Hkv) as ([k0 v0] & Hin0 & Hrec).
        simpl in Hrec. destruct (rec v0) as [o|] eqn:Ho; simpl in Hrec; [|discriminate].
        injection Hrec as _ <-. apply (rec_sanitized v0); [|exact Ho].
        pose proof (depth_entry _ _ _ Hin0). lia.
      * exact (Hprops _ _ _ H Hkv).
    + intros v H. apply In_assign in H. destruct H as [[E _] | H]; [discriminate E|].
      exact (Hitems _ H).
  - destruct (String.eqb_spec key "items") as [->|Hni].
    + destruct (rec value) as [o|] eqn:Ho; simpl; [|discriminate].
      intros [= <-]. apply Sanitized_node.
      * apply NoDup_assign, Hnd.
      * intros k v H. apply In_assign in H. destruct H as [[-> _] | H]; [reflexivity|].
        exact (Hkeys _ _ H).
      * intros p k v H Hkv. apply In_assign in H. destruct H as [[E _] | H]; [discriminate E|].
        exact (Hprops _ _ _ H Hkv).
      * intros v H. apply In_assign in H. destruct H as [[_ ->] | H].
        -- exact (rec_sanitized _ _ Hdepth Ho).
        -- exact (Hitems _ H).
    + intros [= <-]. apply Sanitized_node.
      * apply NoDup_assign, Hnd.
      * intros k v H. apply In_assign in H. destruct H as [[-> _] | H]; [exact Hallowed|].
        exact (Hkeys _ _ H).
      * intros p k v H Hkv. apply In_assign in H. destruct H as [[<- ->] | H].
        -- simpl in Hp. destruct value; simpl in Hp, Hkv; try contradiction; discriminate Hp.
        -- exact (Hprops _ _ _ H Hkv).
      * intros v H. apply In_assign in H. destruct H as [[<- _] | H]; [congruence|].
        exact (Hitems _ H).
Qed.

Lemma fold_cleanEntry_sanitized (working clean out : fields) :
  (forall k v, In (k, v) working -> depth v < d) ->
  Sanitized (JObj clean) ->
  fold_left (cleanEntry rec) working (Ok clean) = Ok out ->
  Sanitized (JObj out).
Proof.
  revert clean. induction working as [|[key value] working IH];
    intros clean Hdepth Hclean H; cbn [fold_left] in H.
  - injection H as <-. exact Hclean.
  - destruct (cleanEntry rec (Ok clean) (key, value)) as [clean'|] eqn:Hstep.
    + apply (IH clean'); [| |exact H].
      * intros k v Hin. apply (Hdepth k). right. exact Hin.
      * apply (cleanEntry_sanitized _ _ _ _ (Hdepth _ _ (or_introl eq_refl)) Hclean Hstep).
    + rewrite fold_cleanEntry_Throw in H. discriminate H.
Qed.

Lemma sanitizeBody_sanitized (schema out : json) :
  depth schema <= d ->
  sanitizeBody rec schema = Ok out -> Sanitized out.
Proof.
  intros Hdepth. unfold sanitizeBody.
  destruct schema as [| |n|s|l|fs].
  1-4: (destruct (_ || _); intros [= <-]; apply Sanitized_leaf; intros ? E; discriminate E).
  - simpl. destruct (mapM rec l) as [l'|] eqn:Hl; simpl; [|discriminate].
    intros [= <-]. apply Sanitized_array. intros y Hy.
    destruct (mapM_Ok_inv _ _ _ Hl _ Hy) as (x & Hin & Hx).
    apply (rec_sanitized x); [|exact Hx].
    pose proof (depth_elem _ _ Hin). lia.
  - simpl. destruct (flattenUnion fs) as [working|] eqn:Hw; simpl; [|discriminate].
    unfold allowListed.
    destruct (fold_left (cleanEntry rec) working (Ok [])) as [clean|] eqn:Hfold;
      simpl; [|discriminate].
    intros [= <-]. apply (fold_cleanEntry_sanitized working [] clean); auto using Sanitized_empty.
    intros k v Hin. pose proof (flattenUnion_depth _ _ _ _ Hw Hin). lia.
Qed.

End Sanitize.

Lemma sanitizeUpTo_sanitized (n : nat) (schema out : json) :
  depth schema < n ->
  sanitizeUpTo n schema = Ok out -> Sanitized out.
Proof.
  revert schema out. induction n as [|n IH]; simpl; intros schema out Hn H; [lia|].
  apply (sanitizeBody_sanitized (sanitizeUpTo n) (depth schema)) with (schema := schema);
    [|lia|exact H].
  intros x o Hx. apply IH. lia.
Qed.

(** ** What type inference returns *)

Lemma inferType_truthy (s : fields) : truthy (JStr (inferType s)) = true.
Proof.
  unfold inferType.
  destruct (truthy_opt (lookup "properties" s)); [reflexivity|].
  destruct (truthy_opt (lookup "items" s)); [reflexivity|].
  destruct (truthy_opt (lookup "enum" s)); reflexivity.
Qed.

Lemma withType_truthy (s : fields) : truthy_opt (lookup "type" (withType s)) = true.
Proof.
  unfold withType. destruct (truthy_opt (lookup "type" s)) eqn:E; simpl.
  - exact E.
  - rewrite lookup_assign_same. apply inferType_truthy.
Qed.

Lemma withType_NoDup (s : fields) : NoDup (map fst s) -> NoDup (map fst (withType s)).
Proof. unfold withType. destruct (negb _); [apply NoDup_assign | auto]. Qed.

Lemma withType_keys (s : fields) (k : string) (v : json) :
  (forall k v, In (k, v) s -> allowed k = true) ->
  In (k, v) (withType s) -> allowed k = true.
Proof.
  intros H. unfold withType. destruct (negb _); [|apply H].
  intros Hin. apply In_assign in Hin. destruct Hin as [[-> _] | Hin]; [reflexivity|].
  exact (H _ _ Hin).
Qed.

Lemma falsy_is_leaf (v : json) :
  truthy v = false -> (forall l, v <> JArr l) /\ (forall fs, v <> JObj fs).
Proof. destruct v; simpl; try discriminate; intros _; split; intros ? E; discriminate E. Qed.

(** The keys the allow list lets through are the seven stated ones. *)
Lemma allowed_stated (k : string) : allowed k = true -> In k STATED_FIELDS.
Proof.
  unfold allowed, ALLOWED_SCHEMA_FIELDS, STATED_FIELDS. intros H.
  apply existsb_exists in H. destruct H as (x & Hx & Hk).
  apply String.eqb_eq in Hk. subst x. exact Hx.
Qed.

Section Ensure.

Variable rec : json -> json.
Variable fs : fields.
Hypothesis fs_sanitized : Sanitized (JObj fs).
Hypothesis rec_normalized :
  forall x, depth x < depth (JObj fs) -> Sanitized x -> Normalized (rec x).

Let s1 : fields := withType fs.
Let s2 : fields := withProperties rec s1.
Let s3 : fields := withItems rec s2.

Lemma fs_parts :
  NoDup (map fst fs) /\
  (forall k v, In (k, v) fs -> allowed k = true) /\
  (forall p k v, In ("properties", p) fs -> In (k, v) (entries p) -> Sanitized v) /\
  (forall v, In ("items", v) fs -> Sanitized v).
Proof.
  inversion fs_sanitized as [v _ Ho | | fs' Hnd Hkeys Hprops Hitems];
    [destruct (Ho _ eq_refl) | auto].
Qed.

Lemma s2_NoDup : NoDup (map fst s2).
Proof.
  unfold s2, s1, withProperties.
  destruct (lookup "properties" (withType fs)); [|apply withType_NoDup, fs_parts].
  destruct (_ && _); [apply NoDup_assign|]; apply withType_NoDup, fs_parts.
Qed.

Lemma s3_NoDup : NoDup (map fst s3).
Proof.
  unfold s3, withItems.
  destruct (lookup "items" s2); [|apply s2_NoDup].
  destruct (truthy j); [apply NoDup_assign|]; apply s2_NoDup.
Qed.

Lemma s3_keys (k : string) (v : json) : In (k, v) s3 -> allowed k = true.
Proof.
  assert (H1 : forall k v, In (k, v) s1 -> allowed k = true).
  { intros k' v'. apply withType_keys, fs_parts. }
  assert (H2 : forall k v, In (k, v) s2 -> allowed k = true).
  { intros k' v'. unfold s2, withProperties.
    destruct (lookup "properties" s1); [|apply H1].
    destruct (_ && _); [|apply H1].
    intros Hin. apply In_assign in Hin. destruct Hin as [[-> _] | Hin]; [reflexivity|].
    exact (H1 _ _ Hin). }
  unfold s3, withItems.
  destruct (lookup "items" s2); [|apply H2].
  destruct (truthy j); [|apply H2].
  intros Hin. apply In_assign in Hin. destruct Hin as [[-> _] | Hin]; [reflexivity|].
  exact (H2 _ _ Hin).
Qed.

Lemma s3_type : truthy_opt (lookup "type" s3) = true.
Proof.
  unfold s3, s2, s1.
  assert (E : lookup "type" (withItems rec (withProperties rec (withType fs)))
              = lookup "type" (withType fs)).
  { unfold withItems. destruct (lookup "items" _).
    - destruct (truthy j).
      + rewrite lookup_assign_other by discriminate.
        apply lookup_withProperties. discriminate.
      + apply lookup_withProperties. discriminate.
    - apply lookup_withProperties. discriminate. }
  rewrite E. apply withType_truthy.
Qed.

Lemma s3_properties (p : json) (k : string) (v : json) :
  In ("properties", p) s3 -> In (k, v) (entries p) -> Normalized v.
Proof.
  intros Hin Hkv.
  assert (Hin2 : In ("properties", p) s2).
  { unfold s3, withItems in Hin. destruct (lookup "items" s2); [|exact Hin].
    destruct (truthy j); [|exact Hin].
    apply In_assign in Hin. destruct Hin as [[E _] | Hin]; [discriminate E | exact Hin]. }
  apply (In_lookup_nodup _ _ _ s2_NoDup) in Hin2.
  unfold s2, withProperties in Hin2.
  assert (Hfs : lookup "properties" s1 = lookup "properties" fs)
    by (apply lookup_withType; discriminate).
  destruct (lookup "properties" s1) as [p0|] eqn:Hp0.
  - symmetry in Hfs. apply lookup_In in Hfs.
    destruct (truthy p0 && typeof_object p0) eqn:Hobj.
    + rewrite lookup_assign_same in Hin2. injection Hin2 as <-.
      simpl in Hkv. apply fromEntries_In in Hkv. apply in_map_iff in Hkv.
      destruct Hkv as ([k0 v0] & [= <- <-] & Hin0).
      apply rec_normalized.
      * pose proof (depth_entry _ _ _ Hin0). pose proof (depth_field _ _ _ Hfs). lia.
      * exact (proj1 (proj2 (proj2 fs_parts)) _ _ _ Hfs Hin0).
    + rewrite Hp0 in Hin2. injection Hin2 as <-.
      destruct p0; simpl in Hobj, Hkv; try contradiction; discriminate Hobj.
  - rewrite Hp0 in Hin2. discriminate Hin2.
Qed.

Lemma s3_items (v : json) : In ("items", v) s3 -> Normalized v.
Proof.
  intros Hin. apply (In_lookup_nodup _ _ _ s3_NoDup) in Hin.
  unfold s3, withItems in Hin.
  assert (Hfs : lookup "items" s2 = lookup "items" fs).
  { unfold s2, s1. rewrite lookup_withProperties, lookup_withType by discriminate.
    reflexivity. }
  destruct (lookup "items" s2) as [i|] eqn:Hi.
  - symmetry in Hfs. apply lookup_In in Hfs.
    destruct (truthy i) eqn:Ht.
    + rewrite lookup_assign_same in Hin. injection Hin as <-.
      apply rec_normalized.
      * exact (depth_field _ _ _ Hfs).
      * exact (proj2 (proj2 (proj2 fs_parts)) _ Hfs).
    + rewrite Hi in Hin. injection Hin as <-.
      destruct (falsy_is_leaf _ Ht). apply Normalized_leaf; assumption.
  - rewrite Hi in Hin. discriminate Hin.
Qed.

Lemma ensureBody_node_normalized : Normalized (ensureBody rec (JObj fs)).
Proof.
  change (ensureBody rec (JObj fs)) with (JObj s3).
  apply Normalized_node.
  - intros k v Hin. exact (allowed_stated k (s3_keys k v Hin)).
  - exact s3_type.
  - exact s3_properties.
  - exact s3_items.
Qed.

End Ensure.

Lemma ensureBody_normalized (rec : json -> json) (schema : json) :
  (forall x, depth x < depth schema -> Sanitized x -> Normalized (rec x)) ->
  Sanitized schema -> Normalized (ensureBody rec schema).
Proof.
  intros Hrec Hs. destruct Hs as [v Ha Ho | l Hl | fs Hnd Hkeys Hprops Hitems].
  - replace (ensureBody rec v) with v.
    + apply Normalized_leaf; assumption.
    + unfold ensureBody. destruct (_ || _); [reflexivity|].
      destruct v; try reflexivity; [destruct (Ha _ eq_refl) | destruct (Ho _ eq_refl)].
  - change (ensureBody rec (JArr l)) with (JArr (map rec l)).
    apply Normalized_array. intros y Hy. apply in_map_iff in Hy.
    destruct Hy as (x & <- & Hx). apply Hrec; [apply depth_elem, Hx | apply Hl, Hx].
  - apply ensureBody_node_normalized; [|exact Hrec].
    apply Sanitized_node; assumption.
Qed.

Lemma ensureUpTo_normalized (n : nat) (schema : json) :
  depth schema < n -> Sanitized schema -> Normalized (ensureUpTo n schema).
Proof.
  revert schema. induction n as [|n IH]; intros schema Hn Hs; [lia|]. simpl.
  apply ensureBody_normalized; [|exact Hs].
  intros x Hx. apply IH. lia.
Qed.

Lemma normalize_normalized (input_schema : option json) (out : json) :
  normalize input_schema = Ok out -> Normalized out.
Proof.
  unfold normalize.
  destruct (sanitizeSchema _) as [s|] eqn:Hs; simpl; [|discriminate].
  intros [= <-]. apply ensureUpTo_normalized; [lia|].
  apply (sanitizeUpTo_sanitized _ _ _ (Nat.lt_succ_diag_r _) Hs).
Qed.

Lemma lookup_withItems (rec : json -> json) (k : string) (s : fields) :
  k <> "items" -> lookup k (withItems rec s) = lookup k s.
Proof.
  intros H. unfold withItems. destruct (lookup "items" s); [|reflexivity].
  destruct (truthy j); [|reflexivity]. apply lookup_assign_other, H.
Qed.

Lemma ensureSchemaType_node (fs : fields) :
  ensureSchemaType (JObj fs) =
    JObj (withItems ensureSchemaType (withProperties ensureSchemaType (withType fs))).
Proof. rewrite ensureSchemaType_unfold. reflexivity. Qed.

(** ** The normaliser returns on every accepted schema *)

Lemma mapM_total {A B} (f : A -> result B) (l : list A) :
  (forall x, In x l -> exists y, f x = Ok y) -> exists l', mapM f l = Ok l'.
Proof.
  induction l as [|x l IH]; intros H; simpl.
  - exists []. reflexivity.
  - destruct (H x (or_introl eq_refl)) as [y ->].
    destruct IH as [l' ->]; [intros z Hz; apply H; right; exact Hz|].
    exists (y :: l'). reflexivity.
Qed.

Lemma accepted_fields (fs : fields) (k : string) (v : json) :
  accepted (JObj fs) = true -> In (k, v) fs ->
  accepted v = true /\ (k = "anyOf" \/ k = "oneOf" -> is_array v = true).
Proof.
  simpl. intros H Hin. rewrite forallb_forall in H. specialize (H _ Hin).
  unfold entry_accepted in H. simpl in H. apply andb_prop in H. destruct H as [Hv Hu].
  split; [exact Hv|]. intros [-> | ->]; exact Hu.
Qed.

Lemma accepted_entries (p : json) (k : string) (v : json) :
  accepted p = true -> In (k, v) (entries p) -> accepted v = true.
Proof.
  destruct p; simpl entries; try contradiction.
  - simpl. intros H Hin. rewrite forallb_forall in H.
    apply H. exact (indexed_from_In _ _ _ _ Hin).
  - intros H Hin. exact (proj1 (accepted_fields _ _ _ H Hin)).
Qed.

Lemma unionOf_key (fs : fields) (u : json) :
  unionOf fs = Some u -> In ("anyOf", u) fs \/ In ("oneOf", u) fs.
Proof.
  unfold unionOf, js_or. destruct (truthy_opt (lookup "anyOf" fs)); intros H.
  - left. apply lookup_In, H.
  - right. apply lookup_In, H.
Qed.

Lemma withDescription_accepted (variant : json) (fs : fields) (k : string) (v : json) :
  accepted variant = true -> accepted (JObj fs) = true ->
  In (k, v) (withDescription variant fs) -> accepted v = true.
Proof.
  intros Hvar Hfs. unfold withDescription.
  destruct (lookup "description" fs) as [d|] eqn:Hd.
  - destruct (truthy d).
    + intros H. apply In_assign in H. destruct H as [[_ ->] | H].
      * exact (proj1 (accepted_fields _ _ _ Hfs (lookup_In _ _ _ Hd))).
      * exact (accepted_entries _ _ _ Hvar H).
    + apply accepted_entries, Hvar.
  - apply accepted_entries, Hvar.
Qed.

Lemma flattenUnion_accepted (fs : fields) :
  accepted (JObj fs) = true ->
  exists working,
    flattenUnion fs = Ok working /\
    forall k v, In (k, v) working -> accepted v = true.
Proof.
  intros Hfs.
  assert (Hself : forall k v, In (k, v) fs -> accepted v = true)
    by (intros k v Hin; exact (proj1 (accepted_fields _ _ _ Hfs Hin))).
  unfold flattenUnion. destruct (truthy_opt (unionOf fs)) eqn:Ht;
    [|exists fs; split; [reflexivity|exact Hself]].
  destruct (unionOf fs) as [u|] eqn:Hu; [|discriminate Ht].
  assert (Harr : is_array u = true /\ accepted u = true).
  { destruct (unionOf_key _ _ Hu) as [Hin | Hin];
      destruct (accepted_fields _ _ _ Hfs Hin) as [Ha Hk]; split; auto. }
  destruct Harr as [Harr Hacc]. destruct u as [| | | |candidates|]; try discriminate Harr.
  simpl in Hacc. rewrite forallb_forall in Hacc.
  assert (Hvariant : forall x, In x (filter isVariant candidates) ->
                               forall k v, In (k, v) (withDescription x fs) ->
                                           accepted v = true).
  { intros x Hx k v. apply withDescription_accepted; [|exact Hfs].
    apply Hacc. apply filter_In in Hx. exact (proj1 Hx). }
  destruct (filter isVariant candidates) as [|v1 [|v2 more]] eqn:Hvs.
  - exists fs. split; [reflexivity|exact Hself].
  - eexists. split; [reflexivity|]. apply Hvariant. left. reflexivity.
  - destruct (find isSpecific (v1 :: v2 :: more)) as [specific|] eqn:Hfind.
    + eexists. split; [reflexivity|]. apply Hvariant. exact (proj1 (find_some _ _ Hfind)).
    + eexists. split; [reflexivity|]. apply Hvariant. left. reflexivity.
Qed.

Lemma cleanEntry_total (rec : json -> result json) (clean : fields)
  (key : string) (value : json) :
  accepted value = true ->
  (forall x, depth x <= depth value -> accepted x = true -> exists o, rec x = Ok o) ->
  exists clean', cleanEntry rec (Ok clean) (key, value) = Ok clean'.
Proof.
  intros Hacc Hrec. unfold cleanEntry. simpl bind.
  destruct (negb (allowed key)); [eexists; reflexivity|].
  destruct ((key =? "properties") && typeof_object value).
  - destruct value; try discriminate Hacc; simpl is_null; cbv iota;
      (match goal with
       | |- exists c, bind (mapM ?f ?l) _ = Ok c =>
           destruct (mapM_total f l) as [es ->]; [|eexists; reflexivity]
       end;
       intros [k v] Hin; simpl;
       destruct (Hrec v) as [o ->];
       [ pose proof (depth_entry _ _ _ Hin); lia
       | exact (accepted_entries _ _ _ Hacc Hin)
       | eexists; reflexivity ]).
  - destruct (key =? "items"); [|eexists; reflexivity].
    destruct (Hrec value (le_n _) Hacc) as [o ->]. eexists. reflexivity.
Qed.

Lemma fold_cleanEntry_total (rec : json -> result json) (n : nat) (working : fields) :
  (forall x, depth x < n -> accepted x = true -> exists o, rec x = Ok o) ->
  (forall k v, In (k, v) working -> accepted v = true /\ depth v < n) ->
  forall clean, exists out, fold_left (cleanEntry rec) working (Ok clean) = Ok out.
Proof.
  intros Hrec. induction working as [|[key value] working IH]; intros Hw clean;
    cbn [fold_left].
  - exists clean. reflexivity.
  - destruct (Hw key value (or_introl eq_refl)) as [Hacc Hdepth].
    destruct (cleanEntry_total rec clean key value Hacc) as [clean' ->].
    + intros x Hx. apply Hrec. lia.
    + apply IH. intros k v Hin. apply (Hw k). right. exact Hin.
Qed.

Lemma sanitizeSchema_total (schema : json) :
  accepted schema = true -> exists out, sanitizeSchema schema = Ok out.
Proof.
  remember (S (depth schema)) as n eqn:Hn.
  assert (Hlt : depth schema < n) by lia. clear Hn.
  revert schema Hlt. induction n as [|n IH]; intros schema Hlt Hacc; [lia|].
  rewrite sanitizeSchema_unfold. unfold sanitizeBody.
  destruct (negb (truthy schema) || negb (typeof_object schema)); [eexists; reflexivity|].
  destruct schema as [| | | |l|fs]; try (eexists; reflexivity).
  - destruct (mapM_total sanitizeSchema l) as [l' ->]; [|eexists; reflexivity].
    intros x Hx. pose proof (depth_elem _ _ Hx). apply IH; [lia|].
    simpl in Hacc. rewrite forallb_forall in Hacc. exact (Hacc _ Hx).
  - destruct (flattenUnion_accepted fs Hacc) as (working & Hw & Hvals).
    rewrite Hw. change (exists out, allowListed sanitizeSchema working = Ok out).
    unfold allowListed.
    assert (Hfold : exists out,
               fold_left (cleanEntry sanitizeSchema) working (Ok []) = Ok out).
    { apply (fold_cleanEntry_total sanitizeSchema (depth (JObj fs)) working).
      - intros x Hx. apply IH. lia.
      - intros k v Hin. split; [exact (Hvals _ _ Hin)|].
        exact (flattenUnion_depth _ _ _ _ Hw Hin). }
    destruct Hfold as [out ->]. eexists. reflexivity.
Qed.

(** [stripDollarSchema] keeps a schema accepted. *)
Lemma forallb_assign (P : string * json -> bool) (k : string) (v : json) (fs : fields) :
  P (k, v) = true -> forallb P fs = true -> forallb P (assign k v fs) = true.
Proof.
  intros Hkv. induction fs as [|[k' v'] fs IH]; simpl; intros H.
  - rewrite Hkv. reflexivity.
  - apply andb_prop in H. destruct H as [H1 H2].
    destruct (String.eqb_spec k' k) as [->|_]; simpl.
    + rewrite Hkv, H2. reflexivity.
    + rewrite H1, (IH H2). reflexivity.
Qed.

Lemma is_array_strip (v : json) : is_array (stripDollarSchema v) = is_array v.
Proof. destruct v; reflexivity. Qed.

Lemma stripEntries_accepted (es : fields) :
  (forall k v, In (k, v) es -> accepted v = true -> accepted (stripDollarSchema v) = true) ->
  forallb (entry_accepted accepted) es = true ->
  forall clean,
    forallb (entry_accepted accepted) clean = true ->
    forallb (entry_accepted accepted) (stripEntries stripDollarSchema es clean) = true.
Proof.
  induction es as [|[key value] es IH]; intros Hrec Hes clean Hclean; simpl.
  - exact Hclean.
  - simpl in Hes. apply andb_prop in Hes. destruct Hes as [Hkv Hes].
    assert (Hrec' : forall k v, In (k, v) es -> accepted v = true ->
                                accepted (stripDollarSchema v) = true)
      by (intros k v Hin; apply (Hrec k); right; exact Hin).
    destruct (prefix "$" key); [apply IH; assumption|].
    destruct (key =? "__proto__"); [apply IH; assumption|].
    destruct (typeof_object value && negb (is_null value)).
    + apply IH; try assumption. apply forallb_assign; [|exact Hclean].
      unfold entry_accepted in *. simpl in *. apply andb_prop in Hkv.
      destruct Hkv as [Hv Hu]. rewrite is_array_strip, Hu.
      rewrite (Hrec key value (or_introl eq_refl) Hv). reflexivity.
    + apply IH; try assumption. apply forallb_assign; assumption.
Qed.

Lemma stripDollarSchema_accepted (schema : json) :
  accepted schema = true -> accepted (stripDollarSchema schema) = true.
Proof.
  remember (S (depth schema)) as n eqn:Hn.
  assert (Hlt : depth schema < n) by lia. clear Hn.
  revert schema Hlt. induction n as [|n IH]; intros schema Hlt Hacc; [lia|].
  destruct schema as [| | | |l|fs]; try exact Hacc.
  - change (forallb accepted (map stripDollarSchema l) = true).
    change (forallb accepted l = true) in Hacc.
    rewrite forallb_forall in *. intros y Hy.
    apply in_map_iff in Hy. destruct Hy as (x & <- & Hx).
    pose proof (depth_elem _ _ Hx). apply IH; [lia | exact (Hacc _ Hx)].
  - change (forallb (entry_accepted accepted) (stripEntries stripDollarSchema fs []) = true).
    apply stripEntries_accepted; [|exact Hacc|reflexivity].
    intros k v Hin Hv. pose proof (depth_field _ _ _ Hin). apply IH; [lia|exact Hv].
Qed.

(** On an accepted schema the normaliser returns, and what it returns
    is normalised. *)
Lemma normalize_total (schema : json) :
  accepted schema = true ->
  exists out, normalize (Some schema) = Ok out /\ Normalized out.
Proof.
  intros Hacc.
  assert (Hin : accepted (or_default (Some schema) (JObj [])) = true).
  { simpl. destruct (truthy schema); [exact Hacc | reflexivity]. }
  destruct (sanitizeSchema_total _ (stripDollarSchema_accepted _ Hin)) as [s Hs].
  exists (ensureSchemaType s). split.
  - unfold normalize. rewrite Hs. reflexivity.
  - apply normalize_normalized with (input_schema := Some schema).
    unfold normalize. rewrite Hs. reflexivity.
Qed.

(** The specification's wording of C6 fails: a type that is an empty
    list is emitted as it came; a schema that is not an object, here
    [true] under [properties], is emitted without a type; and a node
    whose [items] is [false] has items and is given the type "object". *)
Lemma schema_as_stated_fails :
  normalize (Some (JObj [("type", JArr [])])) = Ok (JObj [("type", JArr [])]) /\
  normalize (Some (JObj [("properties", JObj [("x", JBool true)])]))
  = Ok (JObj [("properties", JObj [("x", JBool true)]); ("type", JStr "object")]) /\
  normalize (Some (JObj [("items", JBool false)]))
  = Ok (JObj [("items", JBool false); ("type", JStr "object")]) /\
  ~ emitted_as_stated /\
  ~ inferred_as_stated.
Proof.
  split; [reflexivity|]. split; [reflexivity|]. split; [reflexivity|]. split.
  - intros H. specialize (H (Some (JObj [("type", JArr [])])) _ eq_refl).
    discriminate H.
  - intros H. specialize (H [("items", JBool false)] eq_refl).
    vm_compute in H. discriminate H.
Qed.

Lemma leaf_passes (v : json) :
  (forall l, v <> JArr l) -> (forall fs, v <> JObj fs) ->
  stripDollarSchema v = v /\ sanitizeSchema v = Ok v /\ ensureSchemaType v = v.
Proof.
  intros Ha Ho.
  destruct v as [| | | |l|fs];
    [| | | |destruct (Ha _ eq_refl) | destruct (Ho _ eq_refl)];
    (split; [reflexivity|]);
    unfold sanitizeSchema, ensureSchemaType; simpl;
    unfold sanitizeBody, ensureBody; cbn [typeof_object negb];
    rewrite ?orb_true_r; split; reflexivity.
Qed.

(** C6, amended: in every schema the normaliser returns, every object
    standing where a schema is expected (the schema, a value under
    [properties], the value under [items], an element of a list standing
    there) carries only fields among type, description, properties,
    required, items, enum and nullable, and a [type] that is truthy
    (present, and none of [null], [false], 0 and the empty string; an
    empty list passes); a value standing there that is neither an object
    nor a list is emitted as it came, without a type.  A node whose
    [type] is missing or falsy gets "object" if its [properties] is
    truthy, else "array" if its [items] is truthy, else "string" if its
    [enum] is truthy, else "object"; a truthy type is kept.  The
    inference descends through a [properties] that is an object or a
    list, a truthy [items] and the elements of a list.  The normaliser
    returns on every schema that holds no [null] and whose unions are
    lists. *)
Theorem normalized_nodes_allowed_and_typed :
  (forall input_schema out, normalize input_schema = Ok out -> Normalized out) /\
  (forall schema,
      accepted schema = true ->
      exists out, normalize (Some schema) = Ok out /\ Normalized out) /\
  (forall v,
      (forall l, v <> JArr l) -> (forall fs, v <> JObj fs) ->
      stripDollarSchema v = v /\ sanitizeSchema v = Ok v /\ ensureSchemaType v = v) /\
  (forall fs,
      truthy_opt (lookup "type" fs) = false ->
      get "type" (ensureSchemaType (JObj fs)) =
        Some (JStr (if truthy_opt (lookup "properties" fs) then "object"
                    else if truthy_opt (lookup "items" fs) then "array"
                    else if truthy_opt (lookup "enum" fs) then "string"
                    else "object"))) /\
  (forall fs,
      truthy_opt (lookup "type" fs) = true ->
      get "type" (ensureSchemaType (JObj fs)) = lookup "type" fs) /\
  (forall fs p,
      lookup "properties" fs = Some p ->
      truthy p && typeof_object p = true ->
      get "properties" (ensureSchemaType (JObj fs)) =
        Some (JObj (fromEntries
                      (map (fun e => (fst e, ensureSchemaType (snd e))) (entries p))))) /\
  (forall fs i,
      lookup "items" fs = Some i ->
      truthy i = true ->
      get "items" (ensureSchemaType (JObj fs)) = Some (ensureSchemaType i)) /\
  (forall l, ensureSchemaType (JArr l) = JArr (map ensureSchemaType l)) /\
  normalize (Some (JObj [("properties", JObj [("x", JObj [("type", JStr "string")])])]))
  = Ok (JObj [("properties", JObj [("x", JObj [("type", JStr "string")])]);
              ("type", JStr "object")]).
Proof.
  split; [exact normalize_normalized|].
  split; [exact normalize_total|].
  split; [exact leaf_passes|].
  split; [|split; [|split; [|split; [|split]]]].
  - intros fs Hfalsy. rewrite ensureSchemaType_node. simpl get.
    rewrite lookup_withItems, lookup_withProperties by discriminate.
    unfold withType. rewrite Hfalsy. simpl negb. cbv iota.
    rewrite lookup_assign_same. reflexivity.
  - intros fs Htruthy. rewrite ensureSchemaType_node. simpl get.
    rewrite lookup_withItems, lookup_withProperties by discriminate.
    unfold withType. rewrite Htruthy. reflexivity.
  - intros fs p Hp Hobj. rewrite ensureSchemaType_node. simpl get.
    rewrite lookup_withItems by discriminate.
    unfold withProperties. rewrite lookup_withType by discriminate.
    rewrite Hp, Hobj. apply lookup_assign_same.
  - intros fs i Hi Ht. rewrite ensureSchemaType_node. simpl get.
    unfold withItems. rewrite lookup_withProperties, lookup_withType by discriminate.
    rewrite Hi, Ht. apply lookup_assign_same.
  - intros l. rewrite ensureSchemaType_unfold. reflexivity.
  - reflexivity.
Qed.

(** A schema with references, a union under a property and a tuple of
    item schemas: every node of what comes out is allowed and typed. *)
Lemma normalized_nodes_allowed_and_typed_witness :
  Normalized
    (JObj [("properties",
            JObj [("x", JObj [("enum", JArr [JStr "a"]); ("description", JStr "d");
                              ("type", JStr "string")])]);
           ("items", JArr [JObj [("type", JStr "object")]]);
           ("type", JStr "object")]).
Proof.
  apply (proj1 normalized_nodes_allowed_and_typed
           (Some (JObj [("$schema", JStr "x");
                        ("properties",
                         JObj [("x", JObj [("anyOf",
                                            JArr [JObj [("type", JStr "string")];
                                                  JObj [("enum", JArr [JStr "a"]);
                                                        ("minLength", JNum 1)]]);
                                           ("description", JStr "d")])]);
                        ("items", JArr [JObj []])]))).
  reflexivity.
Defined.

(** ** Union flattening *)

Lemma find_first (A : Type) (f : A -> bool) (pre post : list A) (x : A) :
  (forall y, In y pre -> f y = false) -> f x = true ->
  find f (pre ++ x :: post) = Some x.
Proof.
  intros Hpre Hx. induction pre as [|y pre IH]; simpl.
  - rewrite Hx. reflexivity.
  - rewrite (Hpre y (or_introl eq_refl)). apply IH.
    intros z Hz. apply Hpre. right. exact Hz.
Qed.

Lemma find_none_all (A : Type) (f : A -> bool) (l : list A) :
  (forall y, In y l -> f y = false) -> find f l = None.
Proof.
  intros H. induction l as [|y l IH]; simpl; [reflexivity|].
  rewrite (H y (or_introl eq_refl)). apply IH. intros z Hz. apply H. right. exact Hz.
Qed.

Lemma sanitizeSchema_node (fs : fields) :
  sanitizeSchema (JObj fs) = bind (flattenUnion fs) (allowListed sanitizeSchema).
Proof. rewrite sanitizeSchema_unfold. reflexivity. Qed.


(** ** The allow-list pass, key by key *)

Lemma cleanEntry_stored (rec : json -> result json) (clean : fields)
  (key : string) (value : json) :
  cleanEntry rec (Ok clean) (key, value)
  = if negb (allowed key) then Ok clean
    else (v <- stored rec key value ;; Ok (assign key v clean)).
Proof.
  unfold cleanEntry, stored. cbn [bind].
  destruct (negb (allowed key)); [reflexivity|].
  destruct (String.eqb_spec key "properties") as [->|Hp]; cbn [andb].
  - destruct (typeof_object value); [|reflexivity].
    destruct (is_null value); [reflexivity|].
    destruct (mapM _ (entries value)); reflexivity.
  - destruct (String.eqb_spec key "items") as [->|Hi]; [|reflexivity].
    destruct (rec value); reflexivity.
Qed.

Lemma lookup_fresh (k : string) (fs : fields) :
  ~ In k (map fst fs) -> lookup k fs = None.
Proof.
  intros H. destruct (lookup k fs) as [v|] eqn:E; [|reflexivity].
  exfalso. apply H. apply lookup_In in E. apply (in_map fst) in E. exact E.
Qed.

Lemma fold_cleanEntry_lookup (rec : json -> result json) (es clean out : fields) :
  NoDup (map fst es) ->
  fold_left (cleanEntry rec) es (Ok clean) = Ok out ->
  forall k,
    lookup k out =
      match lookup k es with
      | Some value =>
          if allowed k
          then match stored rec k value with Ok v => Some v | Throw => None end
          else lookup k clean
      | None => lookup k clean
      end.
Proof.
  revert clean. induction es as [|[key value] es IH]; intros clean Hnd Hfold k.
  - injection Hfold as <-. reflexivity.
  - inversion Hnd as [|? ? Hfresh Hnd']; subst.
    cbn [fold_left] in Hfold. rewrite cleanEntry_stored in Hfold.
    cbn [lookup]. destruct (allowed key) eqn:Hallowed; cbn [negb] in Hfold.
    + destruct (stored rec key value) as [v|] eqn:Hstored; cbn [bind] in Hfold;
        [|rewrite fold_cleanEntry_Throw in Hfold; discriminate Hfold].
      rewrite (IH _ Hnd' Hfold k).
      destruct (String.eqb_spec key k) as [->|Hne].
      * rewrite (lookup_fresh _ _ Hfresh), Hallowed, Hstored.
        apply lookup_assign_same.
      * assert (Hother : lookup k (assign key v clean) = lookup k clean)
          by (apply lookup_assign_other; congruence).
        destruct (lookup k es); [destruct (allowed k); [reflexivity|]|]; exact Hother.
    + rewrite (IH _ Hnd' Hfold k).
      destruct (String.eqb_spec key k) as [->|Hne]; [|reflexivity].
      rewrite (lookup_fresh _ _ Hfresh), Hallowed. reflexivity.
Qed.

(** The allow-list pass on an object that holds each key once: a key
    that is not allowed is dropped, the other keys hold what [stored]
    gives for them. *)
Lemma allowListed_lookup (working : fields) (out : json) :
  NoDup (map fst working) ->
  allowListed sanitizeSchema working = Ok out ->
  forall k,
    get k out =
      match lookup k working with
      | Some value =>
          if allowed k
          then match stored sanitizeSchema k value with Ok v => Some v | Throw => None end
          else None
      | None => None
      end.
Proof.
  unfold allowListed. intros Hnd H k.
  destruct (fold_left (cleanEntry sanitizeSchema) working (Ok [])) as [clean|] eqn:Hfold;
    [|discriminate H].
  injection H as <-. cbn [get].
  exact (fold_cleanEntry_lookup sanitizeSchema working [] clean Hnd Hfold k).
Qed.



Example enum_candidate_run :
  sanitizeSchema
    (JObj [("description", JStr "mode");
           ("anyOf", JArr [JObj [("type", JStr "string")];
                           JObj [("enum", JArr [JStr "a"; JStr "b"])]])])
  = Ok (JObj [("enum", JArr [JStr "a"; JStr "b"]); ("description", JStr "mode")]).
Proof. reflexivity. Qed.

(** A union that is not an array, or [properties: null], makes the
    normaliser throw. *)
Example normalize_throws :
  normalize (Some (JObj [("anyOf", JStr "x")])) = Throw /\
  normalize (Some (JObj [("properties", JNull)])) = Throw.
Proof. split; reflexivity. Qed.

End SchemaFacts.

(* ================================================================== *)
(** * Stream translator: facts                                         *)
(* ================================================================== *)

Module StreamFacts.
Import Backend Stream Properties.

Lemma run_app (c : cursor) (l1 l2 : list event) :
  run c (l1 ++ l2) =
    match run c l1 with
    | Some c' => run c' l2
    | None => None
    end.
Proof.
  revert c. induction l1 as [|e l1 IH]; intros c; simpl; [reflexivity|].
  destruct (observe c e); [apply IH|reflexivity].
Qed.

Lemma or_default_num (n : Z) : or_default (Some (JNum n)) (JNum 0) = JNum n.
Proof.
  unfold or_default, truthy. destruct (Z.eqb_spec n 0) as [->|_]; reflexivity.
Qed.

Section Translate.

Variable trim : string -> string.
Variable JSON_parse : string -> option json.
Variable JSON_stringify : json -> string.
Variable js_String : json -> string.
Variable toolId : nat -> string.
Variable msgId : string.
Variable anthropicModel : option json.

Local Abbreviation tracks := (Properties.tracks msgId anthropicModel).

Lemma tracks_initial : tracks (initial msgId anthropicModel).
Proof. exists []. split; reflexivity. Qed.

(** Writing a block event the observer accepts keeps [tracks]. *)
Lemma tracks_write (st : state) (e : event) (index : nat) (open' : bool) :
  tracks st ->
  observe (mkCursor (contentIndex st) (started st)) e = Some (mkCursor index open') ->
  tracks (setBlock index open' (write e st)).
Proof.
  intros (body & Hw & Hrun) Hobs. exists (body ++ [e]). split.
  - simpl. rewrite Hw. reflexivity.
  - rewrite run_app, Hrun. simpl. rewrite Hobs. reflexivity.
Qed.

Lemma setBlock_same (st : state) : setBlock (contentIndex st) (started st) st = st.
Proof. destruct st. reflexivity. Qed.

Lemma tracks_delta (st : state) (d : delta) :
  tracks st -> started st = true ->
  tracks (write (content_block_delta (contentIndex st) d) st).
Proof.
  intros H Hs.
  rewrite <- (setBlock_same (write _ st)). simpl contentIndex. simpl started.
  apply tracks_write; [exact H|]. simpl. rewrite Hs, Nat.eqb_refl. reflexivity.
Qed.

Lemma tracks_textStep (text : json) (st : state) : tracks st -> tracks (textStep text st).
Proof.
  intros H. unfold textStep. destruct (started st) eqn:Hs.
  - apply tracks_delta; assumption.
  - apply (tracks_delta (setBlock _ _ _)); [|reflexivity].
    apply tracks_write; [exact H|]. simpl. rewrite Hs, Nat.eqb_refl. reflexivity.
Qed.

Lemma tracks_draw (st : state) : tracks st -> tracks (draw st).
Proof. intros H. exact H. Qed.

(** A whole tool block written from a state with no block open. *)
Lemma tracks_toolBlock (st : state) (b : block) (d : delta) :
  tracks st -> started st = false ->
  tracks (setBlock (S (contentIndex st)) false
            (write (content_block_stop (contentIndex st))
               (write (content_block_delta (contentIndex st) d)
                  (write (content_block_start (contentIndex st) b) st)))).
Proof.
  intros (body & Hw & Hrun) Hs.
  exists (body ++ [content_block_start (contentIndex st) b;
                   content_block_delta (contentIndex st) d;
                   content_block_stop (contentIndex st)]).
  split.
  - simpl. rewrite Hw. rewrite <- !app_assoc. reflexivity.
  - rewrite run_app, Hrun. cbn [run observe next open]. rewrite Hs.
    cbn [negb andb]. rewrite Nat.eqb_refl. cbn [run observe next open andb].
    rewrite Nat.eqb_refl. cbn [run observe next open andb].
    rewrite Nat.eqb_refl. reflexivity.
Qed.

Lemma tracks_toolStep (fc : json) (st : state) :
  tracks st -> tracks (toolStep JSON_stringify toolId fc st).
Proof.
  intros H. unfold toolStep.
  set (st1 := if started st then _ else st).
  assert (H1 : tracks st1 /\ started st1 = false).
  { subst st1. destruct (started st) eqn:Hs.
    - split; [|reflexivity]. apply tracks_write; [exact H|].
      simpl. rewrite Hs, Nat.eqb_refl. reflexivity.
    - split; assumption. }
  destruct H1 as [H1 Hs1].
  pose proof (tracks_toolBlock (draw st1)
                (ToolUseBlock (toolId (drawn st1)) (get "name" fc))
                (input_json_delta (JSON_stringify (or_default (get "args" fc) (JObj []))))
                (tracks_draw _ H1) Hs1) as Hblock.
  simpl in Hblock |- *. rewrite Hs1. exact Hblock.
Qed.

Lemma tracks_processPart (st : state) (part : json) :
  tracks st -> tracks (reached (processPart JSON_stringify toolId st part)).
Proof.
  intros H. unfold processPart.
  destruct part; try exact H;
    (destruct (_ && _); [exact H|];
     destruct (get "text" _) as [text|];
     [ destruct (match get "thought" _ with Some (JBool true) => true | _ => false end);
       [exact H|] | ];
     (destruct (get "functionCall" _) as [fc|]; simpl;
      [ destruct (truthy fc) | ]);
     repeat first [ exact H | apply tracks_toolStep | apply tracks_textStep ]).
Qed.

Lemma forEach_preserves {A} (P : state -> Prop) (body : state -> A -> flow) (l : list A) :
  (forall st x, P st -> P (reached (body st x))) ->
  forall st, P st -> P (reached (forEach body l st)).
Proof.
  intros Hbody. induction l as [|x l IH]; intros st H; simpl; [exact H|].
  specialize (Hbody st x H). destruct (body st x) as [st'|st']; simpl in Hbody.
  - apply IH, Hbody.
  - exact Hbody.
Qed.

Lemma tracks_setUsage (i o : json) (st : state) : tracks st -> tracks (setUsage i o st).
Proof. intros H. exact H. Qed.

Lemma tracks_setBuffer (b : string) (st : state) : tracks st -> tracks (setBuffer b st).
Proof. intros H. exact H. Qed.

Lemma tracks_processParts (st : state) (resp : json) :
  tracks st -> tracks (reached (processParts JSON_stringify toolId st resp)).
Proof.
  intros H. unfold processParts.
  destruct (partsOf resp) as [ps|]; [|exact H].
  destruct (truthy ps); [|exact H].
  destruct (iterate ps) as [l|]; [|exact H].
  apply forEach_preserves; [|exact H]. intros; apply tracks_processPart; assumption.
Qed.

Lemma tracks_recordUsage (resp : json) (st : state) :
  tracks st -> tracks (reached (recordUsage js_String resp st)).
Proof.
  intros H. unfold recordUsage.
  destruct (get "usageMetadata" resp) as [um|]; [|exact H].
  destruct (truthy um); [|exact H].
  destruct (producedTokens js_String um); apply tracks_setUsage; exact H.
Qed.

Lemma tracks_processChunk (st : state) (chunk : json) :
  tracks st ->
  tracks (reached (processChunk JSON_stringify js_String toolId st chunk)).
Proof.
  intros H. unfold processChunk.
  destruct chunk; try exact H;
    (destruct (get "response" _) as [resp|]; [|exact H]);
    (destruct (negb (truthy resp)); [exact H|]);
    (pose proof (tracks_processParts st resp H) as Hp;
     destruct (processParts JSON_stringify toolId st resp) as [st'|st'];
     [apply tracks_recordUsage|]; exact Hp).
Qed.

Lemma tracks_processLine (st : state) (line : string) :
  tracks st ->
  tracks (reached (processLine trim JSON_parse JSON_stringify js_String toolId st line)).
Proof.
  intros H. unfold processLine.
  destruct (decodeLine trim JSON_parse line); [|exact H].
  apply tracks_processChunk, H.
Qed.

Lemma tracks_processRead (st : state) (value : string) :
  tracks st ->
  tracks (reached (processRead trim JSON_parse JSON_stringify js_String toolId st value)).
Proof.
  intros H. unfold processRead.
  apply forEach_preserves; [intros; apply tracks_processLine; assumption|].
  apply tracks_setBuffer, H.
Qed.

(** The closing sequence ends a tracked state in a well-bracketed
    sequence framed by [message_start] and [message_delta],
    [message_stop]. *)
Lemma close_well_bracketed (st : state) :
  tracks st ->
  exists body n stop,
    written (close st) =
      message_start msgId anthropicModel ::
      body ++ [message_delta stop (outputTokens st); message_stop] /\
    well_bracketed body n.
Proof.
  intros (body & Hw & Hrun). unfold close, well_bracketed.
  destruct (started st) eqn:Hs.
  - exists (body ++ [content_block_stop (contentIndex st)]), (S (contentIndex st)).
    eexists. split.
    + simpl. rewrite Hw. simpl. rewrite <- !app_assoc. reflexivity.
    + rewrite run_app, Hrun. simpl. rewrite Nat.eqb_refl. reflexivity.
  - exists body, (contentIndex st). eexists. split.
    + simpl. rewrite Hw. simpl. rewrite <- !app_assoc. reflexivity.
    + exact Hrun.
Qed.

(** ** When the stop reason is [tool_use] *)

Lemma produced_snoc (l : list event) (e : event) :
  tool_block_produced (l ++ [e]) = tool_block_produced l || is_tool_start e.
Proof.
  unfold tool_block_produced. rewrite existsb_app. simpl.
  rewrite orb_false_r. reflexivity.
Qed.

Lemma counts_tools_textStep (text : json) (st : state) :
  counts_tools st -> counts_tools (textStep text st).
Proof.
  unfold counts_tools, textStep. intros H.
  destruct (started st); simpl; rewrite !produced_snoc; simpl;
    rewrite ?orb_false_r; exact H.
Qed.

Lemma counts_tools_toolStep (fc : json) (st : state) :
  counts_tools (toolStep JSON_stringify toolId fc st).
Proof.
  unfold counts_tools, toolStep.
  destruct (started st); simpl; rewrite !produced_snoc; simpl;
    rewrite ?orb_true_r, ?orb_true_l; split; intros; first [lia | reflexivity].
Qed.

Lemma counts_tools_processPart (st : state) (part : json) :
  counts_tools st -> counts_tools (reached (processPart JSON_stringify toolId st part)).
Proof.
  intros H. unfold processPart.
  destruct part; try exact H;
    (destruct (_ && _); [exact H|];
     destruct (get "text" _) as [text|];
     [ destruct (match get "thought" _ with Some (JBool true) => true | _ => false end);
       [exact H|] | ];
     (destruct (get "functionCall" _) as [fc|]; simpl;
      [ destruct (truthy fc) | ]);
     repeat first [ exact H | apply counts_tools_toolStep | apply counts_tools_textStep ]).
Qed.

Lemma counts_tools_processChunk (st : state) (chunk : json) :
  counts_tools st ->
  counts_tools (reached (processChunk JSON_stringify js_String toolId st chunk)).
Proof.
  intros H. unfold processChunk.
  assert (Hp : forall resp,
             counts_tools (reached (processParts JSON_stringify toolId st resp))).
  { intros resp. unfold processParts.
    destruct (partsOf resp) as [ps|]; [|exact H].
    destruct (truthy ps); [|exact H].
    destruct (iterate ps) as [l|]; [|exact H].
    apply forEach_preserves; [|exact H].
    intros; apply counts_tools_processPart; assumption. }
  assert (Hu : forall resp st', counts_tools st' ->
                                counts_tools (reached (recordUsage js_String resp st'))).
  { intros resp st' H'. unfold recordUsage.
    destruct (get "usageMetadata" resp) as [um|]; [|exact H'].
    destruct (truthy um); [|exact H'].
    destruct (producedTokens js_String um); exact H'. }
  destruct chunk; try exact H;
    (destruct (get "response" _) as [resp|]; [|exact H]);
    (destruct (negb (truthy resp)); [exact H|]);
    (specialize (Hp resp);
     destruct (processParts JSON_stringify toolId st resp) as [st'|st'];
     [apply Hu|]; exact Hp).
Qed.

Lemma written_close (st : state) :
  written (close st) =
    written st ++
    (if started st then [content_block_stop (contentIndex st)] else []) ++
    [message_delta (if hasToolUse st then tool_use else end_turn) (outputTokens st);
     message_stop].
Proof.
  unfold close, hasToolUse. destruct (started st) eqn:Hs; simpl; rewrite ?Hs;
    rewrite <- !app_assoc; reflexivity.
Qed.

Lemma run_no_message_delta (body : list event) (c c' : cursor) :
  run c body = Some c' ->
  forall r t, ~ In (message_delta r t) body.
Proof.
  revert c. induction body as [|e body IH]; intros c Hrun r t Hin; [contradiction|].
  simpl in Hrun. destruct (observe c e) as [c1|] eqn:Hobs; [|discriminate].
  destruct Hin as [-> | Hin]; [discriminate Hobs|].
  exact (IH c1 Hrun r t Hin).
Qed.

(** The stop reason [tool_use] is never given without a tool-use block:
    the test [contentIndex > (started ? 1 : 0)] errs on one side only. *)
Lemma stop_reason_tool_use_sound (chunks : list json) (tokens : json) :
  In (message_delta tool_use tokens)
     (translateChunks JSON_stringify js_String toolId msgId chunks anthropicModel) ->
  tool_block_produced
    (translateChunks JSON_stringify js_String toolId msgId chunks anthropicModel) = true.
Proof.
  unfold translateChunks.
  set (st := reached (forEach _ chunks _)).
  assert (Ht : tracks st).
  { apply forEach_preserves; [intros; apply tracks_processChunk; assumption|].
    apply tracks_initial. }
  assert (Hc : counts_tools st).
  { apply forEach_preserves; [intros; apply counts_tools_processChunk; assumption|].
    split; [discriminate | simpl; lia]. }
  destruct Ht as (body & Hw & Hrun).
  rewrite written_close. intros Hin.
  assert (Hhas : hasToolUse st = true).
  { apply in_app_or in Hin. destruct Hin as [Hin | Hin].
    - rewrite Hw in Hin. destruct Hin as [E | Hin]; [discriminate E|].
      destruct (run_no_message_delta _ _ _ Hrun _ _ Hin).
    - apply in_app_or in Hin. destruct Hin as [Hin | Hin].
      + destruct (started st); simpl in Hin; [|contradiction].
        destruct Hin as [E | []]. discriminate E.
      + destruct (hasToolUse st); [reflexivity|].
        destruct Hin as [E | [E | []]]; discriminate E. }
  assert (Hpos : 0 < contentIndex st).
  { unfold hasToolUse in Hhas. apply Nat.ltb_lt in Hhas. lia. }
  apply Hc in Hpos. unfold tool_block_produced in *.
  rewrite existsb_app, Hpos. reflexivity.
Qed.

(** C3, at a stream whose only chunk holds a function call followed by
    visible text: a tool-use block is produced at index 0, the text block
    at index 1 is closed at the end of the stream, and the stop reason is
    [end_turn]: [contentIndex] is 1 and a text block is open, so
    [contentIndex > (started ? 1 : 0)] is false. *)
Theorem stream_tool_then_text_ends_turn (name args : json) :
  translateChunks JSON_stringify js_String toolId msgId
    [ JObj [("response",
             JObj [("candidates",
                    JArr [JObj [("content",
                                 JObj [("parts",
                                        JArr [JObj [("functionCall",
                                                     JObj [("name", name);
                                                           ("args", args)])];
                                              JObj [("text", JStr "done")]])])]])])] ]
    anthropicModel =
  [ message_start msgId anthropicModel;
    content_block_start 0 (ToolUseBlock (toolId 0) (Some name));
    content_block_delta 0
      (input_json_delta (JSON_stringify (or_default (Some args) (JObj []))));
    content_block_stop 0;
    content_block_start 1 TextBlock;
    content_block_delta 1 (text_delta (JStr "done"));
    content_block_stop 1;
    message_delta end_turn (JNum 0);
    message_stop ].
Proof. reflexivity. Qed.

(** The same two parts in the other order end with [tool_use]. *)
Example stream_text_then_tool (name args : json) :
  translateChunks JSON_stringify js_String toolId msgId
    [ JObj [("response",
             JObj [("candidates",
                    JArr [JObj [("content",
                                 JObj [("parts",
                                        JArr [JObj [("text", JStr "wait")];
                                              JObj [("functionCall",
                                                     JObj [("name", name);
                                                           ("args", args)])]])])]])])] ]
    anthropicModel =
  [ message_start msgId anthropicModel;
    content_block_start 0 TextBlock;
    content_block_delta 0 (text_delta (JStr "wait"));
    content_block_stop 0;
    content_block_start 1 (ToolUseBlock (toolId 0) (Some name));
    content_block_delta 1
      (input_json_delta (JSON_stringify (or_default (Some args) (JObj []))));
    content_block_stop 1;
    message_delta tool_use (JNum 0);
    message_stop ].
Proof. reflexivity. Qed.

(** A [null] part throws; the closing sequence is written all the same. *)
Example stream_null_part :
  translateChunks JSON_stringify js_String toolId msgId
    [ JObj [("response",
             JObj [("candidates",
                    JArr [JObj [("content",
                                 JObj [("parts",
                                        JArr [JObj [("text", JStr "a")]; JNull;
                                              JObj [("text", JStr "b")]])])]])])] ]
    anthropicModel =
  [ message_start msgId anthropicModel;
    content_block_start 0 TextBlock;
    content_block_delta 0 (text_delta (JStr "a"));
    content_block_stop 0;
    message_delta end_turn (JNum 0);
    message_stop ].
Proof. reflexivity. Qed.

End Translate.

(** Two reads that cut a data line in the middle. *)
Example stream_reads_run :
  streamGoogleToAnthropic (fun s => s)
    (fun s => if s =? "T" then
                Some (JObj [("response",
                             JObj [("candidates",
                                    JArr [JObj [("content",
                                                 JObj [("parts",
                                                        JArr [JObj [("text", JStr "hi")]])])]])])])
              else None)
    (fun _ => "{}") (fun _ => "?") (fun _ => "toolu_0") "msg_0"
    [ "data:" ; ("T" ++ newline ++ "data:x" ++ newline ++ "rest")%string ] None
  = [ message_start "msg_0" None;
      content_block_start 0 TextBlock;
      content_block_delta 0 (text_delta (JStr "hi"));
      content_block_stop 0;
      message_delta end_turn (JNum 0);
      message_stop ].
Proof. reflexivity. Qed.

End StreamFacts.

(* ================================================================== *)
(** * Batch translator: facts                                          *)
(* ================================================================== *)

Module BatchFacts.
Import Backend Batch.

Section Translate.

Variable trim : string -> string.
Variable JSON_parse : string -> option json.
Variable JSON_stringify : json -> string.
Variable js_String : json -> string.
Variable toolId : nat -> string.
Variable msgId : string.
Variable anthropicModel : option json.

(** The loop never leaves [stopReason] different from [end_turn]. *)
Lemma collectParts_end_turn (a a' : acc) (resp : json) :
  stopReason_ a = end_turn ->
  collectParts js_String toolId a resp = Ok a' ->
  stopReason_ a' = end_turn.
Proof.
  intros Ha. unfold collectParts.
  destruct (partsOf resp) as [ps|]; [|intros [= <-]; exact Ha].
  destruct (truthy ps); [|intros [= <-]; exact Ha].
  destruct (iterate ps) as [l|]; simpl; [|discriminate].
  destruct (fold_left _ l _) as [c|]; simpl; [|discriminate].
  intros [= <-]. simpl. destruct (is_str _ _); [reflexivity | exact Ha].
Qed.

Lemma recordUsage_end_turn (a a' : acc) (resp : json) :
  stopReason_ a = end_turn ->
  recordUsage js_String resp a = Ok a' ->
  stopReason_ a' = end_turn.
Proof.
  intros Ha. unfold recordUsage.
  destruct (get "usageMetadata" resp) as [um|]; [|intros [= <-]; exact Ha].
  destruct (truthy um); [|intros [= <-]; exact Ha].
  destruct (producedTokens js_String um); simpl; [|discriminate].
  intros [= <-]. exact Ha.
Qed.

Lemma collectEvent_end_turn (a a' : acc) (event : json) :
  stopReason_ a = end_turn ->
  collectEvent js_String toolId (Ok a) event = Ok a' ->
  stopReason_ a' = end_turn.
Proof.
  intros Ha. unfold collectEvent. simpl bind.
  destruct event; try discriminate;
    (destruct (get "response" _) as [resp|]; [|intros [= <-]; exact Ha]);
    (destruct (negb (truthy resp)); [intros [= <-]; exact Ha|]);
    (destruct (collectParts js_String toolId a resp) as [a1|] eqn:Hparts;
       simpl; [|discriminate]);
    (intros Hu;
     exact (recordUsage_end_turn _ _ _ (collectParts_end_turn _ _ _ Ha Hparts) Hu)).
Qed.

Lemma fold_collectEvent_Throw (events : list json) :
  fold_left (collectEvent js_String toolId) events Throw = Throw.
Proof. induction events as [|e events IH]; simpl; [reflexivity|exact IH]. Qed.

Lemma fold_collectEvent_end_turn (events : list json) (a a' : acc) :
  stopReason_ a = end_turn ->
  fold_left (collectEvent js_String toolId) events (Ok a) = Ok a' ->
  stopReason_ a' = end_turn.
Proof.
  revert a. induction events as [|e events IH]; intros a Ha H; cbn [fold_left] in H.
  - injection H as <-. exact Ha.
  - destruct (collectEvent js_String toolId (Ok a) e) as [a1|] eqn:Hstep.
    + exact (IH a1 (collectEvent_end_turn _ _ _ Ha Hstep) H).
    + rewrite fold_collectEvent_Throw in H. discriminate H.
Qed.

(** What does hold of every message the batch translator returns: it has
    at least one block, and its stop reason is [tool_use] exactly when it
    has a tool-use block. *)
Lemma convertEvents_stop_reason (events : list json) (m : message) :
  convertEvents js_String toolId msgId events anthropicModel = Ok m ->
  content m <> [] /\
  (stop_reason m = tool_use <-> existsb isToolUse (content m) = true).
Proof.
  unfold convertEvents.
  destruct (fold_left _ events _) as [a|] eqn:Hfold; simpl; [|discriminate].
  assert (Hend : stopReason_ a = end_turn)
    by exact (fold_collectEvent_end_turn events (mkAcc [] (JNum 0) (JNum 0) end_turn)
                                         a eq_refl Hfold).
  intros [= <-]. simpl. rewrite Hend. split.
  - destruct (blocks a); discriminate.
  - destruct (blocks a) as [|b bs] eqn:Hb.
    + simpl. split; discriminate.
    + destruct (existsb isToolUse (b :: bs)); split; congruence.
Qed.

(** C5, at an event with a reasoning part ([thought: true], no
    signature) before the answer: the batch translator tests
    [thoughtSignature] only, so the reasoning text is part of the text
    block; the stream translator, which tests [thought === true], leaves
    it out of the same event. *)
Theorem batch_includes_reasoning_text :
  convertEvents js_String toolId msgId
    [ JObj [("response",
             JObj [("candidates",
                    JArr [JObj [("content",
                                 JObj [("parts",
                                        JArr [JObj [("text", JStr "plan");
                                                    ("thought", JBool true)];
                                              JObj [("text", JStr "answer")]])])]])])] ]
    anthropicModel
  = Ok {| msg_id := msgId;
          msg_model := anthropicModel;
          content := [Text (JStr "plananswer")];
          stop_reason := end_turn;
          msg_usage := {| input_tokens := JNum 0; output_tokens := JNum 0 |} |} /\
  Stream.translateChunks JSON_stringify js_String toolId msgId
    [ JObj [("response",
             JObj [("candidates",
                    JArr [JObj [("content",
                                 JObj [("parts",
                                        JArr [JObj [("text", JStr "plan");
                                                    ("thought", JBool true)];
                                              JObj [("text", JStr "answer")]])])]])])] ]
    anthropicModel
  = [ Stream.message_start msgId anthropicModel;
      Stream.content_block_start 0 Stream.TextBlock;
      Stream.content_block_delta 0 (Stream.text_delta (JStr "answer"));
      Stream.content_block_stop 0;
      Stream.message_delta end_turn (JNum 0);
      Stream.message_stop ].
Proof. split; reflexivity. Qed.

(** The other way round, visible text that carries a signature is left
    out by the batch translator and forwarded by the stream translator. *)
Example batch_drops_signed_text :
  convertEvents js_String toolId msgId
    [ JObj [("response",
             JObj [("candidates",
                    JArr [JObj [("content",
                                 JObj [("parts",
                                        JArr [JObj [("text", JStr "answer");
                                                    ("thoughtSignature", JStr "sig")]])])]])])] ]
    anthropicModel
  = Ok {| msg_id := msgId;
          msg_model := anthropicModel;
          content := [Text (JStr EmptyString)];
          stop_reason := end_turn;
          msg_usage := {| input_tokens := JNum 0; output_tokens := JNum 0 |} |}.
Proof. reflexivity. Qed.

(** Text, a function call, more text and a usage record. *)
Example batch_run (name args : json) :
  convertEvents js_String toolId msgId
    [ JObj [("response",
             JObj [("candidates",
                    JArr [JObj [("content",
                                 JObj [("parts",
                                        JArr [JObj [("text", JStr "a")];
                                              JObj [("functionCall",
                                                     JObj [("name", name); ("args", args)])];
                                              JObj [("text", JStr "b")]])])]]);
                   ("usageMetadata",
                    JObj [("promptTokenCount", JNum 7);
                          ("candidatesTokenCount", JNum 5);
                          ("thoughtsTokenCount", JNum 2)])])] ]
    anthropicModel
  = Ok {| msg_id := msgId;
          msg_model := anthropicModel;
          content := [Text (JStr "ab");
                      ToolUse (toolId 0) (Some name) (or_default (Some args) (JObj []))];
          stop_reason := tool_use;
          msg_usage := {| input_tokens := JNum 7; output_tokens := JNum 7 |} |}.
Proof. reflexivity. Qed.

End Translate.
End BatchFacts.

(* ================================================================== *)
(** * The provider request: facts                                      *)
(* ================================================================== *)

Module TranslatorFacts.
Import Model Request Translator Properties.

Section Convert.

Variable JSON_stringify : json -> string.
Variable js_String : json -> string.
Variable project_id : option json.
Variable request_id : string.

(** What [convertAnthropicToGoogle] returns has the merged turn list, the
    mapped model and the generation config of that model. *)
Lemma convert_returns (req : anthropicReq) (body : googleRequest) :
  convertAnthropicToGoogle JSON_stringify js_String project_id request_id req = Ok body ->
  mapModel (req_model req) = Target (body_model body) /\
  body_contents body = contents JSON_stringify js_String (messages req) /\
  body_generationConfig body = buildGenerationConfig (body_model body) req.
Proof.
  unfold convertAnthropicToGoogle, translateMessages.
  destruct (forallb messageReturns (messages req)); cbn [bind]; [|discriminate].
  destruct (systemParts (system req)) as [sp|]; simpl; [|discriminate].
  destruct (mapModel (req_model req)) as [googleModel|]; [|discriminate].
  destruct (match tools req with Some (_ :: _) => _ | _ => _ end) as [ds|];
    simpl; [|discriminate].
  intros [= <-]. simpl. auto.
Qed.

Lemma convert_contents_alternate (req : anthropicReq) (body : googleRequest) :
  convertAnthropicToGoogle JSON_stringify js_String project_id request_id req = Ok body ->
  adjacent_distinct (body_contents body).
Proof.
  intros H. destruct (convert_returns _ _ H) as (_ & -> & _).
  apply RequestFacts.fold_mergeStep_adjacent, RequestFacts.adjacent_distinct_nil.
Qed.

Lemma convert_tools_normalized (req : anthropicReq) (body : googleRequest) :
  convertAnthropicToGoogle JSON_stringify js_String project_id request_id req = Ok body ->
  forall ds d, functionDeclarations body = Some ds -> In d ds -> Normalized (fd_schema d).
Proof.
  unfold convertAnthropicToGoogle, translateMessages.
  destruct (forallb messageReturns (messages req)); cbn [bind]; [|discriminate].
  destruct (systemParts (system req)) as [sp|]; simpl; [|discriminate].
  destruct (mapModel (req_model req)) as [googleModel|]; [|discriminate].
  destruct (tools req) as [[|tool more]|].
  1, 3: simpl; intros [= <-] ds d Hds; discriminate Hds.
  destruct (bind (declareTool googleModel tool) _) as [ds0|] eqn:Hm;
    simpl; [|discriminate].
  change (mapM (declareTool googleModel) (tool :: more) = Ok ds0) in Hm.
  intros [= <-] ds d [= <-] Hd.
  destruct (SchemaFacts.mapM_Ok_inv _ _ _ Hm _ Hd) as (t & _ & Ht).
  unfold declareTool in Ht.
  destruct t; try discriminate;
    (destruct (Schema.normalize _) as [cleaned|] eqn:Hn; simpl in Ht; [|discriminate];
     injection Ht as <-; exact (SchemaFacts.normalize_normalized _ _ Hn)).
Qed.

(** The request [{model: "claude-sonnet-4-5", messages: [{role: "user",
    content: "hi"}], max_tokens: 100}]. *)
Example convert_sonnet_hi :
  convertAnthropicToGoogle JSON_stringify js_String project_id request_id
    {| req_model := "claude-sonnet-4-5";
       messages := [JObj [("role", JStr "user"); ("content", JStr "hi")]];
       system := None;
       max_tokens := Some 100%Z;
       thinking := None;
       temperature := None;
       tools := None |}
  = Ok {| project := project_id;
          body_model := "claude-sonnet-4-5";
          body_contents := [mkTurn user [TextPart "hi"]];
          systemInstruction := [];
          body_generationConfig :=
            {| maxOutputTokens := 100; thinkingCfg := None; cfg_temperature := None |};
          functionDeclarations := None;
          requestId := request_id |}.
Proof. reflexivity. Qed.

(** A request for the model "constructor" is not translated. *)
Example convert_constructor :
  convertAnthropicToGoogle JSON_stringify js_String project_id request_id
    {| req_model := "constructor";
       messages := [JObj [("role", JStr "user"); ("content", JStr "hi")]];
       system := None;
       max_tokens := None;
       thinking := None;
       temperature := None;
       tools := None |}
  = Throw.
Proof. reflexivity. Qed.

End Convert.
End TranslatorFacts.

(* ================================================================== *)
(** * Request translator: further facts                                *)
(* ================================================================== *)

Module RequestMore.
Import Model Request Translator Properties Shapes.

Section Messages.

Variable JSON_stringify : json -> string.
Variable js_String : json -> string.

Lemma nonempty_or_nonempty (s d : string) :
  d <> EmptyString -> nonempty_or s d <> EmptyString.
Proof.
  intros Hd. unfold nonempty_or. destruct (String.eqb_spec s EmptyString); assumption.
Qed.

Lemma join_strings (sep : string) (texts : list string) :
  join js_String sep (map (fun s => Some (JStr s)) texts) = concat sep texts.
Proof.
  unfold join. rewrite map_map. simpl. f_equal.
  induction texts as [|t texts IH]; simpl; [reflexivity|]. rewrite IH. reflexivity.
Qed.

(** X1: the output [extractText] gives a tool result, where the texts of
    a list can be printed (none is an object with a property
    [toString], on which [join] throws): missing and [null] content give
    "(no output)"; an empty string gives "(empty)" and any other string
    is passed through; a list of blocks never gives the empty text, a
    list without a block of type text gives "(empty)", and in a list
    whose blocks of type text hold strings these are joined by line
    breaks, the other blocks being ignored, "(empty)" standing for an
    empty result. *)
Theorem extractText_never_empty :
  extractText JSON_stringify js_String None = "(no output)" /\
  extractText JSON_stringify js_String (Some JNull) = "(no output)" /\
  extractText JSON_stringify js_String (Some (JStr EmptyString)) = "(empty)" /\
  (forall s, s <> EmptyString ->
             extractText JSON_stringify js_String (Some (JStr s)) = s) /\
  (forall blocks,
      extractReturns (Some (JArr blocks)) = true ->
      extractText JSON_stringify js_String (Some (JArr blocks)) <> EmptyString) /\
  (forall blocks,
      filter (fun b => is_str "text" (get "type" b)) blocks = [] ->
      extractReturns (Some (JArr blocks)) = true /\
      extractText JSON_stringify js_String (Some (JArr blocks)) = "(empty)") /\
  (forall blocks texts,
      map (get "text") (filter (fun b => is_str "text" (get "type" b)) blocks)
      = map (fun s => Some (JStr s)) texts ->
      extractReturns (Some (JArr blocks)) = true /\
      extractText JSON_stringify js_String (Some (JArr blocks))
      = if concat newline texts =? EmptyString then "(empty)" else concat newline texts).
Proof.
  split; [reflexivity|]. split; [reflexivity|]. split; [reflexivity|].
  split; [|split; [|split]].
  - intros s Hs. simpl. unfold nonempty_or.
    destruct (String.eqb_spec s EmptyString); [contradiction|reflexivity].
  - intros blocks _. apply nonempty_or_nonempty. discriminate.
  - intros blocks Hnone. unfold extractReturns, extractText. rewrite Hnone.
    split; reflexivity.
  - intros blocks texts Htexts. unfold extractReturns, extractText.
    rewrite Htexts, join_strings. split; [|reflexivity].
    unfold joins. apply forallb_forall. intros t Ht.
    apply in_map_iff in Ht. destruct Ht as (x & <- & _). reflexivity.
Qed.

(** ** No empty turn *)

Lemma regularParts_valid (content : option json) :
  regularParts JSON_stringify js_String content <> [] /\
  Forall (fun p => validPart p = true) (regularParts JSON_stringify js_String content).
Proof.
  unfold regularParts.
  set (ps := match content with Some (JStr _) => _ | Some (JArr _) => _ | _ => [] end).
  destruct (filter validPart ps) as [|p rest] eqn:Hf.
  - split; [discriminate|]. repeat constructor.
  - split; [discriminate|]. rewrite <- Hf. apply Forall_forall.
    intros x Hx. apply filter_In in Hx. exact (proj2 Hx).
Qed.

Lemma convertMessage_nonempty (msg : json) :
  Forall (fun t => parts t <> []) (convertMessage JSON_stringify js_String msg).
Proof.
  unfold convertMessage. destruct (negb (truthy msg)); [constructor|].
  assert (Hreg : forall r,
             Forall (fun t => parts t <> [])
               [mkTurn r (regularParts JSON_stringify js_String (get "content" msg))]).
  { intros r. constructor; [|constructor]. exact (proj1 (regularParts_valid _)). }
  destruct (get "content" msg) as [[| | | |blocks|]|]; try apply Hreg.
  destruct (filter _ blocks) as [|tr trs] eqn:Htr; [apply Hreg|].
  constructor; [discriminate|].
  destruct (filter (fun b => is_str "text" (get "type" b) && truthy_opt (get "text" b)) blocks)
    as [|tb tbs]; constructor; [discriminate|constructor].
Qed.

Lemma mergeStep_nonempty (contents : list turn) (entry : turn) :
  Forall (fun t => parts t <> []) contents -> parts entry <> [] ->
  Forall (fun t => parts t <> []) (mergeStep contents entry).
Proof.
  intros Hc He. destruct contents as [|prev l _] using rev_ind.
  - constructor; [exact He|constructor].
  - rewrite RequestFacts.mergeStep_snoc. apply Forall_app in Hc. destruct Hc as [Hl Hp].
    destruct (role_eqb _ _).
    + apply Forall_app. split; [exact Hl|]. constructor; [|constructor]. simpl.
      inversion Hp as [|? ? Hprev _]; subst. destruct (parts prev); [contradiction|discriminate].
    + apply Forall_app. split; [exact Hl|]. inversion Hp; subst.
      constructor; [assumption|]. constructor; [exact He|constructor].
Qed.

Lemma mergeRoles_preserves (P : turn -> Prop) (raw : list turn) :
  (forall contents entry, Forall P contents -> P entry -> Forall P (mergeStep contents entry)) ->
  Forall P raw -> Forall P (mergeRoles raw).
Proof.
  intros Hstep. unfold mergeRoles.
  assert (G : forall acc, Forall P acc -> Forall P raw -> Forall P (fold_left mergeStep raw acc)).
  { induction raw as [|e raw IH]; intros acc Ha Hr; simpl; [exact Ha|].
    inversion Hr; subst. apply IH; [apply Hstep|]; assumption. }
  apply G. constructor.
Qed.

(** X2: no turn of the provider request is empty: every turn of the
    merged list has at least one part, and the parts of a turn built from
    a message without tool results are never an empty text: a message
    that would give none gets the placeholder "...". *)
Theorem contents_turns_nonempty (messages : list json) :
  Forall (fun t => parts t <> []) (contents JSON_stringify js_String messages) /\
  (forall content,
      regularParts JSON_stringify js_String content <> [] /\
      Forall (fun p => p <> TextPart EmptyString)
             (regularParts JSON_stringify js_String content)).
Proof.
  split.
  - apply mergeRoles_preserves; [apply mergeStep_nonempty|].
    unfold rawContents. induction messages as [|m ms IH]; simpl; [constructor|].
    apply Forall_app. split; [apply convertMessage_nonempty | exact IH].
  - intros content. destruct (regularParts_valid content) as [Hne Hv].
    split; [exact Hne|]. eapply Forall_impl; [|exact Hv].
    intros p Hp ->. discriminate Hp.
Qed.

(** ** Thinking blocks *)

Lemma filter_filter_implied {A} (P Q : A -> bool) (l : list A) :
  (forall x, P x = true -> Q x = true) -> filter P (filter Q l) = filter P l.
Proof.
  intros H. induction l as [|x l IH]; simpl; [reflexivity|].
  destruct (Q x) eqn:HQ; simpl.
  - rewrite IH. reflexivity.
  - destruct (P x) eqn:HP; [rewrite (H x HP) in HQ; discriminate|exact IH].
Qed.

Lemma is_str_other (a b : string) (v : option json) :
  a <> b -> is_str a v = true -> is_str b v = false.
Proof.
  intros Hab. destruct v as [[| | |s| |]|]; simpl; try discriminate.
  intros Ha. apply String.eqb_eq in Ha. subst s. apply String.eqb_neq. exact Hab.
Qed.

Lemma convertBlock_thinking (b : json) :
  isThinkingBlock b = true -> convertBlock JSON_stringify js_String b = [].
Proof.
  unfold isThinkingBlock. intros H.
  assert (Htext : is_str "text" (get "type" b) = false)
    by (apply (is_str_other "thinking"); [discriminate|exact H]).
  destruct b; simpl in H; try discriminate H.
  unfold convertBlock. cbn [truthy negb]. cbv iota.
  rewrite Htext. simpl get. simpl in H. rewrite H. reflexivity.
Qed.

Lemma flat_map_without_thinking (blocks : list json) :
  flat_map (convertBlock JSON_stringify js_String)
           (filter (fun b => negb (isThinkingBlock b)) blocks)
  = flat_map (convertBlock JSON_stringify js_String) blocks.
Proof.
  induction blocks as [|b blocks IH]; simpl; [reflexivity|].
  destruct (isThinkingBlock b) eqn:Hb; simpl.
  - rewrite (convertBlock_thinking b Hb). exact IH.
  - rewrite IH. reflexivity.
Qed.

Lemma convertMessage_content (fs : list (string * json)) (blocks : list json) :
  lookup "content" fs = Some (JArr blocks) ->
  convertMessage JSON_stringify js_String (JObj fs) =
    let role := if is_str "assistant" (lookup "role" fs) then model else user in
    let toolResults := filter (fun b => is_str "tool_result" (get "type" b)) blocks in
    let textBlocks :=
      filter (fun b => is_str "text" (get "type" b) && truthy_opt (get "text" b)) blocks in
    match toolResults with
    | [] => [mkTurn role (regularParts JSON_stringify js_String (Some (JArr blocks)))]
    | _ =>
        mkTurn user (map (toolPart JSON_stringify js_String) toolResults) ::
        match textBlocks with
        | [] => []
        | _ => [mkTurn user (map (textOf js_String) textBlocks)]
        end
    end.
Proof.
  intros H. unfold convertMessage. simpl truthy. simpl negb. cbv iota.
  simpl get. rewrite H. reflexivity.
Qed.

(** X3: thinking blocks contribute nothing: a message whose content is a
    list of blocks is translated as the same message without its
    thinking blocks, and a message that holds only thinking blocks
    becomes one turn of its role with the placeholder "...". *)
Theorem thinking_blocks_ignored (fs : list (string * json)) (blocks : list json) :
  lookup "content" fs = Some (JArr blocks) ->
  convertMessage JSON_stringify js_String
    (JObj (assign "content"
                  (JArr (filter (fun b => negb (isThinkingBlock b)) blocks)) fs))
  = convertMessage JSON_stringify js_String (JObj fs) /\
  (forallb isThinkingBlock blocks = true ->
   convertMessage JSON_stringify js_String (JObj fs)
   = [mkTurn (if is_str "assistant" (lookup "role" fs) then model else user)
             [TextPart "..."]]).
Proof.
  intros Hc.
  assert (Heq : convertMessage JSON_stringify js_String
                  (JObj (assign "content"
                           (JArr (filter (fun b => negb (isThinkingBlock b)) blocks)) fs))
                = convertMessage JSON_stringify js_String (JObj fs)).
  { rewrite (convertMessage_content fs blocks Hc).
    rewrite (convertMessage_content _ _ (SchemaFacts.lookup_assign_same "content" _ fs)).
    rewrite SchemaFacts.lookup_assign_other by discriminate.
    cbv zeta. rewrite !filter_filter_implied.
    - unfold regularParts. rewrite flat_map_without_thinking. reflexivity.
    - intros b Hb. apply andb_prop in Hb. destruct Hb as [Hb _].
      unfold isThinkingBlock. rewrite (is_str_other "text" "thinking" _ ltac:(discriminate) Hb).
      reflexivity.
    - intros b Hb. unfold isThinkingBlock.
      rewrite (is_str_other "tool_result" "thinking" _ ltac:(discriminate) Hb). reflexivity. }
  split; [exact Heq|].
  intros Hall. rewrite <- Heq.
  assert (Hnone : filter (fun b => negb (isThinkingBlock b)) blocks = []).
  { clear -Hall. induction blocks as [|b blocks IH]; simpl in *; [reflexivity|].
    apply andb_prop in Hall. destruct Hall as [Hb Hrest]. rewrite Hb. simpl. exact (IH Hrest). }
  rewrite Hnone.
  rewrite (convertMessage_content _ [] (SchemaFacts.lookup_assign_same "content" _ fs)).
  rewrite SchemaFacts.lookup_assign_other by discriminate. reflexivity.
Qed.

End Messages.

(** The content [[{type: "image"}, {type: "text", text: "a"}, {type:
    "text", text: "b"}]] of a tool result. *)
Lemma extractText_never_empty_witness :
  extractReturns
    (Some (JArr [JObj [("type", JStr "image")];
                 JObj [("type", JStr "text"); ("text", JStr "a")];
                 JObj [("type", JStr "text"); ("text", JStr "b")]])) = true /\
  extractText (fun _ => "{}") (fun _ => "?")
    (Some (JArr [JObj [("type", JStr "image")];
                 JObj [("type", JStr "text"); ("text", JStr "a")];
                 JObj [("type", JStr "text"); ("text", JStr "b")]]))
  = ("a" ++ newline ++ "b")%string.
Proof.
  exact (proj2 (proj2 (proj2 (proj2 (proj2 (proj2
           (extractText_never_empty (fun _ => "{}") (fun _ => "?")))))))
           [JObj [("type", JStr "image")];
            JObj [("type", JStr "text"); ("text", JStr "a")];
            JObj [("type", JStr "text"); ("text", JStr "b")]]
           ["a"; "b"] eq_refl).
Defined.

(** An assistant message with a thinking block and a text block. *)
Lemma thinking_blocks_ignored_witness :
  convertMessage (fun _ => "{}") (fun _ => "?")
    (JObj [("role", JStr "assistant");
           ("content", JArr [JObj [("type", JStr "text"); ("text", JStr "done")]])])
  = convertMessage (fun _ => "{}") (fun _ => "?")
      (JObj [("role", JStr "assistant");
             ("content", JArr [JObj [("type", JStr "thinking"); ("thinking", JStr "hm")];
                               JObj [("type", JStr "text"); ("text", JStr "done")]])]).
Proof.
  exact (proj1 (thinking_blocks_ignored (fun _ => "{}") (fun _ => "?")
                  [("role", JStr "assistant");
                   ("content", JArr [JObj [("type", JStr "thinking"); ("thinking", JStr "hm")];
                                     JObj [("type", JStr "text"); ("text", JStr "done")]])]
                  [JObj [("type", JStr "thinking"); ("thinking", JStr "hm")];
                   JObj [("type", JStr "text"); ("text", JStr "done")]]
                  eq_refl)).
Defined.

Section Merging.

Variable JSON_stringify : json -> string.
Variable js_String : json -> string.

(** ** Merging twice *)

Lemma fold_mergeStep_alternating (l acc : list turn) :
  adjacent_distinct (acc ++ l) -> fold_left mergeStep l acc = acc ++ l.
Proof.
  revert acc. induction l as [|e l IH]; intros acc H; simpl.
  - rewrite app_nil_r. reflexivity.
  - assert (Hstep : mergeStep acc e = acc ++ [e]).
    { destruct acc as [|prev acc' _] using rev_ind; [reflexivity|].
      rewrite RequestFacts.mergeStep_snoc.
      destruct (role_eqb (turn_role prev) (turn_role e)) eqn:E.
      - apply RequestFacts.role_eqb_eq in E. exfalso.
        apply (H acc' prev e l); [|exact E]. rewrite <- app_assoc. reflexivity.
      - rewrite <- app_assoc. reflexivity. }
    rewrite Hstep. rewrite IH; rewrite <- app_assoc; [reflexivity|exact H].
Qed.

Lemma mergeRoles_alternating (l : list turn) :
  adjacent_distinct l -> mergeRoles l = l.
Proof. intros H. unfold mergeRoles. apply (fold_mergeStep_alternating l []). exact H. Qed.

Lemma mergeStep_length (contents : list turn) (entry : turn) :
  List.length (mergeStep contents entry) <= S (List.length contents).
Proof.
  destruct contents as [|prev l _] using rev_ind; [simpl; lia|].
  rewrite RequestFacts.mergeStep_snoc. destruct (role_eqb _ _);
    rewrite !length_app; simpl; lia.
Qed.

(** X4: the role merge does nothing to a list whose neighbours already
    differ in role, so merging a second time changes nothing; and it
    never makes the list longer. *)
Theorem mergeRoles_idempotent (raw : list turn) :
  mergeRoles (mergeRoles raw) = mergeRoles raw /\
  List.length (mergeRoles raw) <= List.length raw.
Proof.
  split.
  - apply mergeRoles_alternating. unfold mergeRoles.
    apply RequestFacts.fold_mergeStep_adjacent, RequestFacts.adjacent_distinct_nil.
  - unfold mergeRoles.
    assert (G : forall acc, List.length (fold_left mergeStep raw acc)
                            <= List.length acc + List.length raw).
    { induction raw as [|e raw IH]; intros acc; simpl; [lia|].
      specialize (IH (mergeStep acc e)). pose proof (mergeStep_length acc e). lia. }
    apply (G []).
Qed.

(** ** Tool results travel in user turns *)

Lemma convertBlock_no_response (block : json) :
  existsb isFunctionResponse (convertBlock JSON_stringify js_String block) = false.
Proof.
  unfold convertBlock.
  repeat match goal with
         | |- context [if ?c then _ else _] => destruct c
         | |- context [match ?x with _ => _ end] => destruct x
         end; reflexivity.
Qed.

Lemma regularParts_no_response (content : option json) :
  existsb isFunctionResponse (regularParts JSON_stringify js_String content) = false.
Proof.
  unfold regularParts.
  set (ps := match content with Some (JStr _) => _ | Some (JArr _) => _ | _ => [] end).
  assert (Hps : existsb isFunctionResponse ps = false).
  { subst ps. destruct content as [[| | |s|blocks|]|]; try reflexivity.
    - destruct (truthy (JStr s)); reflexivity.
    - induction blocks as [|b blocks IH]; simpl; [reflexivity|].
      rewrite existsb_app, convertBlock_no_response. exact IH. }
  assert (Hf : existsb isFunctionResponse (filter validPart ps) = false).
  { clear -Hps. induction ps as [|p ps IH]; simpl in *; [reflexivity|].
    apply orb_false_elim in Hps. destruct Hps as [Hp Hrest].
    destruct (validPart p); simpl; [rewrite Hp|]; exact (IH Hrest). }
  destruct (filter validPart ps); [reflexivity|exact Hf].
Qed.

Lemma convertMessage_responses_user (msg : json) :
  Forall (fun t => carriesToolResult t = true -> turn_role t = user)
         (convertMessage JSON_stringify js_String msg).
Proof.
  unfold convertMessage. destruct (negb (truthy msg)); [constructor|].
  assert (Hreg : forall r,
             Forall (fun t => carriesToolResult t = true -> turn_role t = user)
               [mkTurn r (regularParts JSON_stringify js_String (get "content" msg))]).
  { intros r. constructor; [|constructor]. unfold carriesToolResult. simpl.
    rewrite regularParts_no_response. discriminate. }
  destruct (get "content" msg) as [[| | | |blocks|]|]; try apply Hreg.
  destruct (filter _ blocks) as [|tr trs]; [apply Hreg|].
  constructor; [reflexivity|].
  destruct (filter (fun b => is_str "text" (get "type" b) && truthy_opt (get "text" b)) blocks);
    repeat constructor.
Qed.

Lemma mergeStep_responses_user (contents : list turn) (entry : turn) :
  Forall (fun t => carriesToolResult t = true -> turn_role t = user) contents ->
  (carriesToolResult entry = true -> turn_role entry = user) ->
  Forall (fun t => carriesToolResult t = true -> turn_role t = user)
         (mergeStep contents entry).
Proof.
  intros Hc He. destruct contents as [|prev l _] using rev_ind.
  - constructor; [exact He|constructor].
  - rewrite RequestFacts.mergeStep_snoc. apply Forall_app in Hc. destruct Hc as [Hl Hp].
    inversion Hp as [|? ? Hprev _]; subst.
    destruct (role_eqb (turn_role prev) (turn_role entry)) eqn:E.
    + apply RequestFacts.role_eqb_eq in E.
      apply Forall_app. split; [exact Hl|]. constructor; [|constructor].
      unfold carriesToolResult. simpl. rewrite existsb_app. intros H.
      apply orb_prop in H. destruct H as [H | H]; [exact (Hprev H)|].
      rewrite E. exact (He H).
    + apply Forall_app. split; [exact Hl|].
      constructor; [exact Hprev|]. constructor; [exact He|constructor].
Qed.

(** X5: the answer to a tool call is always sent in a user turn: every
    turn of the provider request that holds a function response has the
    role user, whatever the role of the client message it came from. *)
Theorem tool_results_in_user_turns (messages : list json) :
  Forall (fun t => carriesToolResult t = true -> turn_role t = user)
         (contents JSON_stringify js_String messages).
Proof.
  apply mergeRoles_preserves; [apply mergeStep_responses_user|].
  unfold rawContents. induction messages as [|m ms IH]; simpl; [constructor|].
  apply Forall_app. split; [apply convertMessage_responses_user | exact IH].
Qed.

End Merging.
End RequestMore.

(* ================================================================== *)
(** * Model mapping: further facts                                     *)
(* ================================================================== *)

Module ModelMore.
Import Model Shapes.

Lemma own_In (k : string) (table : list (string * string)) (v : string) :
  own k table = Some v -> In v (map snd table).
Proof.
  induction table as [|[k' v'] table IH]; simpl; [discriminate|].
  destruct (k' =? k); [intros [= ->]; left; reflexivity | intros H; right; exact (IH H)].
Qed.

Lemma target_listed (name id : string) :
  mapModel name = Target id ->
  In id TARGETS /\ (own name MODEL_MAP = None -> isThinkingModel id = true).
Proof.
  unfold mapModel. destruct (own name MODEL_MAP) as [id'|] eqn:Hown.
  - intros [= ->]. split; [|discriminate].
    apply own_In in Hown. simpl in Hown.
    repeat (destruct Hown as [<- | Hown]; [simpl; auto|]). contradiction.
  - destruct (inherited name); [discriminate|].
    destruct (includes "opus" name); [|destruct (includes "sonnet" name)];
      intros [= <-]; simpl; auto.
Qed.

Lemma listed_claude (id : string) :
  In id TARGETS -> prefix "claude-" id = true /\ mapModel id = Target id.
Proof.
  simpl. intros H. repeat (destruct H as [<- | H]; [split; reflexivity|]). contradiction.
Qed.

(** X6: the model name sent to the backend is one of three ids, each of
    which starts with "claude-" and is mapped to itself; a name that is
    not in the table gets a thinking model; the only other outcome is a
    member inherited from the prototype of the table, under the client's
    own name. *)
Theorem mapModel_targets (name : string) :
  match mapModel name with
  | Target id =>
      In id TARGETS /\ prefix "claude-" id = true /\ mapModel id = Target id /\
      (own name MODEL_MAP = None -> isThinkingModel id = true)
  | Member m => m = name /\ inherited name = true /\ own name MODEL_MAP = None
  end.
Proof.
  destruct (mapModel name) as [id|m] eqn:Hm.
  - destruct (target_listed name id Hm) as [Hin Hthink].
    destruct (listed_claude id Hin) as [Hp Hfix]. auto.
  - unfold mapModel in Hm. destruct (own name MODEL_MAP); [discriminate|].
    destruct (inherited name); [injection Hm as <-; auto|].
    destruct (includes "opus" name); [|destruct (includes "sonnet" name)]; discriminate.
Qed.

End ModelMore.

(* ================================================================== *)
(** * Schema normaliser: further facts                                 *)
(* ================================================================== *)

Module SchemaMore.
Import Schema Properties Shapes.

Lemma distinct_NoDup (keys : list string) : distinct keys = true <-> NoDup keys.
Proof.
  induction keys as [|k keys IH]; simpl.
  - split; [constructor | reflexivity].
  - rewrite andb_true_iff, negb_true_iff, IH. split.
    + intros [Hk Hd]. constructor; [|exact Hd]. intros Hin.
      assert (existsb (String.eqb k) keys = true)
        by (apply existsb_exists; exists k; split; [exact Hin | apply String.eqb_refl]).
      congruence.
    + intros H. inversion H as [|? ? Hk Hd]; subst. split; [|exact Hd].
      destruct (existsb (String.eqb k) keys) eqn:E; [|reflexivity].
      apply existsb_exists in E. destruct E as (x & Hx & Hkx).
      apply String.eqb_eq in Hkx. subst x. contradiction.
Qed.

Lemma strip_scalar (value : json) :
  typeof_object value && negb (is_null value) = false -> stripDollarSchema value = value.
Proof. destruct value; simpl; try discriminate; reflexivity. Qed.

(** What the loop has built keeps a property that the stripped value of
    each entry it takes has. *)
Lemma stripEntries_forall (Q : string * json -> bool) (es : fields) :
  (forall k v, In (k, v) es -> prefix "$" k = false -> (k =? "__proto__") = false ->
               Q (k, stripDollarSchema v) = true) ->
  forall clean,
    forallb Q clean = true ->
    forallb Q (stripEntries stripDollarSchema es clean) = true.
Proof.
  induction es as [|[key value] es IH]; intros Hrec clean Hclean; simpl; [exact Hclean|].
  assert (Hrest : forall k v, In (k, v) es -> prefix "$" k = false ->
                              (k =? "__proto__") = false ->
                              Q (k, stripDollarSchema v) = true)
    by (intros k v H; apply (Hrec k v); right; exact H).
  destruct (prefix "$" key) eqn:Hkey; [apply IH; assumption|].
  destruct (key =? "__proto__") eqn:Hproto; [apply IH; assumption|].
  pose proof (Hrec key value (or_introl eq_refl) Hkey Hproto) as Hq.
  destruct (typeof_object value && negb (is_null value)) eqn:Hobj.
  - apply IH; [assumption|]. apply SchemaFacts.forallb_assign; assumption.
  - rewrite (strip_scalar _ Hobj) in Hq.
    apply IH; [assumption|]. apply SchemaFacts.forallb_assign; assumption.
Qed.

Lemma stripEntries_NoDup (es clean : fields) :
  NoDup (map fst clean) -> NoDup (map fst (stripEntries stripDollarSchema es clean)).
Proof.
  revert clean. induction es as [|[key value] es IH]; intros clean Hnd; simpl; [exact Hnd|].
  destruct (prefix "$" key); [apply IH, Hnd|].
  destruct (key =? "__proto__"); [apply IH, Hnd|].
  destruct (typeof_object value && negb (is_null value));
    apply IH, SchemaFacts.NoDup_assign, Hnd.
Qed.

Lemma stripDollarSchema_clean (schema : json) :
  dollar_free (stripDollarSchema schema) = true /\
  keys_distinct (stripDollarSchema schema) = true /\
  proto_free (stripDollarSchema schema) = true.
Proof.
  remember (S (depth schema)) as n eqn:Hn.
  assert (Hlt : depth schema < n) by lia. clear Hn.
  revert schema Hlt. induction n as [|n IH]; intros schema Hlt; [lia|].
  destruct schema as [| | | |l|fs]; try (repeat split; reflexivity).
  - change (forallb dollar_free (map stripDollarSchema l) = true /\
            forallb keys_distinct (map stripDollarSchema l) = true /\
            forallb proto_free (map stripDollarSchema l) = true).
    rewrite !forallb_forall. repeat split; intros x Hx; apply in_map_iff in Hx;
      destruct Hx as (y & <- & Hy); apply IH;
      pose proof (SchemaFacts.depth_elem y l Hy); lia.
  - assert (Hrec : forall k v, In (k, v) fs -> depth v < n)
      by (intros k v H; pose proof (SchemaFacts.depth_field k v fs H); lia).
    change (forallb (fun kv => negb (prefix "$" (fst kv)) && dollar_free (snd kv))
                    (stripEntries stripDollarSchema fs []) = true /\
            distinct (map fst (stripEntries stripDollarSchema fs [])) &&
            forallb (fun kv => keys_distinct (snd kv))
                    (stripEntries stripDollarSchema fs []) = true /\
            forallb (fun kv => negb (fst kv =? "__proto__") && proto_free (snd kv))
                    (stripEntries stripDollarSchema fs []) = true).
    split; [|split].
    + apply stripEntries_forall; [|reflexivity].
      intros k v H Hk _. simpl. rewrite Hk. exact (proj1 (IH v (Hrec k v H))).
    + apply andb_true_intro. split.
      * apply distinct_NoDup, stripEntries_NoDup. constructor.
      * apply stripEntries_forall; [|reflexivity].
        intros k v H _ _. exact (proj1 (proj2 (IH v (Hrec k v H)))).
    + apply stripEntries_forall; [|reflexivity].
      intros k v H _ Hk. simpl. rewrite Hk. exact (proj2 (proj2 (IH v (Hrec k v H)))).
Qed.

(** ** Schemas the first pass leaves alone *)

Lemma assign_fresh (k : string) (v : json) (fs : fields) :
  ~ In k (map fst fs) -> assign k v fs = fs ++ [(k, v)].
Proof.
  induction fs as [|[k' v'] fs IH]; simpl; intros H; [reflexivity|].
  destruct (String.eqb_spec k' k) as [->|_]; [exfalso; apply H; left; reflexivity|].
  rewrite IH; [reflexivity|]. intros Hin. apply H. right. exact Hin.
Qed.

Lemma stripEntries_same (es : fields) :
  (forall k v, In (k, v) es -> stripDollarSchema v = v) ->
  forallb (fun kv => kept_key (fst kv)) es = true ->
  forall clean,
    NoDup (map fst (clean ++ es)) ->
    stripEntries stripDollarSchema es clean = clean ++ es.
Proof.
  induction es as [|[key value] es IH]; intros Hrec Hkeys clean Hnd; simpl.
  - rewrite app_nil_r. reflexivity.
  - simpl in Hkeys. apply andb_prop in Hkeys. destruct Hkeys as [Hkey Hkeys].
    unfold kept_key in Hkey. simpl fst in Hkey.
    apply andb_prop in Hkey. destruct Hkey as [Hkey Hproto].
    apply negb_true_iff in Hkey. apply negb_true_iff in Hproto. rewrite Hkey, Hproto.
    assert (Hfresh : ~ In key (map fst clean)).
    { rewrite map_app in Hnd. simpl in Hnd. apply NoDup_remove_2 in Hnd.
      intros Hin. apply Hnd. apply in_or_app. left. exact Hin. }
    assert (Hnext : NoDup (map fst ((clean ++ [(key, value)]) ++ es)))
      by (rewrite <- app_assoc; exact Hnd).
    assert (Hrest : forall k v, In (k, v) es -> stripDollarSchema v = v)
      by (intros k v H; apply (Hrec k v); right; exact H).
    destruct (typeof_object value && negb (is_null value)).
    + rewrite (Hrec key value (or_introl eq_refl)).
      rewrite (assign_fresh key value clean Hfresh).
      rewrite (IH Hrest Hkeys _ Hnext), <- app_assoc. reflexivity.
    + rewrite (assign_fresh key value clean Hfresh).
      rewrite (IH Hrest Hkeys _ Hnext), <- app_assoc. reflexivity.
Qed.

Lemma stripDollarSchema_same (schema : json) :
  cleanValue schema = true -> stripDollarSchema schema = schema.
Proof.
  unfold cleanValue.
  remember (S (depth schema)) as n eqn:Hn.
  assert (Hlt : depth schema < n) by lia. clear Hn.
  revert schema Hlt. induction n as [|n IH]; intros schema Hlt Hclean; [lia|].
  apply andb_prop in Hclean. destruct Hclean as [Hclean Hproto].
  apply andb_prop in Hclean. destruct Hclean as [Hfree Hkeys].
  destruct schema as [| | | |l|fs]; try reflexivity.
  - change (JArr (map stripDollarSchema l) = JArr l). f_equal.
    change (forallb dollar_free l = true) in Hfree.
    change (forallb keys_distinct l = true) in Hkeys.
    change (forallb proto_free l = true) in Hproto.
    rewrite forallb_forall in Hfree, Hkeys, Hproto.
    rewrite <- (map_id l) at 2. apply map_ext_in. intros x Hx.
    apply IH; [pose proof (SchemaFacts.depth_elem x l Hx); lia|].
    rewrite (Hfree x Hx), (Hkeys x Hx), (Hproto x Hx). reflexivity.
  - change (JObj (stripEntries stripDollarSchema fs []) = JObj fs). f_equal.
    change (forallb (fun kv => negb (prefix "$" (fst kv)) && dollar_free (snd kv)) fs = true)
      in Hfree.
    change (distinct (map fst fs) && forallb (fun kv => keys_distinct (snd kv)) fs = true)
      in Hkeys.
    change (forallb (fun kv => negb (fst kv =? "__proto__") && proto_free (snd kv)) fs = true)
      in Hproto.
    apply andb_prop in Hkeys. destruct Hkeys as [Hnd Hkeys].
    rewrite forallb_forall in Hfree, Hkeys, Hproto.
    apply (stripEntries_same fs); [| |apply distinct_NoDup; exact Hnd].
    + intros k v H. apply IH; [pose proof (SchemaFacts.depth_field k v fs H); lia|].
      specialize (Hfree (k, v) H). specialize (Hproto (k, v) H). specialize (Hkeys (k, v) H).
      apply andb_prop in Hfree. apply andb_prop in Hproto. simpl in *.
      rewrite (proj2 Hfree), Hkeys, (proj2 Hproto). reflexivity.
    + apply forallb_forall. intros kv H.
      specialize (Hfree kv H). specialize (Hproto kv H).
      apply andb_prop in Hfree. apply andb_prop in Hproto.
      unfold kept_key. rewrite (proj1 Hfree), (proj1 Hproto). reflexivity.
Qed.

(** X7: on a schema whose objects hold each key once, as an object that
    [JSON.parse] returns does, the first pass returns the schema as it
    is, fields in the same order, exactly when no key of it, at any
    depth, starts with a dollar sign or is [__proto__]. *)
Theorem stripDollarSchema_keeps_the_rest (schema : json) :
  keys_distinct schema = true ->
  (stripDollarSchema schema = schema <->
   dollar_free schema = true /\ proto_free schema = true).
Proof.
  intros Hkeys. split.
  - intros Hsame. rewrite <- Hsame.
    destruct (stripDollarSchema_clean schema) as (Hfree & _ & Hproto). auto.
  - intros [Hfree Hproto]. apply stripDollarSchema_same.
    unfold cleanValue. rewrite Hfree, Hkeys, Hproto. reflexivity.
Qed.

(** The schema [{type: "object", properties: {n: {type: "number",
    format: "int32"}}, additionalProperties: false}] is kept; a schema
    with the single key [__proto__] is not. *)
Lemma stripDollarSchema_keeps_the_rest_witness :
  stripDollarSchema
    (JObj [("type", JStr "object");
           ("properties", JObj [("n", JObj [("type", JStr "number");
                                            ("format", JStr "int32")])]);
           ("additionalProperties", JBool false)])
  = JObj [("type", JStr "object");
          ("properties", JObj [("n", JObj [("type", JStr "number");
                                           ("format", JStr "int32")])]);
          ("additionalProperties", JBool false)] /\
  stripDollarSchema (JObj [("__proto__", JNum 1)]) <> JObj [("__proto__", JNum 1)].
Proof.
  split.
  - apply (stripDollarSchema_keeps_the_rest
             (JObj [("type", JStr "object");
                    ("properties", JObj [("n", JObj [("type", JStr "number");
                                                     ("format", JStr "int32")])]);
                    ("additionalProperties", JBool false)]));
      [reflexivity | split; reflexivity].
  - intros H.
    apply (stripDollarSchema_keeps_the_rest (JObj [("__proto__", JNum 1)]) eq_refl) in H.
    destruct H as [_ H]. discriminate H.
Defined.

(** X8: the first pass of the normaliser leaves no key that starts with a
    dollar sign, at any depth of the schema; each object it builds has
    each key once; and running the pass a second time changes nothing. *)
Theorem stripDollarSchema_dollar_free (schema : json) :
  dollar_free (stripDollarSchema schema) = true /\
  keys_distinct (stripDollarSchema schema) = true /\
  stripDollarSchema (stripDollarSchema schema) = stripDollarSchema schema.
Proof.
  destruct (stripDollarSchema_clean schema) as (Hfree & Hkeys & Hproto).
  split; [exact Hfree|]. split; [exact Hkeys|].
  apply stripDollarSchema_same. unfold cleanValue. rewrite Hfree, Hkeys, Hproto. reflexivity.
Qed.

(** ** Schemas the normaliser leaves alone *)

Lemma allowed_keys (k : string) :
  allowed k = true ->
  kept_key k = true /\ k <> "anyOf" /\ k <> "oneOf".
Proof.
  unfold allowed. simpl. intros H.
  repeat (apply orb_prop in H;
          destruct H as [H | H];
          [apply String.eqb_eq in H; subst k; repeat split; discriminate|]).
  discriminate H.
Qed.

Lemma lookup_not_key (k : string) (fs : fields) :
  (forall v, ~ In (k, v) fs) -> lookup k fs = None.
Proof.
  intros H. destruct (lookup k fs) as [v|] eqn:E; [|reflexivity].
  destruct (H v (SchemaFacts.lookup_In _ _ _ E)).
Qed.

Lemma assign_bound (k : string) (v : json) (fs : fields) :
  lookup k fs = Some v -> assign k v fs = fs.
Proof.
  induction fs as [|[k' v'] fs IH]; simpl; [discriminate|].
  destruct (k' =? k) eqn:E.
  - intros [= ->]. reflexivity.
  - intros H. rewrite (IH H). reflexivity.
Qed.

Lemma fromEntries_distinct_from (es acc : fields) :
  NoDup (map fst (acc ++ es)) ->
  fold_left (fun obj kv => assign (fst kv) (snd kv) obj) es acc = acc ++ es.
Proof.
  revert acc. induction es as [|[k v] es IH]; intros acc H; simpl.
  - rewrite app_nil_r. reflexivity.
  - rewrite assign_fresh.
    + rewrite IH; rewrite <- app_assoc; [reflexivity | exact H].
    + rewrite map_app in H. simpl in H. apply NoDup_remove_2 in H.
      intros Hin. apply H. apply in_or_app. left. exact Hin.
Qed.

Lemma fromEntries_distinct (es : fields) :
  NoDup (map fst es) -> fromEntries es = es.
Proof. intros H. exact (fromEntries_distinct_from es [] H). Qed.

Lemma mapM_same {A} (f : A -> result A) (l : list A) :
  (forall x, In x l -> f x = Ok x) -> mapM f l = Ok l.
Proof.
  induction l as [|x l IH]; intros H; simpl; [reflexivity|].
  rewrite (H x (or_introl eq_refl)). simpl.
  rewrite IH; [reflexivity|]. intros y Hy. apply H. right. exact Hy.
Qed.

Lemma map_same {A} (f : A -> A) (l : list A) :
  (forall x, In x l -> f x = x) -> map f l = l.
Proof.
  intros H. rewrite <- (map_id l) at 2. apply map_ext_in. exact H.
Qed.

(** The first pass leaves a settled schema as it is. *)
Lemma Settled_strip (typed : bool) (j : json) :
  Settled typed j -> stripDollarSchema j = j.
Proof.
  induction 1 as [v Ha Ho | l _ IH | fs Hnd Hallowed Hplain _ Hshape _ IHprops _ IHitems].
  - destruct v; try reflexivity; [destruct (Ha _ eq_refl) | destruct (Ho _ eq_refl)].
  - change (JArr (map stripDollarSchema l) = JArr l). f_equal. apply map_same, IH.
  - change (JObj (stripEntries stripDollarSchema fs []) = JObj fs). f_equal.
    apply (stripEntries_same fs); [| |exact Hnd].
    + intros k v Hin.
      destruct (String.eqb_spec k "items") as [->|Hi]; [exact (IHitems v Hin)|].
      destruct (String.eqb_spec k "properties") as [->|Hp]; [|exact (Hplain k v Hin Hp Hi)].
      destruct (typeof_object v) eqn:Hobj.
      * destruct (Hshape v Hin Hobj) as (ps & -> & Hps & Hkeys).
        change (JObj (stripEntries stripDollarSchema ps []) = JObj ps). f_equal.
        apply (stripEntries_same ps); [| |exact Hps].
        -- intros k' v' Hin'. exact (IHprops (JObj ps) k' v' Hin Hin').
        -- apply forallb_forall. intros [k' v'] Hin'. exact (Hkeys k' v' Hin').
      * destruct v; try reflexivity; discriminate Hobj.
    + apply forallb_forall. intros [k v] Hin.
      exact (proj1 (allowed_keys k (Hallowed k v Hin))).
Qed.

(** The second pass leaves a settled schema as it is. *)
Lemma Settled_sanitize (typed : bool) (j : json) :
  Settled typed j -> sanitizeSchema j = Ok j.
Proof.
  induction 1 as [v Ha Ho | l _ IH | fs Hnd Hallowed _ _ Hshape _ IHprops _ IHitems];
    rewrite SchemaFacts.sanitizeSchema_unfold; unfold sanitizeBody.
  - destruct v; cbn [typeof_object negb]; rewrite ?orb_true_r; try reflexivity;
      [destruct (Ha _ eq_refl) | destruct (Ho _ eq_refl)].
  - simpl. rewrite (mapM_same _ l IH). reflexivity.
  - simpl negb. simpl orb. cbv iota.
    assert (Hflat : flattenUnion fs = Ok fs).
    { unfold flattenUnion, unionOf, js_or.
      rewrite (lookup_not_key "anyOf"), (lookup_not_key "oneOf"); [reflexivity| |];
        intros v Hin; destruct (allowed_keys _ (Hallowed _ _ Hin)) as (_ & H1 & H2);
        congruence. }
    rewrite Hflat. cbn [bind]. unfold allowListed.
    assert (Hfold : forall es acc,
               NoDup (map fst (acc ++ es)) -> (forall kv, In kv es -> In kv fs) ->
               fold_left (cleanEntry sanitizeSchema) es (Ok acc) = Ok (acc ++ es)).
    { induction es as [|[k v] es IHes]; intros acc Hd Hsub; cbn [fold_left].
      - rewrite app_nil_r. reflexivity.
      - assert (Hin : In (k, v) fs) by (apply Hsub; left; reflexivity).
        assert (Hfresh : ~ In k (map fst acc)).
        { rewrite map_app in Hd. simpl in Hd. apply NoDup_remove_2 in Hd.
          intros Hk. apply Hd. apply in_or_app. left. exact Hk. }
        assert (Hstep : cleanEntry sanitizeSchema (Ok acc) (k, v) = Ok (acc ++ [(k, v)])).
        { unfold cleanEntry. cbn [bind]. rewrite (Hallowed k v Hin). simpl negb. cbv iota.
          destruct (String.eqb_spec k "properties") as [->|Hp]; simpl andb.
          - destruct (typeof_object v) eqn:Hobj.
            + destruct (Hshape v Hin Hobj) as (ps & -> & Hps & _). simpl is_null. cbv iota.
              simpl entries.
              rewrite (mapM_same (fun e => bind (sanitizeSchema (snd e))
                                             (fun v0 => Ok (fst e, v0))) ps).
              * cbn [bind]. rewrite (fromEntries_distinct ps Hps).
                rewrite (assign_fresh _ _ _ Hfresh). reflexivity.
              * intros [k' v'] Hin'. simpl.
                rewrite (IHprops (JObj ps) k' v' Hin Hin'). reflexivity.
            + simpl. rewrite (assign_fresh _ _ _ Hfresh). reflexivity.
          - destruct (String.eqb_spec k "items") as [->|Hi].
            + rewrite (IHitems v Hin). cbn [bind].
              rewrite (assign_fresh _ _ _ Hfresh). reflexivity.
            + rewrite (assign_fresh _ _ _ Hfresh). reflexivity. }
        rewrite Hstep. rewrite IHes.
        + rewrite <- app_assoc. reflexivity.
        + rewrite <- app_assoc. exact Hd.
        + intros kv Hkv. apply Hsub. right. exact Hkv. }
    rewrite (Hfold fs []); [reflexivity | exact Hnd | auto].
Qed.

(** The third pass leaves a settled, typed schema as it is. *)
Lemma Settled_ensure (j : json) : Settled true j -> ensureSchemaType j = j.
Proof.
  induction 1 as [v Ha Ho | l _ IH | fs Hnd _ _ Htype Hshape _ IHprops _ IHitems];
    rewrite SchemaFacts.ensureSchemaType_unfold; unfold ensureBody.
  - destruct v; cbn [typeof_object negb]; rewrite ?orb_true_r; try reflexivity;
      [destruct (Ha _ eq_refl) | destruct (Ho _ eq_refl)].
  - simpl. rewrite (map_same _ l IH). reflexivity.
  - simpl negb. simpl orb. cbv iota. f_equal.
    assert (H1 : withType fs = fs) by (unfold withType; rewrite (Htype eq_refl); reflexivity).
    assert (H2 : withProperties ensureSchemaType fs = fs).
    { unfold withProperties. destruct (lookup "properties" fs) as [p|] eqn:Hp; [|reflexivity].
      destruct (truthy p && typeof_object p) eqn:Hc; [|reflexivity].
      apply andb_prop in Hc. destruct Hc as [_ Hobj].
      pose proof (SchemaFacts.lookup_In _ _ _ Hp) as Hin.
      destruct (Hshape p Hin Hobj) as (ps & -> & Hps & _). simpl entries.
      rewrite (map_same (fun e => (fst e, ensureSchemaType (snd e))) ps).
      - rewrite (fromEntries_distinct ps Hps). apply assign_bound, Hp.
      - intros [k v] Hkv. simpl. rewrite (IHprops (JObj ps) k v Hin Hkv). reflexivity. }
    assert (H3 : withItems ensureSchemaType fs = fs).
    { unfold withItems. destruct (lookup "items" fs) as [i|] eqn:Hi; [|reflexivity].
      destruct (truthy i); [|reflexivity].
      rewrite (IHitems i (SchemaFacts.lookup_In _ _ _ Hi)). apply assign_bound, Hi. }
    rewrite H1, H2, H3. reflexivity.
Qed.

(** ** What the third pass makes of the result of the second *)

Lemma withType_In (fs : fields) (k : string) (v : json) :
  In (k, v) (withType fs) ->
  (k = "type" /\ v = JStr (inferType fs)) \/ In (k, v) fs.
Proof.
  unfold withType. destruct (negb _); [|auto].
  intros H. apply SchemaFacts.In_assign in H. exact H.
Qed.

Lemma withProperties_NoDup (rec : json -> json) (s : fields) :
  NoDup (map fst s) -> NoDup (map fst (withProperties rec s)).
Proof.
  unfold withProperties. destruct (lookup "properties" s); [|auto].
  destruct (_ && _); [apply SchemaFacts.NoDup_assign | auto].
Qed.

Lemma withItems_NoDup (rec : json -> json) (s : fields) :
  NoDup (map fst s) -> NoDup (map fst (withItems rec s)).
Proof.
  unfold withItems. destruct (lookup "items" s) as [i|]; [|auto].
  destruct (truthy i); [apply SchemaFacts.NoDup_assign | auto].
Qed.

Lemma withProperties_In (rec : json -> json) (s : fields) (k : string) (v : json) :
  NoDup (map fst s) -> In (k, v) (withProperties rec s) ->
  (k <> "properties" /\ In (k, v) s) \/
  (k = "properties" /\
   ((exists p, In ("properties", p) s /\ truthy p && typeof_object p = true /\
               v = JObj (fromEntries (map (fun e => (fst e, rec (snd e))) (entries p)))) \/
    (In (k, v) s /\ truthy v && typeof_object v = false))).
Proof.
  intros Hnd. unfold withProperties.
  destruct (lookup "properties" s) as [p|] eqn:Hp.
  - destruct (truthy p && typeof_object p) eqn:Hc.
    + intros H. destruct (String.eqb_spec k "properties") as [->|Hk].
      * right. split; [reflexivity|]. left. exists p.
        split; [exact (SchemaFacts.lookup_In _ _ _ Hp)|]. split; [exact Hc|].
        exact (SchemaFacts.In_assign_same _ _ _ _ Hnd H).
      * left. split; [exact Hk|]. apply SchemaFacts.In_assign in H.
        destruct H as [[-> _] | H]; [contradiction | exact H].
    + intros H. destruct (String.eqb_spec k "properties") as [->|Hk]; [|auto].
      right. split; [reflexivity|]. right. split; [exact H|].
      rewrite (SchemaFacts.In_lookup_nodup _ _ _ Hnd H) in Hp. injection Hp as ->. exact Hc.
  - intros H. destruct (String.eqb_spec k "properties") as [->|Hk]; [|auto].
    rewrite (SchemaFacts.In_lookup_nodup _ _ _ Hnd H) in Hp. discriminate Hp.
Qed.

Lemma withItems_In (rec : json -> json) (s : fields) (k : string) (v : json) :
  NoDup (map fst s) -> In (k, v) (withItems rec s) ->
  (k <> "items" /\ In (k, v) s) \/
  (k = "items" /\
   ((exists i, In ("items", i) s /\ truthy i = true /\ v = rec i) \/
    (In (k, v) s /\ truthy v = false))).
Proof.
  intros Hnd. unfold withItems.
  destruct (lookup "items" s) as [i|] eqn:Hi.
  - destruct (truthy i) eqn:Hc.
    + intros H. destruct (String.eqb_spec k "items") as [->|Hk].
      * right. split; [reflexivity|]. left. exists i.
        split; [exact (SchemaFacts.lookup_In _ _ _ Hi)|]. split; [exact Hc|].
        exact (SchemaFacts.In_assign_same _ _ _ _ Hnd H).
      * left. split; [exact Hk|]. apply SchemaFacts.In_assign in H.
        destruct H as [[-> _] | H]; [contradiction | exact H].
    + intros H. destruct (String.eqb_spec k "items") as [->|Hk]; [|auto].
      right. split; [reflexivity|]. right. split; [exact H|].
      rewrite (SchemaFacts.In_lookup_nodup _ _ _ Hnd H) in Hi. injection Hi as ->. exact Hc.
  - intros H. destruct (String.eqb_spec k "items") as [->|Hk]; [|auto].
    rewrite (SchemaFacts.In_lookup_nodup _ _ _ Hnd H) in Hi. discriminate Hi.
Qed.

Lemma no_entries (p : json) : truthy p && typeof_object p = false -> entries p = [].
Proof. destruct p; simpl; try reflexivity; discriminate. Qed.

Lemma ensure_settles (j : json) : Settled false j -> Settled true (ensureSchemaType j).
Proof.
  induction 1 as [v Ha Ho | l _ IH | fs Hnd Hallowed Hplain _ Hshape _ IHprops Hitems IHitems];
    rewrite SchemaFacts.ensureSchemaType_unfold; unfold ensureBody.
  - replace (if negb (truthy v) || negb (typeof_object v) then v
             else match v with
                  | JArr l => JArr (map ensureSchemaType l)
                  | JObj fs =>
                      JObj (withItems ensureSchemaType
                              (withProperties ensureSchemaType (withType fs)))
                  | _ => v
                  end) with v; [apply Settled_leaf; assumption|].
    destruct v; cbn [typeof_object negb]; rewrite ?orb_true_r; try reflexivity;
      [destruct (Ha _ eq_refl) | destruct (Ho _ eq_refl)].
  - simpl. apply Settled_array. intros x Hx. apply in_map_iff in Hx.
    destruct Hx as (y & <- & Hy). exact (IH y Hy).
  - simpl negb. simpl orb. cbv iota.
    set (f1 := withType fs).
    set (f2 := withProperties ensureSchemaType f1).
    assert (Hnd1 : NoDup (map fst f1)) by (apply SchemaFacts.withType_NoDup, Hnd).
    assert (Hnd2 : NoDup (map fst f2)) by (apply withProperties_NoDup, Hnd1).
    assert (Hin1 : forall k v, In (k, v) f1 -> k <> "type" -> In (k, v) fs).
    { intros k v H Hk. destruct (withType_In _ _ _ H) as [[-> _] | H']; [contradiction | exact H']. }
    apply Settled_node.
    + apply withItems_NoDup, Hnd2.
    + intros k v H.
      destruct (withItems_In _ _ _ _ Hnd2 H) as [[_ H2] | [-> _]]; [|reflexivity].
      destruct (withProperties_In _ _ _ _ Hnd1 H2) as [[_ H1] | [-> _]]; [|reflexivity].
      exact (SchemaFacts.withType_keys _ _ _ Hallowed H1).
    + intros k v H Hp Hi.
      destruct (withItems_In _ _ _ _ Hnd2 H) as [[_ H2] | [-> _]]; [|contradiction].
      destruct (withProperties_In _ _ _ _ Hnd1 H2) as [[_ H1] | [-> _]]; [|contradiction].
      destruct (withType_In _ _ _ H1) as [[_ ->] | H0]; [reflexivity|].
      exact (Hplain k v H0 Hp Hi).
    + intros _. rewrite SchemaFacts.lookup_withItems by discriminate.
      unfold f2. rewrite SchemaFacts.lookup_withProperties by discriminate.
      apply SchemaFacts.withType_truthy.
    + intros p H Hobj.
      destruct (withItems_In _ _ _ _ Hnd2 H) as [[_ H2] | [E _]]; [|discriminate E].
      destruct (withProperties_In _ _ _ _ Hnd1 H2)
        as [[E _] | [_ [(p0 & Hp0 & Hc & ->) | [H1 _]]]]; [contradiction| |].
      * apply andb_prop in Hc. destruct Hc as [_ Hobj0].
        destruct (Hshape p0 (Hin1 _ _ Hp0 ltac:(discriminate)) Hobj0)
          as (ps & -> & Hps & Hkeys).
        eexists. split; [reflexivity|]. simpl entries.
        destruct (SchemaFacts.fromEntries_from
                    (map (fun e => (fst e, ensureSchemaType (snd e))) ps) []
                    (NoDup_nil _)) as [Hd Hfrom].
        split; [exact Hd|]. intros k v Hkv.
        destruct (Hfrom k v Hkv) as [Hm | []].
        apply in_map_iff in Hm. destruct Hm as ([k0 v0] & [= <- _] & Hm).
        exact (Hkeys k0 v0 Hm).
      * exact (Hshape p (Hin1 _ _ H1 ltac:(discriminate)) Hobj).
    + intros p k v H Hkv.
      destruct (withItems_In _ _ _ _ Hnd2 H) as [[_ H2] | [E _]]; [|discriminate E].
      destruct (withProperties_In _ _ _ _ Hnd1 H2)
        as [[E _] | [_ [(p0 & Hp0 & Hc & ->) | [_ Hc]]]]; [contradiction| |].
      * simpl entries in Hkv. apply SchemaFacts.fromEntries_In in Hkv.
        apply in_map_iff in Hkv. destruct Hkv as ([k0 v0] & [= <- <-] & Hm).
        exact (IHprops p0 k0 v0 (Hin1 _ _ Hp0 ltac:(discriminate)) Hm).
      * rewrite (no_entries p Hc) in Hkv. contradiction.
    + intros v H.
      destruct (withItems_In _ _ _ _ Hnd2 H) as [[E _] | [_ [(i & Hi & _ & ->) | [_ Hc]]]];
        [contradiction| |].
      * apply IHitems. apply Hin1; [|discriminate].
        destruct (withProperties_In _ _ _ _ Hnd1 Hi) as [[_ H1] | [E _]];
          [exact H1 | discriminate E].
      * destruct (SchemaFacts.falsy_is_leaf v Hc) as [Ha Ho]. apply Settled_leaf; assumption.
Qed.

(** ** What the second pass makes of the result of the first *)

Lemma index_key_plain (i : nat) : kept_key (index_key i) = true.
Proof. unfold index_key. destruct (Nat.to_uint i); reflexivity. Qed.

Lemma indexed_from_key (i : nat) (l : list json) (k : string) (v : json) :
  In (k, v) (indexed_from i l) -> kept_key k = true.
Proof.
  revert i. induction l as [|x l IH]; simpl; intros i H; [contradiction|].
  destruct H as [[= <- _] | H]; [apply index_key_plain | exact (IH _ H)].
Qed.

Lemma clean_elem (l : list json) (x : json) :
  cleanValue (JArr l) = true -> In x l -> cleanValue x = true.
Proof.
  unfold cleanValue. intros H Hin. apply andb_prop in H. destruct H as [H Hp].
  apply andb_prop in H. destruct H as [Hd Hk].
  change (forallb dollar_free l = true) in Hd.
  change (forallb keys_distinct l = true) in Hk.
  change (forallb proto_free l = true) in Hp.
  rewrite forallb_forall in Hd, Hk, Hp.
  rewrite (Hd x Hin), (Hk x Hin), (Hp x Hin). reflexivity.
Qed.

Lemma clean_field (fs : fields) (k : string) (v : json) :
  cleanValue (JObj fs) = true -> In (k, v) fs ->
  cleanValue v = true /\ kept_key k = true.
Proof.
  unfold cleanValue. intros H Hin. apply andb_prop in H. destruct H as [H Hp].
  apply andb_prop in H. destruct H as [Hd Hk].
  change (forallb (fun kv => negb (prefix "$" (fst kv)) && dollar_free (snd kv)) fs = true)
    in Hd.
  change (distinct (map fst fs) && forallb (fun kv => keys_distinct (snd kv)) fs = true)
    in Hk.
  change (forallb (fun kv => negb (fst kv =? "__proto__") && proto_free (snd kv)) fs = true)
    in Hp.
  apply andb_prop in Hk. destruct Hk as [_ Hk].
  rewrite forallb_forall in Hd, Hk, Hp.
  specialize (Hd _ Hin). specialize (Hk _ Hin). specialize (Hp _ Hin).
  simpl in Hd, Hk, Hp. apply andb_prop in Hd. destruct Hd as [Hkey Hd].
  apply andb_prop in Hp. destruct Hp as [Hproto Hp].
  rewrite Hd, Hk, Hp. split; [reflexivity|].
  unfold kept_key. rewrite Hkey, Hproto. reflexivity.
Qed.

Lemma clean_entries (p : json) (k : string) (v : json) :
  cleanValue p = true -> In (k, v) (entries p) ->
  cleanValue v = true /\ kept_key k = true.
Proof.
  destruct p; simpl entries; try contradiction.
  - intros H Hin. split.
    + exact (clean_elem _ _ H (SchemaFacts.indexed_from_In _ _ _ _ Hin)).
    + exact (indexed_from_key _ _ _ _ Hin).
  - apply clean_field.
Qed.

Lemma clean_strip (v : json) : cleanValue v = true -> stripDollarSchema v = v.
Proof. exact (stripDollarSchema_same v). Qed.

(** The union pass hands on values found in the schema. *)
Lemma flattenUnion_values (Q : json -> Prop) (fs working : fields) :
  (forall k v, In (k, v) fs -> Q v) ->
  (forall l x, Q (JArr l) -> In x l -> Q x) ->
  (forall p k v, Q p -> In (k, v) (entries p) -> Q v) ->
  flattenUnion fs = Ok working ->
  forall k v, In (k, v) working -> Q v.
Proof.
  intros Hself Helem Hentries. unfold flattenUnion.
  destruct (truthy_opt (unionOf fs)); [|intros [= <-]; exact Hself].
  destruct (unionOf fs) as [[| | | |candidates|]|] eqn:Hu; try discriminate.
  destruct (SchemaFacts.unionOf_In _ _ Hu) as [ku Hin].
  assert (Hvariant : forall x, In x (filter isVariant candidates) ->
                               forall k v, In (k, v) (withDescription x fs) -> Q v).
  { intros x Hx k v. apply filter_In in Hx. destruct Hx as [Hx _].
    pose proof (Helem _ _ (Hself _ _ Hin) Hx) as Qx.
    unfold withDescription. destruct (lookup "description" fs) as [d|] eqn:Hd.
    - destruct (truthy d).
      + intros H. apply SchemaFacts.In_assign in H. destruct H as [[_ ->] | H].
        * exact (Hself _ _ (SchemaFacts.lookup_In _ _ _ Hd)).
        * exact (Hentries _ _ _ Qx H).
      + apply Hentries, Qx.
    - apply Hentries, Qx. }
  destruct (filter isVariant candidates) as [|v1 [|v2 more]] eqn:Hvs.
  - intros [= <-]. exact Hself.
  - intros [= <-]. apply Hvariant. left. reflexivity.
  - destruct (find isSpecific (v1 :: v2 :: more)) as [specific|] eqn:Hfind.
    + intros [= <-]. apply Hvariant. exact (proj1 (find_some _ _ Hfind)).
    + intros [= <-]. apply Hvariant. left. reflexivity.
Qed.

Lemma Settled_node_inv (typed : bool) (fs : fields) :
  Settled typed (JObj fs) ->
  NoDup (map fst fs) /\
  (forall k v, In (k, v) fs -> allowed k = true) /\
  (forall k v, In (k, v) fs -> k <> "properties" -> k <> "items" ->
               stripDollarSchema v = v) /\
  (typed = true -> truthy_opt (lookup "type" fs) = true) /\
  (forall p, In ("properties", p) fs -> typeof_object p = true ->
             exists ps, p = JObj ps /\ NoDup (map fst ps) /\
                        forall k v, In (k, v) ps -> kept_key k = true) /\
  (forall p k v, In ("properties", p) fs -> In (k, v) (entries p) -> Settled typed v) /\
  (forall v, In ("items", v) fs -> Settled typed v).
Proof.
  intros H. inversion H as [v _ Ho | | fs' H1 H2 H3 H4 H5 H6 H7]; subst.
  - destruct (Ho _ eq_refl).
  - auto 10.
Qed.

(** Binding a key of a settled node to a value fit for the key gives a
    settled node. *)
Lemma Settled_assign (k : string) (v : json) (fs : fields) :
  Settled false (JObj fs) ->
  allowed k = true ->
  (k <> "properties" -> k <> "items" -> stripDollarSchema v = v) ->
  (k = "properties" ->
   (typeof_object v = true ->
    exists ps, v = JObj ps /\ NoDup (map fst ps) /\
               forall k' v', In (k', v') ps -> kept_key k' = true) /\
   (forall k' v', In (k', v') (entries v) -> Settled false v')) ->
  (k = "items" -> Settled false v) ->
  Settled false (JObj (assign k v fs)).
Proof.
  intros Hfs Hallowed Hplain Hprops Hitems.
  destruct (Settled_node_inv _ _ Hfs) as (H1 & H2 & H3 & _ & H5 & H6 & H7).
  apply Settled_node.
  - apply SchemaFacts.NoDup_assign, H1.
  - intros k0 v0 H. apply SchemaFacts.In_assign in H.
    destruct H as [[-> _] | H]; [exact Hallowed | exact (H2 _ _ H)].
  - intros k0 v0 H Hp Hi. apply SchemaFacts.In_assign in H.
    destruct H as [[-> ->] | H]; [exact (Hplain Hp Hi) | exact (H3 _ _ H Hp Hi)].
  - discriminate.
  - intros p H Hobj. apply SchemaFacts.In_assign in H.
    destruct H as [[<- ->] | H]; [exact (proj1 (Hprops eq_refl) Hobj) | exact (H5 _ H Hobj)].
  - intros p k0 v0 H Hkv. apply SchemaFacts.In_assign in H.
    destruct H as [[<- ->] | H]; [exact (proj2 (Hprops eq_refl) _ _ Hkv) | exact (H6 _ _ _ H Hkv)].
  - intros v0 H. apply SchemaFacts.In_assign in H.
    destruct H as [[<- ->] | H]; [exact (Hitems eq_refl) | exact (H7 _ H)].
Qed.

Lemma Settled_empty : Settled false (JObj []).
Proof.
  apply Settled_node; simpl; try contradiction; [constructor | discriminate].
Qed.

Section Settling.

(** The recursive calls settle clean values of a smaller depth. *)
Variable d : nat.
Hypothesis settles_below :
  forall x out, depth x < d -> cleanValue x = true ->
                sanitizeSchema x = Ok out -> Settled false out.

Lemma cleanEntry_settles (clean clean' : fields) (key : string) (value : json) :
  depth value < d -> cleanValue value = true ->
  Settled false (JObj clean) ->
  cleanEntry sanitizeSchema (Ok clean) (key, value) = Ok clean' ->
  Settled false (JObj clean').
Proof.
  intros Hdepth Hvalue Hclean. unfold cleanEntry. cbn [bind].
  destruct (allowed key) eqn:Hallowed; simpl negb; cbv iota; [|intros [= <-]; exact Hclean].
  destruct (String.eqb_spec key "properties") as [->|Hp]; simpl andb.
  - destruct (typeof_object value) eqn:Hobj.
    + destruct (is_null value); [discriminate|].
      destruct (mapM _ (entries value)) as [es|] eqn:Hes; cbn [bind]; [|discriminate].
      intros [= <-]. apply Settled_assign; auto; try congruence.
      intros _. destruct (SchemaFacts.fromEntries_from es [] (NoDup_nil _)) as [Hd Hfrom].
      assert (Hentry : forall k v, In (k, v) es ->
                                   kept_key k = true /\ Settled false v).
      { intros k v Hin.
        destruct (SchemaFacts.mapM_Ok_inv _ _ _ Hes _ Hin) as ([k0 v0] & Hin0 & Hrec).
        simpl in Hrec. destruct (sanitizeSchema v0) as [v1|] eqn:Hv0; [|discriminate Hrec].
        simpl in Hrec. injection Hrec as <- <-.
        destruct (clean_entries _ _ _ Hvalue Hin0) as [Hv Hk]. split; [exact Hk|].
        apply (settles_below v0); [|exact Hv|exact Hv0].
        pose proof (SchemaFacts.depth_entry _ _ _ Hin0). lia. }
      split.
      * intros _. exists (fromEntries es). split; [reflexivity|]. split; [exact Hd|].
        intros k v Hin. destruct (Hfrom k v Hin) as [H | []]. exact (proj1 (Hentry _ _ H)).
      * simpl entries. intros k v Hin. destruct (Hfrom k v Hin) as [H | []].
        exact (proj2 (Hentry _ _ H)).
    + intros [= <-]. apply Settled_assign; auto; try congruence.
      intros _. split; [congruence|].
      intros k v Hin. destruct value; simpl in Hobj, Hin; try contradiction; discriminate Hobj.
  - destruct (String.eqb_spec key "items") as [->|Hi].
    + destruct (sanitizeSchema value) as [v|] eqn:Hv; cbn [bind]; [|discriminate].
      intros [= <-]. apply Settled_assign; auto; try congruence.
      intros _. exact (settles_below value v Hdepth Hvalue Hv).
    + intros [= <-]. apply Settled_assign; auto; try congruence.
      intros _ _. exact (clean_strip _ Hvalue).
Qed.

Lemma fold_cleanEntry_settles (working clean out : fields) :
  (forall k v, In (k, v) working -> depth v < d /\ cleanValue v = true) ->
  Settled false (JObj clean) ->
  fold_left (cleanEntry sanitizeSchema) working (Ok clean) = Ok out ->
  Settled false (JObj out).
Proof.
  revert clean. induction working as [|[key value] working IH];
    intros clean Hw Hclean H; cbn [fold_left] in H.
  - injection H as <-. exact Hclean.
  - destruct (cleanEntry sanitizeSchema (Ok clean) (key, value)) as [clean'|] eqn:Hstep.
    + apply (IH clean'); [| |exact H].
      * intros k v Hin. apply (Hw k). right. exact Hin.
      * destruct (Hw key value (or_introl eq_refl)) as [Hd Hv].
        exact (cleanEntry_settles _ _ _ _ Hd Hv Hclean Hstep).
    + rewrite SchemaFacts.fold_cleanEntry_Throw in H. discriminate H.
Qed.

End Settling.

Lemma sanitize_settles (j out : json) :
  cleanValue j = true -> sanitizeSchema j = Ok out -> Settled false out.
Proof.
  remember (S (depth j)) as n eqn:Hn.
  assert (Hlt : depth j < n) by lia. clear Hn.
  revert j out Hlt. induction n as [|n IH]; intros j out Hlt Hj; [lia|].
  rewrite SchemaFacts.sanitizeSchema_unfold. unfold sanitizeBody.
  destruct j as [| |z|str|l|fs].
  1-4: (destruct (_ || _); intros [= <-]; apply Settled_leaf; intros ? E; discriminate E).
  - simpl. destruct (mapM sanitizeSchema l) as [l'|] eqn:Hl; simpl; [|discriminate].
    intros [= <-]. apply Settled_array. intros y Hy.
    destruct (SchemaFacts.mapM_Ok_inv _ _ _ Hl _ Hy) as (x & Hin & Hx).
    apply (IH x); [|exact (clean_elem _ _ Hj Hin)|exact Hx].
    pose proof (SchemaFacts.depth_elem _ _ Hin). lia.
  - simpl. destruct (flattenUnion fs) as [working|] eqn:Hw; simpl; [|discriminate].
    unfold allowListed.
    destruct (fold_left (cleanEntry sanitizeSchema) working (Ok [])) as [clean|] eqn:Hfold;
      simpl; [|discriminate].
    intros [= <-].
    apply (fold_cleanEntry_settles n) with (working := working) (clean := @nil (string * json));
      [|  |exact Settled_empty|exact Hfold].
    + intros x o Hx Hc Ho. exact (IH x o Hx Hc Ho).
    + intros k v Hin. split.
      * pose proof (SchemaFacts.flattenUnion_depth _ _ _ _ Hw Hin). lia.
      * apply (flattenUnion_values (fun v => cleanValue v = true) fs working) with (k := k);
          [| | |exact Hw|exact Hin].
        -- intros k0 v0 H0. exact (proj1 (clean_field _ _ _ Hj H0)).
        -- intros l0 x H0 Hx. exact (clean_elem _ _ H0 Hx).
        -- intros p0 k0 v0 H0 Hkv. exact (proj1 (clean_entries _ _ _ H0 Hkv)).
Qed.

(** The passes keep a value that is not an object as it is, and an
    object an object. *)
Lemma truthy_strip (j : json) : truthy (stripDollarSchema j) = truthy j.
Proof. destruct j; reflexivity. Qed.

Lemma truthy_sanitize (j out : json) : sanitizeSchema j = Ok out -> truthy out = truthy j.
Proof.
  rewrite SchemaFacts.sanitizeSchema_unfold. unfold sanitizeBody.
  destruct j as [| |z|str|l|fs].
  1-4: (destruct (_ || _); intros [= <-]; reflexivity).
  - simpl. destruct (mapM sanitizeSchema l); simpl; [|discriminate]. intros [= <-]. reflexivity.
  - simpl. destruct (flattenUnion fs) as [working|]; simpl; [|discriminate].
    unfold allowListed. destruct (fold_left _ working _); simpl; [|discriminate].
    intros [= <-]. reflexivity.
Qed.

Lemma truthy_ensure (j : json) : truthy (ensureSchemaType j) = truthy j.
Proof.
  rewrite SchemaFacts.ensureSchemaType_unfold. unfold ensureBody.
  destruct j; try reflexivity; destruct (_ || _); reflexivity.
Qed.

(** X9: the normaliser is idempotent: a schema it returns is returned
    unchanged when it is given to the normaliser again, by each of the
    three passes. *)
Theorem normalize_idempotent (input_schema : option json) (out : json) :
  normalize input_schema = Ok out ->
  normalize (Some out) = Ok out /\
  stripDollarSchema out = out /\ sanitizeSchema out = Ok out /\ ensureSchemaType out = out.
Proof.
  unfold normalize at 1.
  set (s0 := or_default input_schema (JObj [])).
  assert (H0 : truthy s0 = true).
  { subst s0. destruct input_schema as [j|]; simpl; [|reflexivity].
    destruct (truthy j) eqn:E; [exact E | reflexivity]. }
  destruct (sanitizeSchema (stripDollarSchema s0)) as [s2|] eqn:Hs2; simpl; [|discriminate].
  intros [= <-].
  assert (Hclean : cleanValue (stripDollarSchema s0) = true).
  { unfold cleanValue. destruct (stripDollarSchema_clean s0) as (-> & -> & ->). reflexivity. }
  pose proof (ensure_settles _ (sanitize_settles _ _ Hclean Hs2)) as Hout.
  assert (Htruthy : truthy (ensureSchemaType s2) = true).
  { rewrite truthy_ensure, (truthy_sanitize _ _ Hs2), truthy_strip. exact H0. }
  pose proof (Settled_strip _ _ Hout) as H1.
  pose proof (Settled_sanitize _ _ Hout) as H2.
  pose proof (Settled_ensure _ Hout) as H3.
  split; [|auto]. unfold normalize. simpl or_default. rewrite Htruthy, H1, H2.
  simpl. rewrite H3. reflexivity.
Qed.

(** The schema [{$schema: "s", anyOf: [{enum: ["a"]}], title: "t"}]. *)
Lemma normalize_idempotent_witness :
  normalize (Some (JObj [("enum", JArr [JStr "a"]); ("type", JStr "string")]))
  = Ok (JObj [("enum", JArr [JStr "a"]); ("type", JStr "string")]).
Proof.
  exact (proj1 (normalize_idempotent
                  (Some (JObj [("$schema", JStr "s");
                               ("anyOf", JArr [JObj [("enum", JArr [JStr "a"])]]);
                               ("title", JStr "t")]))
                  (JObj [("enum", JArr [JStr "a"]); ("type", JStr "string")])
                  eq_refl)).
Defined.

End SchemaMore.

(* ================================================================== *)
(** * The provider request: further facts                              *)
(* ================================================================== *)

Module TranslatorMore.
Import Model Request Schema Translator Properties Shapes.

Lemma mapM_Forall2 {A B} (f : A -> result B) (l : list A) (l' : list B) :
  mapM f l = Ok l' -> Forall2 (fun x y => f x = Ok y) l l'.
Proof.
  revert l'. induction l as [|x l IH]; simpl; intros l' H.
  - injection H as <-. constructor.
  - destruct (f x) as [y|] eqn:Hfx; simpl in H; [|discriminate].
    destruct (mapM f l) as [ys|] eqn:Hm; simpl in H; [|discriminate].
    injection H as <-. constructor; [exact Hfx | exact (IH ys eq_refl)].
Qed.

Lemma declareTool_returns (googleModel : string) (tool : json) (d : functionDeclaration) :
  declareTool googleModel tool = Ok d ->
  fd_name d = get "name" tool /\
  fd_field d = (if prefix "claude-" googleModel then parameters else parametersJsonSchema) /\
  Normalized (fd_schema d).
Proof.
  unfold declareTool. intros H.
  destruct (normalize (get "input_schema" tool)) as [cleaned|] eqn:Hn.
  - destruct tool; try discriminate H; simpl in H; injection H as <-; simpl;
      repeat split; exact (SchemaFacts.normalize_normalized _ _ Hn).
  - destruct tool; discriminate H.
Qed.

Lemma normalize_returns (input_schema : option json) :
  match input_schema with Some schema => accepted schema | None => true end = true ->
  exists cleaned, normalize input_schema = Ok cleaned.
Proof.
  destruct input_schema as [schema|]; intros H.
  - destruct (SchemaFacts.normalize_total schema H) as (out & Hout & _). exists out. exact Hout.
  - eexists. reflexivity.
Qed.

Lemma declareTool_total (googleModel : string) (tool : json) :
  toolAccepted tool = true -> exists d, declareTool googleModel tool = Ok d.
Proof.
  unfold toolAccepted. intros H. apply andb_prop in H. destruct H as [Hnull Hschema].
  destruct (normalize_returns _ Hschema) as [cleaned Hc].
  unfold declareTool. rewrite Hc.
  destruct tool; try discriminate Hnull; eexists; reflexivity.
Qed.

Lemma systemParts_total (system : option json) :
  systemAccepted system = true -> exists parts, systemParts system = Ok parts.
Proof.
  destruct system as [[| | |s|blocks|]|]; simpl; intros H; try (eexists; reflexivity).
  - destruct (negb (s =? EmptyString)); eexists; reflexivity.
  - destruct (SchemaFacts.mapM_total
                (fun block => match block with
                              | JNull => Throw
                              | _ => Ok (if is_str "text" (get "type" block)
                                         then [get "text" block] else [])
                              end) blocks) as [parts Hparts].
    + intros block Hin. rewrite forallb_forall in H. specialize (H block Hin).
      destruct block; try discriminate H; eexists; reflexivity.
    + rewrite Hparts. eexists. reflexivity.
Qed.

Lemma mapM_Throw {A B} (f : A -> result B) (l : list A) (x : A) :
  In x l -> f x = Throw -> mapM f l = Throw.
Proof.
  intros Hin Hx. induction l as [|y l IH]; simpl; [contradiction|].
  destruct Hin as [-> | Hin]; [rewrite Hx; reflexivity|].
  destruct (f y); simpl; [rewrite (IH Hin)|]; reflexivity.
Qed.

Lemma systemParts_throws (system : option json) :
  systemAccepted system = false -> systemParts system = Throw.
Proof.
  destruct system as [[| | | |blocks|]|]; simpl; try discriminate. intros H.
  assert (Hnull : In JNull blocks).
  { induction blocks as [|b blocks IH]; simpl in *; [discriminate|].
    destruct b; simpl in H; auto. }
  rewrite (mapM_Throw _ blocks JNull Hnull eq_refl). reflexivity.
Qed.

Lemma inherited_member (name : string) :
  inherited name = true -> mapModel name = Member name.
Proof.
  unfold inherited. intros H. apply existsb_exists in H. destruct H as (k & Hk & Hname).
  apply String.eqb_eq in Hname. subst k. simpl in Hk.
  repeat (destruct Hk as [<- | Hk]; [reflexivity|]). contradiction.
Qed.

Section Convert.

Variable JSON_stringify : json -> string.
Variable js_String : json -> string.
Variable project_id : option json.
Variable request_id : string.


(** X11: for a client request whose model is a string, whose messages
    and tools are lists and whose token counts are integers, the
    translation returns a request whenever the model name is not a
    member inherited by the table, the texts that the loop over the
    messages prints ([String(b.text)] of a text block, the texts that
    [extractText] joins) hold no object with a property [toString], no
    block of a system list is [null], and every tool is accepted: not
    [null], its schema without [null] and without a union that is not a
    list. *)
Theorem convert_returns_on_accepted (req : anthropicReq) :
  inherited (req_model req) = false ->
  forallb messageReturns (messages req) = true ->
  systemAccepted (system req) = true ->
  forallb toolAccepted (match tools req with Some ts => ts | None => [] end) = true ->
  exists body,
    convertAnthropicToGoogle JSON_stringify js_String project_id request_id req = Ok body.
Proof.
  intros Hname Hmessages Hsystem Htools. unfold convertAnthropicToGoogle, translateMessages.
  rewrite Hmessages. cbn [bind].
  destruct (systemParts_total _ Hsystem) as [sp ->]. cbn [bind].
  rewrite (ModelFacts.mapModel_plain_name _ Hname).
  set (googleModel := match own (req_model req) MODEL_MAP with Some id => id | None => _ end).
  destruct (tools req) as [[|tool more]|]; try (eexists; reflexivity).
  destruct (SchemaFacts.mapM_total (declareTool googleModel) (tool :: more)) as [ds Hds].
  - intros t Hin. apply declareTool_total.
    rewrite forallb_forall in Htools. exact (Htools t Hin).
  - rewrite Hds. eexists. reflexivity.
Qed.

(** X12: the translation throws on a model name that is a member
    inherited by the table, on a system list with a [null] block, and on
    a [null] tool. *)
Theorem convert_throws (req : anthropicReq) :
  inherited (req_model req) = true \/
  systemAccepted (system req) = false \/
  (exists ts, tools req = Some ts /\ In JNull ts) ->
  convertAnthropicToGoogle JSON_stringify js_String project_id request_id req = Throw.
Proof.
  intros H. unfold convertAnthropicToGoogle, translateMessages.
  destruct (forallb messageReturns (messages req)); cbn [bind]; [|reflexivity].
  destruct (systemParts (system req)) as [sp|] eqn:Hsp; [|reflexivity]. cbn [bind].
  destruct (mapModel (req_model req)) as [googleModel|m] eqn:Hmodel; [|reflexivity].
  destruct H as [H | [H | (ts & Hts & Hnull)]].
  - rewrite (inherited_member _ H) in Hmodel. discriminate Hmodel.
  - rewrite (systemParts_throws _ H) in Hsp. discriminate Hsp.
  - rewrite Hts. destruct ts as [|tool more]; [contradiction|].
    rewrite (mapM_Throw (declareTool googleModel) (tool :: more) JNull Hnull eq_refl).
    reflexivity.
Qed.

End Convert.


(** The same request is accepted. *)
Lemma convert_returns_on_accepted_witness :
  exists body,
    convertAnthropicToGoogle (fun _ => "{}") (fun _ => "?") None "r"
      {| req_model := "claude-sonnet-4-5";
         messages := [JObj [("role", JStr "user"); ("content", JStr "hi")]];
         system := Some (JArr [JObj [("type", JStr "text"); ("text", JStr "be brief")]]);
         max_tokens := None;
         thinking := None;
         temperature := None;
         tools := Some [JObj [("name", JStr "ls");
                              ("input_schema", JObj [("$schema", JStr "s")])]] |}
    = Ok body.
Proof.
  apply (convert_returns_on_accepted (fun _ => "{}") (fun _ => "?") None "r"
           {| req_model := "claude-sonnet-4-5";
              messages := [JObj [("role", JStr "user"); ("content", JStr "hi")]];
              system := Some (JArr [JObj [("type", JStr "text"); ("text", JStr "be brief")]]);
              max_tokens := None;
              thinking := None;
              temperature := None;
              tools := Some [JObj [("name", JStr "ls");
                                   ("input_schema", JObj [("$schema", JStr "s")])]] |});
    reflexivity.
Defined.

(** A request whose tool list is [[null]]. *)
Lemma convert_throws_witness :
  convertAnthropicToGoogle (fun _ => "{}") (fun _ => "?") None "r"
    {| req_model := "claude-sonnet-4-5";
       messages := [];
       system := None;
       max_tokens := None;
       thinking := None;
       temperature := None;
       tools := Some [JNull] |}
  = Throw.
Proof.
  apply (convert_throws (fun _ => "{}") (fun _ => "?") None "r"
           {| req_model := "claude-sonnet-4-5";
              messages := [];
              system := None;
              max_tokens := None;
              thinking := None;
              temperature := None;
              tools := Some [JNull] |}).
  right. right. exists [JNull]. split; [reflexivity | left; reflexivity].
Defined.

(** A text block whose text is an object with a property [toString]:
    [String(block.text)] throws. *)
Example convert_text_throws :
  convertAnthropicToGoogle (fun _ => "{}") (fun _ => "?") None "r"
    {| req_model := "claude-sonnet-4-5";
       messages := [JObj [("role", JStr "user");
                          ("content",
                           JArr [JObj [("type", JStr "text");
                                       ("text", JObj [("toString", JNum 1)])]])]];
       system := None;
       max_tokens := None;
       thinking := None;
       temperature := None;
       tools := None |}
  = Throw.
Proof. reflexivity. Qed.

End TranslatorMore.

(* ================================================================== *)
(** * Stream translator: further facts                                 *)
(* ================================================================== *)

Module StreamMore.
Import Schema Backend Stream Properties Shapes.

(** ** Lines of a body read in pieces *)

Lemma append_assoc (a b c : string) : ((a ++ b) ++ c = a ++ (b ++ c))%string.
Proof. induction a as [|ch a IH]; simpl; [reflexivity | rewrite IH; reflexivity]. Qed.

Lemma append_nil_r (a : string) : (a ++ EmptyString)%string = a.
Proof. induction a as [|ch a IH]; simpl; [reflexivity | rewrite IH; reflexivity]. Qed.

Lemma split_nonempty (sep : ascii) (s : string) : split sep s <> [].
Proof.
  destruct s as [|c s]; simpl; [discriminate|].
  destruct (Ascii.eqb c sep); [discriminate|]. destruct (split sep s); discriminate.
Qed.

(** The lines of [a ++ b]: the finished lines of [a], then the lines of
    what follows the last line break of [a]. *)
Lemma split_app (sep : ascii) (a b : string) :
  split sep (a ++ b) =
    removelast (split sep a) ++ split sep (last (split sep a) EmptyString ++ b).
Proof.
  induction a as [|c a IH]; [reflexivity|].
  change (split sep (String c (a ++ b)) =
          removelast (split sep (String c a)) ++
          split sep (last (split sep (String c a)) EmptyString ++ b)).
  simpl split. pose proof (split_nonempty sep a) as Hne.
  destruct (Ascii.eqb c sep) eqn:Hc.
  - rewrite IH. destruct (split sep a) as [|x l]; [contradiction|]. reflexivity.
  - rewrite IH. destruct (split sep a) as [|x [|y l]]; [contradiction| |].
    + simpl. rewrite Hc. destruct (split sep (x ++ b)) as [|seg segs] eqn:Hs; [|reflexivity].
      exfalso. exact (split_nonempty _ _ Hs).
    + reflexivity.
Qed.

(** A line holds no line break. *)
Lemma split_segment (sep : ascii) (s seg : string) :
  In seg (split sep s) -> split sep seg = [seg].
Proof.
  revert seg. induction s as [|c s IH]; simpl; intros seg H.
  - destruct H as [<- | []]. reflexivity.
  - destruct (Ascii.eqb c sep) eqn:Hc.
    + destruct H as [<- | H]; [reflexivity | exact (IH seg H)].
    + destruct (split sep s) as [|x l]; simpl in H.
      * destruct H as [<- | []]. simpl. rewrite Hc. reflexivity.
      * destruct H as [<- | H]; [|apply IH; right; exact H].
        simpl. rewrite Hc. rewrite (IH x (or_introl eq_refl)). reflexivity.
Qed.

Lemma last_In {A} (l : list A) (d : A) : l <> [] -> In (last l d) l.
Proof.
  induction l as [|x l IH]; [contradiction|]. intros _.
  destruct l as [|y l]; [left; reflexivity|]. right. apply IH. discriminate.
Qed.

Lemma buffer_is_a_line (s : string) :
  lines_of (last (lines_of s) EmptyString) = [last (lines_of s) EmptyString].
Proof.
  apply (split_segment _ s). apply last_In, split_nonempty.
Qed.

Lemma split_one_line (sep : ascii) (a b : string) :
  split sep a = [a] -> split sep b = [b] -> split sep (a ++ b) = [(a ++ b)%string].
Proof.
  intros Ha Hb. induction a as [|c a IH]; [exact Hb|].
  simpl in Ha |- *. destruct (Ascii.eqb c sep); [discriminate Ha|].
  pose proof (split_nonempty sep a) as Hne.
  destruct (split sep a) as [|seg [|seg' segs]]; [contradiction| |discriminate Ha].
  assert (Hseg : seg = a) by congruence. rewrite Hseg in IH.
  rewrite (IH eq_refl). reflexivity.
Qed.

Lemma wholeBody_app (reads reads' : list string) :
  wholeBody (reads ++ reads') = (wholeBody reads ++ wholeBody reads')%string.
Proof.
  induction reads as [|r reads IH]; simpl; [reflexivity|].
  rewrite IH, append_assoc. reflexivity.
Qed.

(** Text without a line break, added at the end of a body, adds no
    finished line. *)
Lemma finished_lines_tail (body tail : string) :
  lines_of tail = [tail] ->
  removelast (lines_of (body ++ tail)) = removelast (lines_of body).
Proof.
  intros Htail. unfold lines_of at 1. rewrite split_app. fold (lines_of body).
  rewrite (split_one_line _ _ _ (buffer_is_a_line body) Htail).
  apply removelast_last.
Qed.

Lemma forEach_app {A} (body : state -> A -> flow) (l1 l2 : list A) (st : state) :
  forEach body (l1 ++ l2) st =
    match forEach body l1 st with
    | Next st' => forEach body l2 st'
    | Raised st' => Raised st'
    end.
Proof.
  revert st. induction l1 as [|x l1 IH]; intros st; simpl; [reflexivity|].
  destruct (body st x); [apply IH | reflexivity].
Qed.

(** ** The unfinished line is not read by the steps *)

Lemma setBuffer_same (st : state) : setBuffer (buffer st) st = st.
Proof. destruct st. reflexivity. Qed.

Lemma rebuffer_rebuffer (b b' : string) (f : flow) :
  rebuffer b (rebuffer b' f) = rebuffer b f.
Proof. destruct f; reflexivity. Qed.

Lemma forEach_rebuffer {A} (body : state -> A -> flow) (b : string) (l : list A) :
  (forall st x, body (setBuffer b st) x = rebuffer b (body st x)) ->
  forall st, forEach body l (setBuffer b st) = rebuffer b (forEach body l st).
Proof.
  intros Hbody. induction l as [|x l IH]; intros st; simpl; [reflexivity|].
  rewrite Hbody. destruct (body st x); simpl; [apply IH | reflexivity].
Qed.

Section Translate.

Variable trim : string -> string.
Variable JSON_parse : string -> option json.
Variable JSON_stringify : json -> string.
Variable js_String : json -> string.
Variable toolId : nat -> string.
Variable msgId : string.

Lemma textStep_rebuffer (b : string) (text : json) (st : state) :
  textStep text (setBuffer b st) = setBuffer b (textStep text st).
Proof. destruct st as [? ? [|] ? ? ? ?]; reflexivity. Qed.

Lemma toolStep_rebuffer (b : string) (fc : json) (st : state) :
  toolStep JSON_stringify toolId fc (setBuffer b st)
  = setBuffer b (toolStep JSON_stringify toolId fc st).
Proof. destruct st as [? ? [|] ? ? ? ?]; reflexivity. Qed.

Lemma processPart_rebuffer (b : string) (st : state) (part : json) :
  processPart JSON_stringify toolId (setBuffer b st) part
  = rebuffer b (processPart JSON_stringify toolId st part).
Proof.
  unfold processPart. destruct part; try reflexivity;
    (destruct (truthy_opt _ && negb _); [reflexivity|];
     destruct (get "text" _) as [text|];
     [destruct (match get "thought" _ with Some (JBool true) => true | _ => false end);
      [reflexivity|]|];
     (destruct (get "functionCall" _) as [fc|]; [destruct (truthy fc)|]);
     simpl; rewrite ?textStep_rebuffer, ?toolStep_rebuffer; reflexivity).
Qed.

Lemma processParts_rebuffer (b : string) (st : state) (resp : json) :
  processParts JSON_stringify toolId (setBuffer b st) resp
  = rebuffer b (processParts JSON_stringify toolId st resp).
Proof.
  unfold processParts. destruct (partsOf resp) as [ps|]; [|reflexivity].
  destruct (truthy ps); [|reflexivity].
  destruct (iterate ps) as [l|]; [|reflexivity].
  apply forEach_rebuffer. intros st' x. apply processPart_rebuffer.
Qed.

Lemma recordUsage_rebuffer (b : string) (resp : json) (st : state) :
  recordUsage js_String resp (setBuffer b st) = rebuffer b (recordUsage js_String resp st).
Proof.
  unfold recordUsage. destruct (get "usageMetadata" resp) as [um|]; [|reflexivity].
  destruct (truthy um); [|reflexivity].
  destruct (producedTokens js_String um); reflexivity.
Qed.

Lemma processChunk_rebuffer (b : string) (st : state) (chunk : json) :
  processChunk JSON_stringify js_String toolId (setBuffer b st) chunk
  = rebuffer b (processChunk JSON_stringify js_String toolId st chunk).
Proof.
  unfold processChunk. destruct chunk; try reflexivity;
    (destruct (get "response" _) as [resp|]; [|reflexivity];
     destruct (negb (truthy resp)); [reflexivity|];
     rewrite processParts_rebuffer;
     destruct (processParts JSON_stringify toolId st resp); simpl;
     rewrite ?recordUsage_rebuffer; reflexivity).
Qed.

Lemma processLine_rebuffer (b : string) (st : state) (line : string) :
  processLine trim JSON_parse JSON_stringify js_String toolId (setBuffer b st) line
  = rebuffer b (processLine trim JSON_parse JSON_stringify js_String toolId st line).
Proof.
  unfold processLine. destruct (decodeLine trim JSON_parse line); [|reflexivity].
  apply processChunk_rebuffer.
Qed.

Lemma close_rebuffer (b : string) (st : state) :
  written (close (setBuffer b st)) = written (close st).
Proof. destruct st as [? ? [|] ? ? ? ?]; reflexivity. Qed.

(** The reads of a body are processed as the finished lines of the body,
    in order. *)
Lemma reads_as_lines (reads : list string) (st : state) :
  lines_of (buffer st) = [buffer st] ->
  exists b,
    forEach (processRead trim JSON_parse JSON_stringify js_String toolId) reads st
    = rebuffer b
        (forEach (processLine trim JSON_parse JSON_stringify js_String toolId)
                 (removelast (lines_of (buffer st ++ wholeBody reads))) st).
Proof.
  revert st. induction reads as [|r reads IH]; intros st Hbuf.
  - exists (buffer st). simpl wholeBody. rewrite append_nil_r, Hbuf. simpl.
    rewrite setBuffer_same. reflexivity.
  - simpl wholeBody. rewrite <- append_assoc. unfold lines_of at 1.
    rewrite split_app. fold (lines_of (buffer st ++ r)).
    set (L := lines_of (buffer st ++ r)).
    rewrite removelast_app by apply split_nonempty. rewrite forEach_app.
    simpl forEach. unfold processRead at 1. fold L. cbv zeta.
    rewrite forEach_rebuffer by (intros; apply processLine_rebuffer).
    destruct (forEach _ (removelast L) st) as [s1|s1]; simpl rebuffer.
    + destruct (IH (setBuffer (last L EmptyString) s1)) as [b Hb].
      { destruct s1. simpl. apply buffer_is_a_line. }
      exists b. rewrite Hb.
      replace (buffer (setBuffer (last L EmptyString) s1)) with (last L EmptyString)
        by (destruct s1; reflexivity).
      rewrite forEach_rebuffer by (intros; apply processLine_rebuffer).
      apply rebuffer_rebuffer.
    + exists (last L EmptyString). reflexivity.
Qed.

(** X13: the events written for a response body are those of its
    finished lines taken in order, whatever the pieces in which the
    body was read: two sequences of reads of the same body give the same
    events. *)
Theorem stream_reads_of_one_body (reads reads' : list string) (anthropicModel : option json) :
  wholeBody reads = wholeBody reads' ->
  streamGoogleToAnthropic trim JSON_parse JSON_stringify js_String toolId msgId
    reads anthropicModel
  = streamGoogleToAnthropic trim JSON_parse JSON_stringify js_String toolId msgId
      reads' anthropicModel.
Proof.
  intros Hbody. unfold streamGoogleToAnthropic.
  destruct (reads_as_lines reads (initial msgId anthropicModel) eq_refl) as [b ->].
  destruct (reads_as_lines reads' (initial msgId anthropicModel) eq_refl) as [b' ->].
  rewrite Hbody.
  destruct (forEach _ _ (initial msgId anthropicModel)); cbn [rebuffer reached];
    rewrite !close_rebuffer; reflexivity.
Qed.

(** X14: what follows the last line break of the body is never
    translated: a last piece without a line break, even a whole data
    line, leaves the events as they are without it. *)
Theorem stream_ignores_unfinished_line (reads : list string) (tail : string)
  (anthropicModel : option json) :
  lines_of tail = [tail] ->
  streamGoogleToAnthropic trim JSON_parse JSON_stringify js_String toolId msgId
    (reads ++ [tail]) anthropicModel
  = streamGoogleToAnthropic trim JSON_parse JSON_stringify js_String toolId msgId
      reads anthropicModel.
Proof.
  intros Htail. unfold streamGoogleToAnthropic.
  destruct (reads_as_lines (reads ++ [tail]) (initial msgId anthropicModel) eq_refl)
    as [b ->].
  destruct (reads_as_lines reads (initial msgId anthropicModel) eq_refl) as [b' ->].
  change (buffer (initial msgId anthropicModel)) with EmptyString.
  change (EmptyString ++ wholeBody (reads ++ [tail]))%string with (wholeBody (reads ++ [tail])).
  change (EmptyString ++ wholeBody reads)%string with (wholeBody reads).
  rewrite wholeBody_app. simpl (wholeBody [tail]). rewrite append_nil_r.
  rewrite (finished_lines_tail _ _ Htail).
  destruct (forEach _ _ (initial msgId anthropicModel)); cbn [rebuffer reached];
    rewrite !close_rebuffer; reflexivity.
Qed.

End Translate.

(** ** What a client reads in the events *)

Lemma numbered_app (toolId : nat -> string) (n : nat) (a b : list json) :
  numbered toolId n (a ++ b)
  = numbered toolId n a ++ numbered toolId (n + List.length a) b.
Proof.
  revert n. induction a as [|fc a IH]; intros n; simpl.
  - rewrite Nat.add_0_r. reflexivity.
  - rewrite IH. replace (S n + List.length a) with (n + S (List.length a)) by lia.
    reflexivity.
Qed.

Section Fidelity.

Variable trim : string -> string.
Variable JSON_parse : string -> option json.
Variable JSON_stringify : json -> string.
Variable js_String : json -> string.
Variable toolId : nat -> string.
Variable msgId : string.

Local Abbreviation sends := (Shapes.sends JSON_stringify toolId).

Lemma sends_refl (st : state) : sends st st [] [].
Proof. unfold Shapes.sends. simpl. rewrite !app_nil_r, Nat.add_0_r. auto. Qed.

Lemma sends_trans (st st' st'' : state) (ts ts' cs cs' : list json) :
  sends st st' ts cs -> sends st' st'' ts' cs' -> sends st st'' (ts ++ ts') (cs ++ cs').
Proof.
  unfold Shapes.sends. intros (Ht & Hs & Hi & Hd) (Ht' & Hs' & Hi' & Hd').
  rewrite Ht', Ht, Hs', Hs, Hi', Hi, Hd', Hd.
  rewrite numbered_app, map_app, length_app, !app_assoc. repeat split. lia.
Qed.

Lemma sends_textStep (text : json) (st : state) :
  sends st (textStep text st) [text] [].
Proof.
  unfold Shapes.sends, textStep, textsOf, toolStarts, toolInputs.
  destruct st as [? ? [|] ? ? ? ?]; simpl; rewrite ?flat_map_app; simpl;
    rewrite ?app_nil_r; repeat split; lia.
Qed.

Lemma sends_toolStep (fc : json) (st : state) :
  sends st (toolStep JSON_stringify toolId fc st) [] [fc].
Proof.
  unfold Shapes.sends, toolStep, textsOf, toolStarts, toolInputs.
  destruct st as [? ? [|] ? ? ? ?]; simpl; rewrite ?flat_map_app; simpl;
    rewrite ?app_nil_r, <- ?app_assoc; repeat split; lia.
Qed.

Lemma sends_processPart (st : state) (part : json) :
  is_null part = false ->
  exists st', processPart JSON_stringify toolId st part = Next st' /\
              sends st st' (streamedText part) (streamedCall part).
Proof.
  intros Hpart. unfold processPart, streamedText, streamedCall, skipped, callOf.
  destruct part as [| | | | |fs]; try discriminate Hpart;
    try (eexists; split; [reflexivity | apply sends_refl]).
  cbn [get].
  destruct (truthy_opt _ && negb _); cbn [orb];
    [eexists; split; [reflexivity | apply sends_refl]|].
  destruct (lookup "text" fs) as [text|].
  - destruct (lookup "thought" fs) as [[|[|]| | | |]|];
      (destruct (lookup "functionCall" fs) as [fc|]; [destruct (truthy fc)|]);
      eexists; (split; [reflexivity|]);
      first [ apply sends_refl
            | apply sends_textStep
            | apply (sends_trans st (textStep text st) _ [text] [] [] [fc]);
              [apply sends_textStep | apply sends_toolStep] ].
  - (destruct (lookup "functionCall" fs) as [fc|]; [destruct (truthy fc)|]);
      eexists; (split; [reflexivity|]);
      first [ apply sends_refl | apply sends_toolStep ].
Qed.

Lemma sends_parts (l : list json) (st : state) :
  forallb (fun part => negb (is_null part)) l = true ->
  exists st', forEach (processPart JSON_stringify toolId) l st = Next st' /\
              sends st st' (flat_map streamedText l) (flat_map streamedCall l).
Proof.
  revert st. induction l as [|part l IH]; intros st H; simpl.
  - exists st. split; [reflexivity | apply sends_refl].
  - simpl in H. apply andb_prop in H. destruct H as [Hpart Hl].
    apply negb_true_iff in Hpart.
    destruct (sends_processPart st part Hpart) as (st1 & -> & H1).
    destruct (IH st1 Hl) as (st2 & -> & H2).
    exists st2. split; [reflexivity | exact (sends_trans _ _ _ _ _ _ _ H1 H2)].
Qed.

Lemma sends_recordUsage (resp : json) (st st' : state) (ts cs : list json) :
  usageAdds resp = true ->
  sends st st' ts cs ->
  exists st'', recordUsage js_String resp st' = Next st'' /\ sends st st'' ts cs.
Proof.
  unfold recordUsage, usageAdds, producedTokens, js_plus.
  destruct (get "usageMetadata" resp) as [um|]; [|eauto].
  destruct (truthy um); [|eauto]. intros -> H.
  eexists. split; [reflexivity|]. destruct st'. exact H.
Qed.

Lemma sends_processChunk (st : state) (chunk : json) :
  readable chunk = true ->
  exists st', processChunk JSON_stringify js_String toolId st chunk = Next st' /\
              sends st st' (flat_map streamedText (partsSeen chunk))
                           (flat_map streamedCall (partsSeen chunk)).
Proof.
  unfold readable, processChunk, partsSeen, processParts. intros H.
  apply andb_prop in H. destruct H as [Hchunk H].
  destruct chunk as [| | | | |fs]; try discriminate Hchunk;
    try (eexists; split; [reflexivity | apply sends_refl]).
  cbn [get] in H |- *.
  destruct (lookup "response" fs) as [resp|];
    [|eexists; split; [reflexivity | apply sends_refl]].
  destruct (truthy resp); cbn [negb];
    [|eexists; split; [reflexivity | apply sends_refl]].
  apply andb_prop in H. destruct H as [H Husage].
  destruct (partsOf resp) as [ps|];
    [|exact (sends_recordUsage resp st st [] [] Husage (sends_refl st))].
  destruct (truthy ps);
    [|exact (sends_recordUsage resp st st [] [] Husage (sends_refl st))].
  destruct (iterate ps) as [l|]; [|discriminate H].
  destruct (sends_parts l st H) as (st1 & -> & H1).
  exact (sends_recordUsage resp st st1 _ _ Husage H1).
Qed.

Lemma sends_chunks (chunks : list json) (st : state) :
  forallb readable chunks = true ->
  exists st', forEach (processChunk JSON_stringify js_String toolId) chunks st = Next st' /\
              sends st st' (flat_map streamedText (flat_map partsSeen chunks))
                           (flat_map streamedCall (flat_map partsSeen chunks)).
Proof.
  revert st. induction chunks as [|chunk chunks IH]; intros st H; simpl.
  - exists st. split; [reflexivity | apply sends_refl].
  - simpl in H. apply andb_prop in H. destruct H as [Hchunk Hrest].
    destruct (sends_processChunk st chunk Hchunk) as (st1 & -> & H1).
    destruct (IH st1 Hrest) as (st2 & -> & H2).
    exists st2. split; [reflexivity|]. rewrite !flat_map_app.
    exact (sends_trans _ _ _ _ _ _ _ H1 H2).
Qed.

Lemma sends_close (st : state) : sends st (close st) [] [].
Proof.
  unfold Shapes.sends, close, textsOf, toolStarts, toolInputs.
  destruct st as [? ? [|] ? ? ? ?]; simpl; rewrite ?flat_map_app; simpl;
    rewrite ?app_nil_r; repeat split; lia.
Qed.

(** The finished lines are processed as the chunks they hold. *)
Lemma lines_as_chunks (lines : list string) (st : state) :
  forEach (processLine trim JSON_parse JSON_stringify js_String toolId) lines st
  = forEach (processChunk JSON_stringify js_String toolId)
            (Batch.parseEvents trim JSON_parse lines) st.
Proof.
  revert st. induction lines as [|line lines IH]; intros st; simpl; [reflexivity|].
  unfold processLine at 1. destruct (decodeLine trim JSON_parse line) as [chunk|].
  - simpl. destruct (processChunk _ _ _ st chunk); [apply IH | reflexivity].
  - apply IH.
Qed.

Lemma stream_as_chunks (reads : list string) (anthropicModel : option json) :
  streamGoogleToAnthropic trim JSON_parse JSON_stringify js_String toolId msgId
    reads anthropicModel
  = translateChunks JSON_stringify js_String toolId msgId
      (chunksOf trim JSON_parse reads) anthropicModel.
Proof.
  unfold streamGoogleToAnthropic, translateChunks, chunksOf.
  destruct (reads_as_lines trim JSON_parse JSON_stringify js_String toolId
              reads (initial msgId anthropicModel) eq_refl) as [b ->].
  rewrite lines_as_chunks.
  change (buffer (initial msgId anthropicModel) ++ wholeBody reads)%string
    with (wholeBody reads).
  destruct (forEach _ _ (initial msgId anthropicModel)); cbn [rebuffer reached];
    rewrite close_rebuffer; reflexivity.
Qed.

(** X15: on a body on whose chunks nothing throws (no chunk and no part
    is [null], the parts can be iterated, and the usage counters can be
    added: neither is an object with a property [toString]), the client
    reads, in the order of the backend: as text deltas the texts of the
    parts that are not left out (a signature without text, a text
    flagged as a thought); as tool-use blocks the calls of those parts,
    under the ids drawn in turn and under their names; as input deltas
    the arguments of those calls. *)
Theorem stream_forwards_in_order (reads : list string) (anthropicModel : option json) :
  forallb readable (chunksOf trim JSON_parse reads) = true ->
  textsOf (streamGoogleToAnthropic trim JSON_parse JSON_stringify js_String toolId msgId
             reads anthropicModel)
  = flat_map streamedText (flat_map partsSeen (chunksOf trim JSON_parse reads)) /\
  toolStarts (streamGoogleToAnthropic trim JSON_parse JSON_stringify js_String toolId msgId
                reads anthropicModel)
  = numbered toolId 0
      (flat_map streamedCall (flat_map partsSeen (chunksOf trim JSON_parse reads))) /\
  toolInputs (streamGoogleToAnthropic trim JSON_parse JSON_stringify js_String toolId msgId
                reads anthropicModel)
  = map (inputOf JSON_stringify)
      (flat_map streamedCall (flat_map partsSeen (chunksOf trim JSON_parse reads))).
Proof.
  intros H. rewrite stream_as_chunks. unfold translateChunks.
  destruct (sends_chunks _ (initial msgId anthropicModel) H) as (st & -> & Hst).
  pose proof (sends_trans _ _ _ _ _ _ _ Hst (sends_close st)) as Hall.
  rewrite !app_nil_r in Hall. destruct Hall as (Ht & Hs & Hi & _).
  cbn [reached]. rewrite Ht, Hs, Hi. auto.
Qed.


End Fidelity.

(** ** The stop reason of the stream *)

Section Preserved.

Variable JSON_stringify : json -> string.
Variable js_String : json -> string.
Variable toolId : nat -> string.

(** A property of the state that the two steps and the usage record
    keep is kept by the loop over the chunks. *)
Variable P : state -> Prop.
Hypothesis P_textStep : forall text st, P st -> P (textStep text st).
Hypothesis P_toolStep : forall fc st, P st -> P (toolStep JSON_stringify toolId fc st).
Hypothesis P_setUsage : forall i o st, P st -> P (setUsage i o st).

Lemma preserved_processPart (st : state) (part : json) :
  P st -> P (reached (processPart JSON_stringify toolId st part)).
Proof.
  intros H. unfold processPart.
  destruct part as [| | | | |fs]; try exact H.
  cbn [get]. destruct (truthy_opt _ && negb _); [exact H|].
  destruct (lookup "text" fs) as [text|].
  - destruct (lookup "thought" fs) as [[|[|]| | | |]|]; try exact H;
      (destruct (lookup "functionCall" fs) as [fc|]; [destruct (truthy fc)|]);
      cbn [reached]; auto.
  - (destruct (lookup "functionCall" fs) as [fc|]; [destruct (truthy fc)|]);
      cbn [reached]; auto.
Qed.

Lemma preserved_processChunk (st : state) (chunk : json) :
  P st -> P (reached (processChunk JSON_stringify js_String toolId st chunk)).
Proof.
  intros H. unfold processChunk.
  destruct chunk as [| | | | |fs]; try exact H.
  cbn [get]. destruct (lookup "response" fs) as [resp|]; [|exact H].
  destruct (negb (truthy resp)); [exact H|].
  assert (Hp : P (reached (processParts JSON_stringify toolId st resp))).
  { unfold processParts. destruct (partsOf resp) as [ps|]; [|exact H].
    destruct (truthy ps); [|exact H]. destruct (iterate ps) as [l|]; [|exact H].
    apply StreamFacts.forEach_preserves; [|exact H].
    intros; apply preserved_processPart; assumption. }
  destruct (processParts JSON_stringify toolId st resp) as [st'|st']; [|exact Hp].
  cbn [reached] in *. unfold recordUsage.
  destruct (get "usageMetadata" resp) as [um|]; [|exact Hp].
  destruct (truthy um); [|exact Hp].
  destruct (producedTokens js_String um); cbn [reached]; auto.
Qed.

Lemma preserved_chunks (chunks : list json) (st : state) :
  P st -> P (reached (forEach (processChunk JSON_stringify js_String toolId) chunks st)).
Proof.
  intros H. apply StreamFacts.forEach_preserves; [|exact H].
  intros; apply preserved_processChunk; assumption.
Qed.

End Preserved.

Lemma kinds_snoc (events : list event) (e : event) :
  map isTool (blocksOf (events ++ [e]))
  = map isTool (blocksOf events) ++ map isTool (blocksOf [e]).
Proof. unfold blocksOf. rewrite flat_map_app, map_app. reflexivity. Qed.

Lemma shaped_textStep (text : json) (st : state) : shaped st -> shaped (textStep text st).
Proof.
  intros (closed & Hk & Hlen & Hlast). unfold shaped, textStep.
  destruct st as [buf index [|] i o w d]; simpl in *; exists closed;
    rewrite !kinds_snoc, Hk; simpl; rewrite ?app_nil_r; auto.
Qed.

Lemma shaped_toolStep (JSON_stringify : json -> string) (toolId : nat -> string)
  (fc : json) (st : state) :
  shaped st -> shaped (toolStep JSON_stringify toolId fc st).
Proof.
  intros (closed & Hk & Hlen & Hlast). unfold shaped, toolStep.
  destruct st as [buf index [|] i o w d]; simpl in *.
  - exists ((closed ++ [false]) ++ [true]).
    rewrite !kinds_snoc, Hk. simpl. rewrite !app_nil_r.
    split; [reflexivity|]. split; [rewrite !length_app; simpl; lia|].
    right. eexists. reflexivity.
  - exists (closed ++ [true]).
    rewrite !kinds_snoc, Hk. simpl. rewrite !app_nil_r.
    split; [reflexivity|]. split; [rewrite length_app; simpl; lia|].
    right. eexists. reflexivity.
Qed.

Lemma shaped_setUsage (i o : json) (st : state) : shaped st -> shaped (setUsage i o st).
Proof. destruct st. exact (fun H => H). Qed.

Lemma exists_last_true (before : list bool) : existsb (fun b => b) (before ++ [true]) = true.
Proof. rewrite existsb_app. simpl. apply orb_true_r. Qed.

Lemma long_kinds (kinds : list bool) :
  2 < List.length kinds -> toolUseSeen kinds = existsb (fun b => b) kinds.
Proof.
  unfold toolUseSeen. destruct kinds as [|b1 [|b2 [|b3 kinds]]]; simpl; try lia.
  intros _. destruct b1, b2; reflexivity.
Qed.

Lemma last_tool_kinds (before : list bool) :
  toolUseSeen (before ++ [true]) = true.
Proof.
  unfold toolUseSeen. rewrite exists_last_true.
  destruct before as [|b1 [|b2 [|b3 before]]]; try reflexivity;
    destruct b1; try reflexivity; destruct b2; reflexivity.
Qed.

(** What the test [contentIndex > (started ? 1 : 0)] answers on a state
    of that shape. *)
Lemma hasToolUse_shaped (st : state) :
  shaped st -> hasToolUse st = toolUseSeen (map isTool (blocksOf (written st))).
Proof.
  intros (closed & -> & Hlen & Hlast). unfold hasToolUse. rewrite <- Hlen.
  destruct (started st).
  - destruct Hlast as [-> | (before & ->)]; [reflexivity|].
    destruct before as [|b1 before]; [reflexivity|].
    rewrite long_kinds by (rewrite !length_app; simpl; lia).
    rewrite existsb_app, exists_last_true. apply Nat.ltb_lt.
    rewrite length_app. simpl. lia.
  - rewrite app_nil_r. destruct Hlast as [-> | (before & ->)]; [reflexivity|].
    rewrite last_tool_kinds. apply Nat.ltb_lt. rewrite length_app. simpl. lia.
Qed.

Section StopReason.

Variable trim : string -> string.
Variable JSON_parse : string -> option json.
Variable JSON_stringify : json -> string.
Variable js_String : json -> string.
Variable toolId : nat -> string.
Variable msgId : string.

Lemma blocks_close (st : state) : blocksOf (written (close st)) = blocksOf (written st).
Proof.
  rewrite StreamFacts.written_close. unfold blocksOf. rewrite !flat_map_app.
  destruct (started st); simpl; rewrite app_nil_r; reflexivity.
Qed.

Lemma stops_close (st : state) :
  stopsOf (written (close st))
  = stopsOf (written st) ++ [if hasToolUse st then tool_use else end_turn].
Proof.
  rewrite StreamFacts.written_close. unfold stopsOf. rewrite !flat_map_app.
  destruct (started st); reflexivity.
Qed.

(** No step of the loop gives a stop reason. *)
Lemma no_stop_textStep (text : json) (st : state) :
  stopsOf (written st) = [] -> stopsOf (written (textStep text st)) = [].
Proof.
  unfold stopsOf, textStep. intros H.
  destruct st as [buf index [|] i o w d]; simpl in *; rewrite !flat_map_app, H; reflexivity.
Qed.

Lemma no_stop_toolStep (fc : json) (st : state) :
  stopsOf (written st) = [] ->
  stopsOf (written (toolStep JSON_stringify toolId fc st)) = [].
Proof.
  unfold stopsOf, toolStep. intros H.
  destruct st as [buf index [|] i o w d]; simpl in *; rewrite !flat_map_app, H; reflexivity.
Qed.

(** X16: the stream gives one stop reason, and it is [tool_use] exactly
    when a tool-use block is among the blocks sent, unless the blocks
    sent are one tool-use block followed by one text block: then, and
    when no tool-use block was sent, it is [end_turn]. *)
Theorem stream_stop_reason_exact (reads : list string) (anthropicModel : option json) :
  stopsOf (streamGoogleToAnthropic trim JSON_parse JSON_stringify js_String toolId msgId
             reads anthropicModel)
  = [if toolUseSeen
          (map isTool
             (blocksOf (streamGoogleToAnthropic trim JSON_parse JSON_stringify js_String
                          toolId msgId reads anthropicModel)))
     then tool_use else end_turn].
Proof.
  rewrite stream_as_chunks. unfold translateChunks.
  set (st := reached (forEach _ _ (initial msgId anthropicModel))).
  assert (Hshape : shaped st).
  { apply (preserved_chunks JSON_stringify js_String toolId shaped).
    - apply shaped_textStep.
    - apply shaped_toolStep.
    - apply shaped_setUsage.
    - exists []. simpl. auto. }
  assert (Hstops : stopsOf (written st) = []).
  { apply (preserved_chunks JSON_stringify js_String toolId
             (fun st => stopsOf (written st) = [])).
    - apply no_stop_textStep.
    - apply no_stop_toolStep.
    - intros i o [? ? ? ? ? ? ?] H. exact H.
    - reflexivity. }
  rewrite stops_close, blocks_close, Hstops, (hasToolUse_shaped st Hshape). reflexivity.
Qed.

End StopReason.

(** A body of one line: a part with text and a call, then a thought. *)
Lemma stream_forwards_in_order_witness :
  textsOf (streamGoogleToAnthropic (fun s => s)
             (fun _ => Some (JObj [("response",
                JObj [("candidates",
                       JArr [JObj [("content",
                         JObj [("parts",
                           JArr [JObj [("text", JStr "hi");
                                       ("functionCall", JObj [("name", JStr "ls")])];
                                 JObj [("text", JStr "hm"); ("thought", JBool true)]])])]])])]))
             (fun _ => "{}") (fun _ => "?") (fun _ => "toolu") "msg"
             [String.append "data:{}" newline] None)
  = [JStr "hi"] /\
  toolStarts (streamGoogleToAnthropic (fun s => s)
             (fun _ => Some (JObj [("response",
                JObj [("candidates",
                       JArr [JObj [("content",
                         JObj [("parts",
                           JArr [JObj [("text", JStr "hi");
                                       ("functionCall", JObj [("name", JStr "ls")])];
                                 JObj [("text", JStr "hm"); ("thought", JBool true)]])])]])])]))
             (fun _ => "{}") (fun _ => "?") (fun _ => "toolu") "msg"
             [String.append "data:{}" newline] None)
  = [("toolu", Some (JStr "ls"))] /\
  toolInputs (streamGoogleToAnthropic (fun s => s)
             (fun _ => Some (JObj [("response",
                JObj [("candidates",
                       JArr [JObj [("content",
                         JObj [("parts",
                           JArr [JObj [("text", JStr "hi");
                                       ("functionCall", JObj [("name", JStr "ls")])];
                                 JObj [("text", JStr "hm"); ("thought", JBool true)]])])]])])]))
             (fun _ => "{}") (fun _ => "?") (fun _ => "toolu") "msg"
             [String.append "data:{}" newline] None)
  = ["{}"].
Proof.
  exact (stream_forwards_in_order (fun s => s)
           (fun _ => Some (JObj [("response",
                JObj [("candidates",
                       JArr [JObj [("content",
                         JObj [("parts",
                           JArr [JObj [("text", JStr "hi");
                                       ("functionCall", JObj [("name", JStr "ls")])];
                                 JObj [("text", JStr "hm"); ("thought", JBool true)]])])]])])]))
           (fun _ => "{}") (fun _ => "?") (fun _ => "toolu") "msg"
           [String.append "data:{}" newline] None eq_refl).
Defined.


(** A usage counter that is an object with a property [toString]: the
    sum throws, the chunk that follows is not read, and the closing
    sequence is written with the output counter as it was. *)
Example stream_usage_throws :
  streamGoogleToAnthropic (fun s => s)
    (fun s =>
       if s =? "A" then
         Some (JObj [("response",
                      JObj [("usageMetadata",
                             JObj [("candidatesTokenCount",
                                    JObj [("toString", JNum 1)])])])])
       else if s =? "B" then
         Some (JObj [("response",
                      JObj [("candidates",
                             JArr [JObj [("content",
                                          JObj [("parts",
                                                 JArr [JObj [("text", JStr "hi")]])])]])])])
       else None)
    (fun _ => "{}") (fun _ => "?") (fun _ => "toolu") "msg"
    [ ("data:A" ++ newline ++ "data:B" ++ newline)%string ] None
  = [ message_start "msg" None; message_delta end_turn (JNum 0); message_stop ].
Proof. reflexivity. Qed.

(** A body that ends with a data line and no line break: the text of the
    line is not sent. *)
Lemma stream_ignores_unfinished_line_witness :
  streamGoogleToAnthropic (fun s => s)
    (fun _ => Some (JObj [("response",
        JObj [("candidates",
               JArr [JObj [("content",
                           JObj [("parts", JArr [JObj [("text", JStr "hi")]])])]])])]))
    (fun _ => "{}") (fun _ => "?") (fun _ => "toolu") "msg"
    ([] ++ ["data:{}"]) None
  = [message_start "msg" None; message_delta end_turn (JNum 0); message_stop].
Proof.
  rewrite (stream_ignores_unfinished_line (fun s => s)
    (fun _ => Some (JObj [("response",
        JObj [("candidates",
               JArr [JObj [("content",
                           JObj [("parts", JArr [JObj [("text", JStr "hi")]])])]])])]))
    (fun _ => "{}") (fun _ => "?") (fun _ => "toolu") "msg" [] "data:{}" None eq_refl).
  reflexivity.
Defined.

(** A data line cut in the middle of its prefix. *)
Lemma stream_reads_of_one_body_witness :
  streamGoogleToAnthropic (fun s => s) (fun _ => Some (JObj [])) (fun _ => "{}")
    (fun _ => "?") (fun _ => "toolu") "msg"
    ["da"; String.append "ta:{}" newline] None
  = streamGoogleToAnthropic (fun s => s) (fun _ => Some (JObj [])) (fun _ => "{}")
      (fun _ => "?") (fun _ => "toolu") "msg"
      [String.append "data:{}" newline] None.
Proof.
  apply (stream_reads_of_one_body (fun s => s) (fun _ => Some (JObj [])) (fun _ => "{}")
           (fun _ => "?") (fun _ => "toolu") "msg"
           ["da"; String.append "ta:{}" newline] [String.append "data:{}" newline] None).
  reflexivity.
Defined.

End StreamMore.

(* ================================================================== *)
(** * Batch translator: further facts                                  *)
(* ================================================================== *)

Module BatchMore.
Import Schema Backend Batch Properties Shapes.

Lemma numberedUses_snoc (toolId : nat -> string) (n : nat) (cs : list json) (fc : json) :
  numberedUses toolId n (cs ++ [fc])
  = numberedUses toolId n cs ++
    [ToolUse (toolId (n + List.length cs)) (get "name" fc)
             (or_default (get "args" fc) (JObj []))].
Proof.
  revert n. induction cs as [|c cs IH]; intros n; simpl.
  - rewrite Nat.add_0_r. reflexivity.
  - rewrite IH. replace (S n + List.length cs) with (n + S (List.length cs)) by lia.
    reflexivity.
Qed.

Lemma numberedUses_length (toolId : nat -> string) (n : nat) (cs : list json) :
  List.length (numberedUses toolId n cs) = List.length cs.
Proof. revert n. induction cs as [|c cs IH]; intros n; simpl; [|rewrite IH]; reflexivity. Qed.

Lemma existsb_isText (content : list contentBlock) :
  existsb isText content = false -> blockTexts content = [].
Proof.
  induction content as [|[t|id name input] content IH]; simpl; intros H;
    [reflexivity | discriminate | exact (IH H)].
Qed.

Section Translate.

Variable trim : string -> string.
Variable JSON_parse : string -> option json.
Variable js_String : json -> string.
Variable toolId : nat -> string.
Variable msgId : string.

Local Abbreviation holds := (Shapes.holds js_String toolId).

Lemma sum_printable (a b : json) : printable (sum js_String a b) = true.
Proof. unfold sum. destruct (to_number a), (to_number b); reflexivity. Qed.

Lemma addedUp_printable (ts : list json) :
  forallb printable ts = true -> forallb printable (addedUp js_String ts) = true.
Proof.
  destruct ts as [|t rest]; [reflexivity|]. simpl. intros H.
  apply andb_prop in H. destruct H as [Ht _]. rewrite andb_true_r.
  revert t Ht. induction rest as [|r rest IH]; intros t Ht; simpl; [exact Ht|].
  apply IH, sum_printable.
Qed.

(** [+=] returns on texts that can be printed, and changes the first
    text block only. *)
Lemma appendText_returns (fragment : json) (content : list contentBlock) :
  forallb printable (blockTexts content) = true ->
  printable fragment = true ->
  exists content',
    appendText js_String fragment content = Ok content' /\
    filter isToolUse content' = filter isToolUse content /\
    blockTexts content'
    = match blockTexts content with
      | [] => []
      | t :: rest => sum js_String t fragment :: rest
      end.
Proof.
  intros Hall Hfragment.
  induction content as [|[t|id name input] content IH]; simpl in *.
  - eexists. repeat split.
  - apply andb_prop in Hall. destruct Hall as [Ht _].
    unfold js_plus. rewrite Ht, Hfragment. cbn [andb bind].
    eexists. repeat split.
  - destruct (IH Hall) as (content' & -> & Htools & Htexts). cbn [bind].
    eexists. split; [reflexivity|]. simpl. rewrite Htools, Htexts. split; reflexivity.
Qed.

Lemma holds_text (content : list contentBlock) (ts cs : list json) (text : json) :
  holds content ts cs ->
  forallb printable ts = true ->
  printable text = true ->
  exists content',
    (if existsb isText content then appendText js_String text content
     else Ok (content ++ [Text text])) = Ok content' /\
    holds content' (ts ++ [text]) cs.
Proof.
  unfold Shapes.holds. intros [Htools Htexts] Hts Htext.
  destruct (existsb isText content) eqn:Hex.
  - destruct (appendText_returns text content) as (content' & -> & Htools' & Htexts').
    + rewrite Htexts. apply addedUp_printable, Hts.
    + exact Htext.
    + exists content'. split; [reflexivity|].
      rewrite Htools', Htexts', Htexts. split; [exact Htools|].
      destruct ts as [|t rest].
      * exfalso. simpl in Htexts. clear -Hex Htexts.
        induction content as [|[t|id name input] content IH]; simpl in *;
          [discriminate Hex | discriminate Htexts | exact (IH Htexts Hex)].
      * simpl. rewrite fold_left_app. reflexivity.
  - eexists. split; [reflexivity|].
    unfold blockTexts in *. rewrite filter_app, flat_map_app. simpl.
    rewrite app_nil_r. split; [exact Htools|].
    pose proof (existsb_isText content Hex) as Hnone. unfold blockTexts in Hnone.
    rewrite Hnone in Htexts |- *. destruct ts; [reflexivity | discriminate Htexts].
Qed.

Lemma holds_call (content : list contentBlock) (ts cs : list json) (fc : json) :
  holds content ts cs ->
  holds (content ++
         [ToolUse (toolId (List.length (filter isToolUse content)))
                  (get "name" fc) (or_default (get "args" fc) (JObj []))])
        ts (cs ++ [fc]).
Proof.
  unfold Shapes.holds, blockTexts. intros [Htools Htexts].
  rewrite filter_app, flat_map_app. simpl. rewrite app_nil_r.
  split; [|exact Htexts].
  rewrite numberedUses_snoc, Htools, numberedUses_length. reflexivity.
Qed.

Lemma holds_collectPart (content : list contentBlock) (ts cs : list json) (part : json) :
  holds content ts cs -> is_null part = false ->
  forallb printable ts = true ->
  forallb printable (batchText part) = true ->
  exists content',
    collectPart js_String toolId (Ok content) part = Ok content' /\
    holds content' (ts ++ batchText part) (cs ++ callOf part).
Proof.
  intros H Hpart Hts Htext. unfold collectPart, batchText, callOf in *. cbn [bind].
  destruct part as [| | | | |fs]; try discriminate Hpart;
    try (eexists; split; [reflexivity | simpl; rewrite !app_nil_r; exact H]).
  cbn [get] in *.
  assert (H1 : exists content1,
             match lookup "text" fs with
             | Some text =>
                 if negb (truthy_opt (lookup "thoughtSignature" fs))
                 then if existsb isText content
                      then appendText js_String text content
                      else Ok (content ++ [Text text])
                 else Ok content
             | None => Ok content
             end = Ok content1 /\
             holds content1
               (ts ++ match lookup "text" fs with
                      | Some text =>
                          if negb (truthy_opt (lookup "thoughtSignature" fs))
                          then [text] else []
                      | None => []
                      end) cs).
  { destruct (lookup "text" fs) as [text|].
    - destruct (negb (truthy_opt (lookup "thoughtSignature" fs))).
      + simpl in Htext. rewrite andb_true_r in Htext. apply holds_text; assumption.
      + exists content. rewrite app_nil_r. auto.
    - exists content. rewrite app_nil_r. auto. }
  destruct H1 as (content1 & -> & H1). cbn [bind].
  destruct (lookup "functionCall" fs) as [fc|].
  - destruct (truthy fc); eexists; (split; [reflexivity|]).
    + apply holds_call, H1.
    + rewrite app_nil_r. exact H1.
  - eexists. split; [reflexivity|]. rewrite app_nil_r. exact H1.
Qed.

Lemma holds_parts (l : list json) (content : list contentBlock) (ts cs : list json) :
  holds content ts cs ->
  forallb (fun part => negb (is_null part)) l = true ->
  forallb printable ts = true ->
  forallb printable (flat_map batchText l) = true ->
  exists content',
    fold_left (collectPart js_String toolId) l (Ok content) = Ok content' /\
    holds content' (ts ++ flat_map batchText l) (cs ++ flat_map callOf l).
Proof.
  revert content ts cs.
  induction l as [|part l IH]; intros content ts cs H Hl Hts Htexts;
    cbn [fold_left flat_map] in *.
  - exists content. rewrite !app_nil_r. auto.
  - simpl in Hl. apply andb_prop in Hl. destruct Hl as [Hpart Hl].
    apply negb_true_iff in Hpart.
    rewrite forallb_app in Htexts. apply andb_prop in Htexts.
    destruct Htexts as [Htext Htexts].
    destruct (holds_collectPart content ts cs part H Hpart Hts Htext) as (c1 & Hc1 & H1).
    rewrite Hc1. destruct (IH c1 _ _ H1 Hl) as (c2 & Hc2 & H2).
    + rewrite forallb_app, Hts, Htext. reflexivity.
    + exact Htexts.
    + exists c2. rewrite !app_assoc. auto.
Qed.

Lemma holds_collectEvent (a : acc) (ts cs : list json) (event : json) :
  holds (blocks a) ts cs -> collectable event = true ->
  forallb printable ts = true ->
  exists a',
    collectEvent js_String toolId (Ok a) event = Ok a' /\
    holds (blocks a') (ts ++ flat_map batchText (partsSeen event))
                      (cs ++ flat_map callOf (partsSeen event)).
Proof.
  intros H Hev Hts. unfold collectable in Hev. apply andb_prop in Hev.
  destruct Hev as [Hev Htexts].
  unfold readable in Hev. apply andb_prop in Hev. destruct Hev as [Hnull Hev].
  unfold collectEvent, collectParts, recordUsage. unfold partsSeen in *. cbn [bind].
  assert (Hsame : holds (blocks a) (ts ++ flat_map batchText []) (cs ++ flat_map callOf []))
    by (simpl; rewrite !app_nil_r; exact H).
  destruct event as [| | | | |fs]; try discriminate Hnull;
    try (eexists; split; [reflexivity | exact Hsame]).
  cbn [get] in Hev, Htexts |- *.
  destruct (lookup "response" fs) as [resp|];
    [|eexists; split; [reflexivity | exact Hsame]].
  destruct (truthy resp); cbn [negb];
    [|eexists; split; [reflexivity | exact Hsame]].
  apply andb_prop in Hev. destruct Hev as [Hev Hadds].
  assert (Husage : forall a1 : acc,
             exists a', (match get "usageMetadata" resp with
                         | Some um =>
                             if truthy um then
                               produced <- producedTokens js_String um ;;
                               Ok (mkAcc (blocks a1) (promptTokens um) produced
                                         (stopReason_ a1))
                             else Ok a1
                         | None => Ok a1
                         end) = Ok a' /\ blocks a' = blocks a1).
  { intros a1. unfold usageAdds in Hadds. unfold producedTokens, js_plus.
    destruct (get "usageMetadata" resp) as [um|]; [destruct (truthy um)|];
      rewrite ?Hadds; eexists; split; reflexivity. }
  destruct (partsOf resp) as [ps|].
  - destruct (truthy ps).
    + destruct (iterate ps) as [l|]; [|discriminate Hev]. cbn [bind].
      destruct (holds_parts l (blocks a) ts cs H Hev Hts Htexts) as (c1 & -> & H1).
      cbn [bind].
      match goal with
      | |- context [mkAcc c1 ?i ?o ?s] => destruct (Husage (mkAcc c1 i o s)) as (a' & -> & Hb)
      end.
      exists a'. split; [reflexivity|]. rewrite Hb. exact H1.
    + cbn [bind]. destruct (Husage a) as (a' & -> & Hb).
      exists a'. split; [reflexivity|]. rewrite Hb. exact Hsame.
  - cbn [bind]. destruct (Husage a) as (a' & -> & Hb).
    exists a'. split; [reflexivity|]. rewrite Hb. exact Hsame.
Qed.

Lemma collectable_texts (events : list json) :
  forallb collectable events = true ->
  forallb printable (flat_map batchText (flat_map partsSeen events)) = true.
Proof.
  induction events as [|event events IH]; simpl; [reflexivity|]. intros H.
  apply andb_prop in H. destruct H as [Hev Hall]. unfold collectable in Hev.
  apply andb_prop in Hev. destruct Hev as [_ Htexts].
  rewrite flat_map_app, forallb_app, Htexts. exact (IH Hall).
Qed.

Lemma holds_events (events : list json) (a : acc) (ts cs : list json) :
  holds (blocks a) ts cs -> forallb collectable events = true ->
  forallb printable ts = true ->
  exists a',
    fold_left (collectEvent js_String toolId) events (Ok a) = Ok a' /\
    holds (blocks a') (ts ++ flat_map batchText (flat_map partsSeen events))
                      (cs ++ flat_map callOf (flat_map partsSeen events)).
Proof.
  revert a ts cs.
  induction events as [|event events IH]; intros a ts cs H Hall Hts;
    cbn [fold_left flat_map].
  - exists a. rewrite !app_nil_r. auto.
  - simpl in Hall. apply andb_prop in Hall. destruct Hall as [Hev Hall].
    destruct (holds_collectEvent a ts cs event H Hev Hts) as (a1 & -> & H1).
    destruct (IH a1 _ _ H1 Hall) as (a2 & -> & H2).
    + unfold collectable in Hev. apply andb_prop in Hev. destruct Hev as [_ Htexts].
      rewrite forallb_app, Hts, Htexts. reflexivity.
    + exists a2. rewrite !flat_map_app, !app_assoc. auto.
Qed.

Lemma existsb_filter {A} (f : A -> bool) (l : list A) :
  existsb f l = match filter f l with [] => false | _ => true end.
Proof.
  induction l as [|x l IH]; simpl; [reflexivity|].
  destruct (f x); [reflexivity | exact IH].
Qed.

(** X17: on a body on whose events nothing throws (no event and no part
    is [null], the parts can be iterated, the usage counters and the
    texts taken can be added: none is an object with a property
    [toString]), the batch translator returns a message; it holds the
    calls of all the parts as tool-use blocks, in the order of the
    backend and under the ids drawn in turn; the texts of the parts
    without a thought signature, added up in one text block; one empty
    text block if there is neither; and the stop reason [tool_use]
    exactly when there is a call. *)
Theorem batch_collects_in_order (googleSSE : string) (anthropicModel : option json) :
  forallb collectable (parseEvents trim JSON_parse (lines_of googleSSE)) = true ->
  exists m,
    convertGoogleSSEToAnthropicStream trim JSON_parse js_String toolId msgId
      googleSSE anthropicModel = Ok m /\
    filter isToolUse (content m)
    = numberedUses toolId 0
        (flat_map callOf
           (flat_map partsSeen (parseEvents trim JSON_parse (lines_of googleSSE)))) /\
    blockTexts (content m)
    = match addedUp js_String
              (flat_map batchText
                 (flat_map partsSeen (parseEvents trim JSON_parse (lines_of googleSSE)))),
            flat_map callOf
              (flat_map partsSeen (parseEvents trim JSON_parse (lines_of googleSSE)))
      with
      | [], [] => [JStr EmptyString]
      | added, _ => added
      end /\
    stop_reason m
    = match flat_map callOf
              (flat_map partsSeen (parseEvents trim JSON_parse (lines_of googleSSE)))
      with
      | [] => end_turn
      | _ => tool_use
      end.
Proof.
  intros H. unfold convertGoogleSSEToAnthropicStream, convertEvents.
  set (events := parseEvents trim JSON_parse (lines_of googleSSE)) in *.
  assert (H0 : holds (blocks (mkAcc [] (JNum 0) (JNum 0) end_turn)) [] [])
    by (split; reflexivity).
  destruct (holds_events events _ [] [] H0 H eq_refl) as (a & Hfold & Htools & Htexts).
  pose proof (BatchFacts.fold_collectEvent_end_turn js_String toolId events
                (mkAcc [] (JNum 0) (JNum 0) end_turn) a eq_refl Hfold) as Hend.
  rewrite Hfold. cbn [bind]. eexists. split; [reflexivity|].
  cbn [content stop_reason app] in *.
  set (calls := flat_map callOf (flat_map partsSeen events)) in *.
  set (added := addedUp js_String (flat_map batchText (flat_map partsSeen events))) in *.
  rewrite existsb_filter, Hend.
  destruct (blocks a) as [|b bs] eqn:Hb.
  - simpl in Htools, Htexts. rewrite <- Htexts.
    destruct calls; [repeat split | discriminate Htools].
  - rewrite Htools, Htexts. split; [reflexivity|]. split.
    + destruct added; [|reflexivity]. destruct calls; [|reflexivity].
      destruct b; discriminate.
    + destruct calls; reflexivity.
Qed.

End Translate.

(** A body of one line without a line break: a signed call and a text. *)
Lemma batch_collects_in_order_witness :
  exists m,
    convertGoogleSSEToAnthropicStream (fun s => s)
      (fun _ => Some (JObj [("response",
         JObj [("candidates",
                JArr [JObj [("content",
                  JObj [("parts",
                    JArr [JObj [("thoughtSignature", JStr "sig");
                                ("functionCall", JObj [("name", JStr "ls")])];
                          JObj [("text", JStr "hi")]])])]])])]))
      (fun _ => "?") (fun _ => "toolu") "msg" "data:{}" None = Ok m /\
    filter isToolUse (content m) = [ToolUse "toolu" (Some (JStr "ls")) (JObj [])] /\
    blockTexts (content m) = [JStr "hi"] /\
    stop_reason m = tool_use.
Proof.
  exact (batch_collects_in_order (fun s => s)
      (fun _ => Some (JObj [("response",
         JObj [("candidates",
                JArr [JObj [("content",
                  JObj [("parts",
                    JArr [JObj [("thoughtSignature", JStr "sig");
                                ("functionCall", JObj [("name", JStr "ls")])];
                          JObj [("text", JStr "hi")]])])]])])]))
      (fun _ => "?") (fun _ => "toolu") "msg" "data:{}" None eq_refl).
Defined.

(** A second text that is an object with a property [toString]: adding it
    to the text block throws, and no message is returned. *)
Example batch_text_throws :
  convertGoogleSSEToAnthropicStream (fun s => s)
    (fun _ => Some (JObj [("response",
       JObj [("candidates",
              JArr [JObj [("content",
                JObj [("parts",
                  JArr [JObj [("text", JStr "hi")];
                        JObj [("text", JObj [("toString", JNum 1)])]])])]])])]))
    (fun _ => "?") (fun _ => "toolu") "msg" "data:{}" None = Throw.
Proof. reflexivity. Qed.

End BatchMore.

(* ================================================================== *)
(** * Endpoint racer: further facts                                    *)
(* ================================================================== *)

Module RacerMore.
Import Racer Properties.

Lemma errMsg_bounds (r : reason) :
  errMsg r <> EmptyString /\ String.length (errMsg r) <= 300.
Proof.
  destruct r as [s errText ep|]; simpl; [|split; [discriminate | lia]].
  destruct (slice0 300 errText =? EmptyString) eqn:E.
  - split; [discriminate | simpl; lia].
  - apply String.eqb_neq in E. split; [exact E|].
    unfold slice0. apply RacerFacts.substring_length_le.
Qed.

(** X18: with at least one endpoint the racer ends in one of two ways:
    it proceeds with the answer of a listed endpoint whose status is 200
    to 299; or, every endpoint having failed, it replies 529 with the
    type overloaded_error, or 400 or 500 with the type api_error and a
    message of at most 300 characters; the message of a reply is never
    empty. *)
Theorem race_outcomes (backend : string -> fetched) (endpoints : list string) :
  endpoints <> [] ->
  match race backend endpoints with
  | Proceed r => exists ep, In ep endpoints /\ backend ep = Answered r /\ ok r = true
  | Reply code error_type message =>
      all_failed backend endpoints /\ message <> EmptyString /\
      ((code = 529%Z /\ error_type = "overloaded_error") \/
       ((code = 400%Z \/ code = 500%Z) /\ error_type = "api_error" /\
        String.length message <= 300))
  | Crashed => False
  end.
Proof.
  intros Hne. unfold race, settle.
  destruct (find isFulfilled (map (fetchOne backend) endpoints)) as [s|] eqn:Hfind.
  - destruct (find_some _ _ Hfind) as [Hin Hs].
    destruct s as [value|why]; [|discriminate Hs].
    apply in_map_iff in Hin. destruct Hin as (ep & Hep & Hin).
    exists ep. split; [exact Hin|]. unfold fetchOne in Hep.
    destruct (backend ep) as [r|]; [|discriminate Hep].
    destruct (ok r) eqn:Hok; [|discriminate Hep]. injection Hep as ->. auto.
  - assert (Hall : all_failed backend endpoints).
    { intros e He. destruct (isFulfilled (fetchOne backend e)) eqn:Hf; [|reflexivity].
      pose proof (find_none _ _ Hfind (fetchOne backend e) (in_map _ _ _ He)) as Hn.
      congruence. }
    destruct endpoints as [|primary rest]; [contradiction|]. simpl map.
    pose proof (Hall primary (or_introl eq_refl)) as Hp.
    destruct (fetchOne backend primary) as [value|firstErr]; [discriminate Hp|].
    destruct (statusIs 429 firstErr || statusIs 503 firstErr).
    + split; [exact Hall|]. split; [destruct (statusIs 429 firstErr); discriminate|].
      left. auto.
    + destruct (errMsg_bounds firstErr) as [Hmsg Hlen].
      split; [exact Hall|]. split; [exact Hmsg|]. right.
      destruct (statusIs 400 firstErr); auto.
Qed.

(** The two endpoints of the proxy, the first answering 400 and the
    second 200: the proxy proceeds with the second. *)
Lemma race_outcomes_witness :
  exists ep,
    In ep ENDPOINTS /\
    (if ep =? PROD_EP then Answered {| status := 400; body := "bad" |}
     else Answered {| status := 200; body := "ok" |})
    = Answered {| status := 200; body := "ok" |} /\
    ok {| status := 200; body := "ok" |} = true.
Proof.
  exact (race_outcomes
           (fun ep => if ep =? PROD_EP then Answered {| status := 400; body := "bad" |}
                      else Answered {| status := 200; body := "ok" |})
           ENDPOINTS ltac:(discriminate)).
Defined.

End RacerMore.

(* ================================================================== *)
(** * Access token: facts                                              *)
(* ================================================================== *)

Module TokenFacts.
Import Token.

Section Clock.

Variable js_Number : json -> option Z.

Lemma or_default_number (n : Z) : or_default (Some (JNum n)) (JNum 0) = JNum n.
Proof.
  simpl. destruct (Z.eqb_spec n 0) as [->|_]; reflexivity.
Qed.

(** X19: after a refresh at the time [later] that the endpoint answered
    with a token and a lifetime of [seconds], the stored token is the
    one answered and is not empty; [getToken] returns it without a
    refresh at every time earlier than five minutes before the end of
    the lifetime, and goes through a refresh at every other time: with a
    lifetime of at most 300 seconds, at every time from [later] on. *)
Theorem token_served_until_margin (later seconds : Z) (data : json)
  (creds creds' : list (string * json)) :
  refreshToken js_Number later (Some data) creds = Ok creds' ->
  get "expires_in" data = Some (JNum seconds) -> seconds <> 0%Z ->
  lookup "access_token" creds' = get "access_token" data /\
  truthy_opt (lookup "access_token" creds') = true /\
  forall (now later' : Z) (answer : option json),
    getToken js_Number now later' answer creds'
    = if (now <? later + seconds * 1000 - 300000)%Z
      then Ok (creds', get "access_token" data)
      else bind (refreshToken js_Number later' answer creds')
                (fun creds'' => Ok (creds'', lookup "access_token" creds'')).
Proof.
  intros Hrefresh Hin Hsec. unfold refreshToken in Hrefresh.
  assert (Hexp : expiry js_Number later data = JNum (later + seconds * 1000 - 300000)).
  { unfold expiry. rewrite Hin. simpl.
    destruct (Z.eqb_spec seconds 0) as [?|_]; [contradiction | reflexivity]. }
  rewrite Hexp in Hrefresh.
  destruct data; try discriminate Hrefresh;
    (destruct (get "access_token" _) as [token|] eqn:Htok; [|discriminate Hrefresh];
     destruct (truthy token) eqn:Htruthy; [|discriminate Hrefresh];
     simpl in Hrefresh; injection Hrefresh as <-;
     assert (Hstored : lookup "access_token"
                         (assign "expires_at" (JNum (later + seconds * 1000 - 300000))
                                 (assign "access_token" token creds)) = Some token)
       by (rewrite SchemaFacts.lookup_assign_other by discriminate;
           apply SchemaFacts.lookup_assign_same);
     rewrite Hstored; split; [reflexivity|]; split; [exact Htruthy|];
     intros now later' answer; unfold getToken, expired;
     rewrite SchemaFacts.lookup_assign_same, or_default_number; cbn [number];
     rewrite Z.leb_antisym, Hstored;
     destruct (now <? later + seconds * 1000 - 300000)%Z; reflexivity).
Qed.

End Clock.

(** A token answered with a lifetime of 3599 seconds at the time 1000 is
    served from the store one second later. *)
Lemma token_served_until_margin_witness :
  getToken (fun _ => None) 2000 2000 None
    [("access_token", JStr "ya29"); ("expires_at", JNum 3300000)]
  = Ok ([("access_token", JStr "ya29"); ("expires_at", JNum 3300000)],
        Some (JStr "ya29")).
Proof.
  exact (proj2 (proj2 (token_served_until_margin (fun _ => None) 1000 3599
                         (JObj [("access_token", JStr "ya29"); ("expires_in", JNum 3599)])
                         [] _ eq_refl eq_refl ltac:(discriminate)))
               2000%Z 2000%Z None).
Defined.

End TokenFacts.
